(** * rasa.nlu.utils: a shallow embedding and its verified properties

    The module [rasa/nlu/utils/__init__.py] is a set of independent helpers:
    path relativisation, quoting and joining of strings, JSON serialisation,
    construction of entity dictionaries, validation and removal of model
    directories, and recognition of URLs.  Each helper is embedded below as a
    Rocq function with the name it has in the source; the Python library
    functions they call ([re], [os], [os.path], [shutil], [json]) are
    embedded next to them, following CPython's own definitions. *)

From Stdlib Require Import Ascii String ZArith Lia DecimalString DecimalFacts DecimalPos DecimalZ.
From stdpp Require Import base option list gmap strings fin_maps.

Local Open Scope string_scope.

(** ** Outcomes of a call

    A Python call either returns a value or raises.  [outcome] is the error
    monad used throughout; the exceptions are the ones the embedded functions
    can raise. *)

Inductive exn :=
  | TypeError (msg : string)
  | ValueError (msg : string)
  | FileNotFoundError (filename : string)
  | NotADirectoryError (filename : string)
  | PermissionError (filename : string)
  | IndexError (msg : string)
  | JSONDecodeError (msg : string)
  | NotModelled (what : string).

Inductive outcome (A : Type) :=
  | Returns (a : A)
  | Raises (e : exn).
Arguments Returns {A} a.
Arguments Raises {A} e.

#[global] Instance outcome_ret : MRet outcome := fun A a => Returns a.

#[global] Instance outcome_bind : MBind outcome := fun A B k m =>
  match m with
  | Returns a => k a
  | Raises e => Raises e
  end.

(** Characters that a string literal cannot hold conveniently. *)
Definition backslash : ascii := ascii_of_nat 92.
Definition dquote : ascii := ascii_of_nat 34.

(** ** Text helpers *)

Module Text.

(** [str.startswith]. *)
Fixpoint startswith (s p : string) {struct p} : bool :=
  match p with
  | EmptyString => true
  | String c p' =>
      match s with
      | EmptyString => false
      | String d s' => if Ascii.eqb c d then startswith s' p' else false
      end
  end.

(** [sep.join(items)]. *)
Fixpoint join (sep : string) (items : list string) : string :=
  match items with
  | [] => ""
  | [x] => x
  | x :: rest => x ++ sep ++ join sep rest
  end.

(** [s[n:]] and [s[:n]]. *)
Fixpoint drop (n : nat) (s : string) : string :=
  match n, s with
  | O, _ => s
  | S n', String _ s' => drop n' s'
  | S _, EmptyString => EmptyString
  end.

Fixpoint take (n : nat) (s : string) : string :=
  match n, s with
  | S n', String c s' => String c (take n' s')
  | _, _ => EmptyString
  end.

(** [s[i]], when [i] is in range. *)
Fixpoint get (i : nat) (s : string) : option ascii :=
  match s, i with
  | EmptyString, _ => None
  | String c _, O => Some c
  | String _ s', S i' => get i' s'
  end.

(** [s.rfind(sub)] for the text [s] that starts at index [i] of the whole
    string: the highest index where [sub] occurs, or [-1]. *)
Fixpoint rfind_from (s sub : string) (i : Z) : Z :=
  match s with
  | EmptyString => if startswith s sub then i else (-1)%Z
  | String _ s' =>
      let r := rfind_from s' sub (i + 1) in
      if (0 <=? r)%Z then r
      else if startswith s sub then i else (-1)%Z
  end.

Definition rfind (s sub : string) : Z := rfind_from s sub 0.

(** [str.count(sub)]: the number of non-overlapping occurrences of [sub],
    scanning from the left.  [skip] is the number of characters still
    covered by the occurrence found last. *)
Fixpoint count_from (sub : string) (skip : nat) (s : string) : nat :=
  match s with
  | EmptyString => 0
  | String _ s' =>
      match skip with
      | S k => count_from sub k s'
      | O =>
          if startswith s sub
          then S (count_from sub (String.length sub - 1) s')
          else count_from sub 0 s'
      end
  end.

Definition count (s sub : string) : nat :=
  match sub with
  | EmptyString => S (String.length s)
  | _ => count_from sub 0 s
  end.

(** [s.split(sep)] for a separator of one character. *)
Fixpoint split (sep : ascii) (s : string) : list string :=
  match s with
  | EmptyString => [EmptyString]
  | String c s' =>
      if Ascii.eqb c sep then EmptyString :: split sep s'
      else
        match split sep s' with
        | h :: t => String c h :: t
        | [] => [String c EmptyString]
        end
  end.

(** [c in s]. *)
Fixpoint contains (c : ascii) (s : string) : bool :=
  match s with
  | EmptyString => false
  | String x s' => Ascii.eqb x c || contains c s'
  end.

(** [s.lstrip(c)]. *)
Fixpoint lstrip (c : ascii) (s : string) : string :=
  match s with
  | EmptyString => EmptyString
  | String x s' => if Ascii.eqb x c then lstrip c s' else s
  end.

(** [c * n]. *)
Fixpoint replicate (n : nat) (c : ascii) : string :=
  match n with
  | O => EmptyString
  | S n' => String c (replicate n' c)
  end.

(** First and last character of a string, if any. *)
Definition first_char (s : string) : option ascii :=
  match s with
  | EmptyString => None
  | String c _ => Some c
  end.

Fixpoint last_char (s : string) : option ascii :=
  match s with
  | EmptyString => None
  | String c EmptyString => Some c
  | String _ s' => last_char s'
  end.

(** ASCII lower-casing of one character and of a string ([str.lower] on
    ASCII text). *)
Definition lower_ascii (c : ascii) : ascii :=
  let n := nat_of_ascii c in
  if (65 <=? n)%nat && (n <=? 90)%nat then ascii_of_nat (n + 32) else c.

Fixpoint lower (s : string) : string :=
  match s with
  | EmptyString => EmptyString
  | String c s' => String (lower_ascii c) (lower s')
  end.

End Text.

(** ** [re]: the fragment of regular expressions the module uses

    The only pattern of the module is an alternation of literal strings.
    [re_match] is [Pattern.match]: the pattern is tried at the start of the
    subject only, alternatives from left to right, and the result is the
    matched text ([None] when nothing matches).  A subject that is not a
    string makes [Pattern.match] raise [TypeError]. *)

Module Re.

Inductive regex :=
  | Lit (s : string)
  | Alt (r1 r2 : regex).

Fixpoint match_at (r : regex) (s : string) : option string :=
  match r with
  | Lit p => if Text.startswith s p then Some p else None
  | Alt r1 r2 =>
      match match_at r1 s with
      | Some m => Some m
      | None => match_at r2 s
      end
  end.

Definition re_match (r : regex) (subject : option string)
  : outcome (option string) :=
  match subject with
  | None => Raises (TypeError "expected string or bytes-like object")
  | Some s => Returns (match_at r s)
  end.

(** The literals of a pattern, from left to right. *)
Fixpoint literals (r : regex) : list string :=
  match r with
  | Lit p => [p]
  | Alt r1 r2 => literals r1 ++ literals r2
  end.

End Re.

(** ** [is_url] *)

(** [re.compile(r"http://|https://|ftp://|file://|file:\\")]: in the raw
    pattern the two backslashes denote one literal backslash. *)
Definition URL_REGEX : Re.regex :=
  Re.Alt (Re.Lit "http://")
    (Re.Alt (Re.Lit "https://")
       (Re.Alt (Re.Lit "ftp://")
          (Re.Alt (Re.Lit "file://")
             (Re.Lit ("file:" ++ String backslash ""))))).

(** [resource_name] is the value the caller passes; [None] is an absent
    argument (Python's [None]). *)
Definition is_url (resource_name : option string) : outcome bool :=
  m ← Re.re_match URL_REGEX resource_name;
  Returns (negb (bool_decide (m = None))).

(** The scheme prefixes named by the specification. *)
Definition url_prefixes : list string :=
  ["http://"; "https://"; "ftp://"; "file://"; "file:" ++ String backslash ""].

(** ** [list_to_str] *)

(** The defaults of the keyword parameters [delim] and [quote]. *)
Definition default_delim : string := ", ".
Definition default_quote : string := "'".

Definition list_to_str (lst : list string) (delim quote : string) : string :=
  Text.join delim (map (fun e => quote ++ e ++ quote) lst).

(** ** Python values

    The values that flow through the helpers typed [Any]: the values of
    the entity dictionaries of [build_entity] and the objects given to
    [json_to_string].  A dictionary value is kept as the list of its items
    in insertion order, which is the order the encoder writes them in. *)

Unset Elimination Schemes.
Inductive pyval :=
  | VNone
  | VBool (b : bool)
  | VInt (z : Z)
  | VStr (s : string)
  | VList (items : list pyval)
  | VDict (items : list (string * pyval)).
Set Elimination Schemes.

(** Truth value of an [Optional[Text]]: [None] and the empty string are
    falsy. *)
Definition truthy (o : option string) : bool :=
  match o with
  | None => false
  | Some s => negb (bool_decide (s = ""))
  end.

(** ** [build_entity] *)

(** Modelled from the spec: the constants [ENTITY_ATTRIBUTE_START],
    [ENTITY_ATTRIBUTE_END], [ENTITY_ATTRIBUTE_VALUE], [ENTITY_ATTRIBUTE_TYPE],
    [ENTITY_ATTRIBUTE_ROLE] and [ENTITY_ATTRIBUTE_GROUP] are imported from
    [rasa.nlu.constants] and [rasa.shared.nlu.constants]; the specification
    names the keys of an entity record [start], [end], [value], [type],
    [role] and [group]. *)
Definition ENTITY_ATTRIBUTE_START : string := "start".
Definition ENTITY_ATTRIBUTE_END : string := "end".
Definition ENTITY_ATTRIBUTE_VALUE : string := "value".
Definition ENTITY_ATTRIBUTE_TYPE : string := "type".
Definition ENTITY_ATTRIBUTE_ROLE : string := "role".
Definition ENTITY_ATTRIBUTE_GROUP : string := "group".

(** The dictionary is a finite map from keys to values; [entity.update(kwargs)]
    is the union in which [kwargs] wins.  [end_] is the parameter [end]. *)
Definition build_entity (start end_ : Z) (value entity_type : string)
    (role group : option string) (kwargs : gmap string pyval)
  : gmap string pyval :=
  let entity : gmap string pyval :=
    <[ENTITY_ATTRIBUTE_TYPE := VStr entity_type]>
      (<[ENTITY_ATTRIBUTE_VALUE := VStr value]>
         (<[ENTITY_ATTRIBUTE_END := VInt end_]>
            (<[ENTITY_ATTRIBUTE_START := VInt start]> ∅))) in
  let entity :=
    match role with
    | Some r => if truthy role then <[ENTITY_ATTRIBUTE_ROLE := VStr r]> entity else entity
    | None => entity
    end in
  let entity :=
    match group with
    | Some g => if truthy group then <[ENTITY_ATTRIBUTE_GROUP := VStr g]> entity else entity
    | None => entity
    end in
  kwargs ∪ entity.

(** Induction on values: the items of a list and the values of a
    dictionary come with the induction hypothesis. *)
Definition pyval_ind (P : pyval -> Prop)
    (HNone : P VNone) (HBool : forall b, P (VBool b))
    (HInt : forall z, P (VInt z)) (HStr : forall s, P (VStr s))
    (HList : forall items, Forall P items -> P (VList items))
    (HDict : forall items, Forall (fun kv => P kv.2) items -> P (VDict items))
  : forall v, P v :=
  fix go (v : pyval) : P v :=
    match v with
    | VNone => HNone
    | VBool b => HBool b
    | VInt z => HInt z
    | VStr s => HStr s
    | VList items =>
        HList items
          ((fix go_list (l : list pyval) : Forall P l :=
              match l with
              | [] => List.Forall_nil P
              | x :: l' => @List.Forall_cons _ P x l' (go x) (go_list l')
              end) items)
    | VDict items =>
        HDict items
          ((fix go_dict (l : list (string * pyval)) : Forall (fun kv => P kv.2) l :=
              match l with
              | [] => List.Forall_nil _
              | kv :: l' =>
                  @List.Forall_cons _ (fun kv => P kv.2) kv l'
                    (match kv with (k, x) => go x end) (go_dict l')
              end) items)
    end.

(** A value is well formed when the keys of each of its dictionaries are
    distinct, as the keys of a Python dictionary are. *)
Fixpoint well_formed (v : pyval) : Prop :=
  match v with
  | VList items => foldr (fun x acc => well_formed x /\ acc) True items
  | VDict items =>
      NoDup (fst <$> items) /\
      foldr (fun kv acc => match kv with (_, x) => well_formed x /\ acc end) True items
  | _ => True
  end.

(** ** [os.path] (the POSIX flavour, [posixpath]) *)

Module OsPath.

Definition sep : string := "/".
Definition extsep : string := ".".

(** The loop of [genericpath._splitext] that skips leading dots: it looks
    at the [n] characters of [p] from [filenameIndex] on and tells whether
    one of them is not a dot. *)
Fixpoint non_dot_before (p : string) (filenameIndex n : nat) : bool :=
  match n with
  | O => false
  | S n' =>
      if bool_decide (Text.get filenameIndex p = Some "."%char)
      then non_dot_before p (S filenameIndex) n'
      else true
  end.

(** [os.path.splitext(p)]: the extension starts at the last dot of the
    last component, unless only dots precede it in that component. *)
Definition splitext (p : string) : string * string :=
  let sepIndex := Text.rfind p sep in
  let dotIndex := Text.rfind p extsep in
  if (sepIndex <? dotIndex)%Z
     && non_dot_before p (Z.to_nat (sepIndex + 1))
          (Z.to_nat (dotIndex - (sepIndex + 1)))
  then (Text.take (Z.to_nat dotIndex) p, Text.drop (Z.to_nat dotIndex) p)
  else (p, "").

(** [os.path.isabs]. *)
Definition isabs (s : string) : bool := Text.startswith s sep.

(** [os.path.join(a, *p)]: one round of its loop, and the loop. *)
Definition join_step (path b : string) : string :=
  if Text.startswith b sep then b
  else if bool_decide (path = "") || bool_decide (Text.last_char path = Some "/"%char)
       then path ++ b
       else path ++ sep ++ b.

Definition join (a : string) (p : list string) : string :=
  fold_left join_step p a.

Definition curdir : string := ".".
Definition pardir : string := "..".

(** [os.path.normpath]: one round of the loop over the components, which
    keeps the list [new_comps], and the function. *)
Definition normpath_step (initial_slashes : nat) (new_comps : list string)
    (comp : string) : list string :=
  if bool_decide (comp = "") || bool_decide (comp = ".") then new_comps
  else if negb (bool_decide (comp = pardir))
          || ((initial_slashes =? 0)%nat && bool_decide (new_comps = []))
          || (negb (bool_decide (new_comps = []))
              && bool_decide (last new_comps = Some pardir))
       then (new_comps ++ [comp])%list
       else if negb (bool_decide (new_comps = [])) then removelast new_comps
            else new_comps.

Definition initial_slashes (path : string) : nat :=
  if Text.startswith path sep then
    if Text.startswith path "//" && negb (Text.startswith path "///") then 2 else 1
  else 0.

Definition normpath (path : string) : string :=
  if bool_decide (path = "") then curdir
  else
    let comps := Text.split "/" path in
    let new_comps := fold_left (normpath_step (initial_slashes path)) comps [] in
    let path' := Text.replicate (initial_slashes path) "/" ++ Text.join sep new_comps in
    if bool_decide (path' = "") then curdir else path'.

(** [os.path.abspath], in a process whose working directory is [cwd]. *)
Definition abspath (cwd path : string) : string :=
  normpath (if isabs path then path else join cwd [path]).

(** [os.path.commonprefix] of two lists: their longest common prefix (the
    library orders the two lists first, which does not change it). *)
Fixpoint commonprefix (l1 l2 : list string) : list string :=
  match l1, l2 with
  | x :: l1', y :: l2' => if bool_decide (x = y) then x :: commonprefix l1' l2' else []
  | _, _ => []
  end.

(** The non-empty components of a path. *)
Definition components (path : string) : list string :=
  filter (fun x => x <> "") (Text.split "/" path).

(** [os.path.relpath(path, start)]. *)
Definition relpath (cwd path start : string) : outcome string :=
  if bool_decide (path = "") then Raises (ValueError "no path specified")
  else
    let start_list := components (abspath cwd start) in
    let path_list := components (abspath cwd path) in
    let i := length (commonprefix start_list path_list) in
    let rel_list := (repeat pardir (length start_list - i) ++ drop i path_list)%list in
    match rel_list with
    | [] => Returns curdir
    | a :: p => Returns (join a p)
    end.

End OsPath.

(** ** [pathlib]: pure POSIX paths

    A path object holds its root ([/], [//] or nothing) and its parts
    without the root; empty parts and [.] are dropped when it is built. *)

Record PurePath := { root : string; parts : list string }.

Definition splitroot (part : string) : string * string :=
  if Text.startswith part "/" then
    let stripped_part := Text.lstrip "/" part in
    if (String.length part - String.length stripped_part =? 2)%nat
    then ("//", stripped_part)
    else ("/", stripped_part)
  else ("", part).

Definition Path (s : string) : PurePath :=
  let '(root, rel) := splitroot s in
  {| root := root;
     parts := filter (fun x => x <> "" /\ x <> ".") (Text.split "/" rel) |}.

(** [str(p)]. *)
Definition path_str (p : PurePath) : string :=
  let s := root p ++ Text.join "/" (parts p) in
  if bool_decide (s = "") then "." else s.

(** ** [relative_normpath]

    [cwd] is the working directory of the process, which [os.path.relpath]
    reads. *)
Definition relative_normpath (cwd : string) (f : option string) (path : string)
  : outcome (option PurePath) :=
  match f with
  | Some f' =>
      r ← OsPath.relpath cwd f' path;
      Returns (Some (Path r))
  | None => Returns None
  end.


(** ** The file system

    A directory maps the names of its entries to files, directories and
    symbolic links.  The state [fs] is the content of the working directory;
    a path is the list of its components below it, written with [/] between
    them.  The empty list is the empty path, which names nothing.

    [Link] is a symbolic link whose target is a directory that the process
    has no permission to open.  For [os.scandir] such an entry is a
    directory: [DirEntry.is_dir()] follows the link, and [stat] of the
    target needs no permission on the target itself.  Listing it fails with
    [PermissionError], and no path goes through it.  [shutil.rmtree] removes
    the link with the directory that holds it and leaves the target alone;
    called on the link itself it fails.  Links to other targets and
    directories of the tree that cannot be listed are not part of the
    model. *)

Unset Elimination Schemes.
Inductive node :=
  | File (content : string)
  | Dir (entries : gmap string node)
  | Link.
Set Elimination Schemes.

Abbreviation fs := (gmap string node).
Abbreviation path := (list string).

Definition path_text (p : path) : string := Text.join "/" p.

(** [DirEntry.is_dir()], which follows symbolic links. *)
Definition is_dir (n : node) : bool :=
  match n with
  | Dir _ => true
  | Link => true
  | File _ => false
  end.

(** The entries that [os.walk] descends into: [is_dir()] holds and
    [os.path.islink] does not. *)
Definition walked (n : node) : bool :=
  match n with
  | Dir _ => true
  | Link => false
  | File _ => false
  end.

Fixpoint lookup_path (entries : fs) (p : path) : option node :=
  match p with
  | [] => None
  | [name] => entries !! name
  | name :: rest =>
      match entries !! name with
      | Some (Dir sub) => lookup_path sub rest
      | _ => None
      end
  end.

(** [os.scandir(p)]: the entries of the directory, each with its
    [is_dir()]; it raises when [p] is missing, is not a directory or may not
    be opened. *)
Definition listing (entries : fs) : list (string * bool) :=
  (fun e => (e.1, is_dir e.2)) <$> map_to_list entries.

Definition scandir (st : fs) (p : path) : outcome (list (string * bool)) :=
  match lookup_path st p with
  | Some (Dir entries) => Returns (listing entries)
  | Some (File _) => Raises (NotADirectoryError (path_text p))
  | Some Link => Raises (PermissionError (path_text p))
  | None => Raises (FileNotFoundError (path_text p))
  end.

(** [os.walk(top)], top-down, [onerror=None], [followlinks=False]: one
    triple [(dirpath, dirnames, filenames)] for [top], then the walks of the
    entries of [dirnames] that are not symbolic links, in the order of
    [dirnames].  An entry is in [dirnames] when its [is_dir()] is true, so a
    link to a directory is named there and yields no triple of its own.  A
    [scandir] that raises [OSError] ends the walk of that directory without
    a triple. *)
Definition dirnames (l : list (string * bool)) : list string :=
  fst <$> filter (fun e => e.2 = true) l.

Definition filenames (l : list (string * bool)) : list string :=
  fst <$> filter (fun e => e.2 = false) l.

Fixpoint walk_node (top : path) (n : node) : list (path * list string * list string) :=
  match n with
  | File _ => []
  | Link => []
  | Dir entries =>
      (top, dirnames (listing entries), filenames (listing entries))
      :: map_fold (fun name child acc =>
                     match child with
                     | Dir _ => (walk_node (top ++ [name])%list child ++ acc)%list
                     | File _ => acc
                     | Link => acc
                     end) [] entries
  end.

Definition os_walk (st : fs) (top : path) : list (path * list string * list string) :=
  match scandir st top with
  | Raises _ => []
  | Returns _ =>
      match lookup_path st top with
      | Some n => walk_node top n
      | None => []
      end
  end.

(** ** [is_model_dir] *)

Definition allowed_extensions : gset string := {[ ".json"; ".pkl"; ".dat" ]}.

Definition is_model_dir (st : fs) (model_dir : path) : outcome bool :=
  let dir_tree := os_walk st model_dir in
  if negb (length dir_tree =? 1)%nat then Returns false
  else
    match dir_tree with
    | (_, child_dirs, files) :: _ =>
        let file_extenstions := (fun f => (OsPath.splitext f).2) <$> files in
        let only_valid_files :=
          forallb (fun ext => bool_decide (ext ∈ allowed_extensions)) file_extenstions in
        Returns only_valid_files
    | [] => Raises (IndexError "list index out of range")
    end.

(** ** [shutil.rmtree] and [remove_model] *)

(** The tree without the entry at [p]. *)
Fixpoint remove_path (p : path) (entries : fs) : fs :=
  match p with
  | [] => entries
  | [name] => delete name entries
  | name :: rest =>
      alter (fun n => match n with
                      | Dir sub => Dir (remove_path rest sub)
                      | File c => File c
                      | Link => Link
                      end) name entries
  end.

(** [shutil.rmtree(p)], as a transition of the state with its outcome.  The
    links inside the directory go with it: [rmtree] unlinks them and does
    not follow them.  It opens [p] itself before it looks at what it opened,
    and [os.open] follows a link. *)
Definition rmtree (p : path) (st : fs) : fs * outcome unit :=
  match lookup_path st p with
  | Some (Dir _) => (remove_path p st, Returns tt)
  | Some (File _) => (st, Raises (NotADirectoryError (path_text p)))
  | Some Link => (st, Raises (PermissionError (path_text p)))
  | None => (st, Raises (FileNotFoundError (path_text p)))
  end.

Definition remove_model_message (model_dir : path) : string :=
  "Cannot remove " ++ path_text model_dir
    ++ ", it seems it is not a model directory".

Definition remove_model (model_dir : path) (st : fs) : fs * outcome bool :=
  match is_model_dir st model_dir with
  | Returns true =>
      match rmtree model_dir st with
      | (st', Returns _) => (st', Returns true)
      | (st', Raises e) => (st', Raises e)
      end
  | Returns false => (st, Raises (ValueError (remove_model_message model_dir)))
  | Raises e => (st, Raises e)
  end.

(** A small tree used in the examples: a model directory, a directory with
    a sub-directory, one with a text file, an empty one and a plain file. *)
Definition sample_fs : fs :=
  {[ "model" := Dir {[ "a.json" := File "{}"; "b.pkl" := File "" ]};
     "nested" := Dir {[ "a.json" := File "{}"; "b.pkl" := File "";
                        "c" := Dir ∅ ]};
     "text" := Dir {[ "a.json" := File "{}"; "a.txt" := File "" ]};
     "empty" := Dir ∅;
     "notes.json" := File "" ]}.

(** A directory that holds a model file and a link to a directory. *)
Definition linked_fs : fs :=
  {[ "m" := Dir {[ "a.json" := File "{}"; "c" := Link ]} ]}.

(** ** [json]: the encoder and the decoder

    Text is kept as the bytes of its UTF-8 encoding.  [pyval] has no
    floating-point number, and the decoder of this module answers
    [NotModelled] where CPython would build a float; the encoder and the
    decoder of values with floats are in [JsonFloat] below.  The
    interpreter's recursion limit is not modelled. *)

Module Json.

(** *** Encoding ([json.encoder]) *)

Definition hex_digit (n : nat) : ascii :=
  nth n ["0"; "1"; "2"; "3"; "4"; "5"; "6"; "7"; "8"; "9";
         "a"; "b"; "c"; "d"; "e"; "f"]%char "0"%char.

(** [ESCAPE_DCT]: what [encode_basestring] writes for one character. *)
Definition escape_char (c : ascii) : string :=
  let n := nat_of_ascii c in
  if Ascii.eqb c dquote then String backslash (String dquote "")
  else if Ascii.eqb c backslash then String backslash (String backslash "")
  else if (n =? 10)%nat then String backslash "n"
  else if (n =? 13)%nat then String backslash "r"
  else if (n =? 9)%nat then String backslash "t"
  else if (n =? 8)%nat then String backslash "b"
  else if (n =? 12)%nat then String backslash "f"
  else if (n <? 32)%nat then
    String backslash
      (String "u" (String "0" (String "0"
         (String (hex_digit (n / 16)) (String (hex_digit (n mod 16)) "")))))
  else String c "".

Fixpoint escape (s : string) : string :=
  match s with
  | EmptyString => EmptyString
  | String c s' => escape_char c ++ escape s'
  end.

(** [encode_basestring], the encoder of strings when [ensure_ascii] is
    false: characters outside ASCII are written as they are. *)
Definition encode_basestring (s : string) : string :=
  String dquote (escape s ++ String dquote "").

(** [int.__repr__]. *)
Definition int_repr (z : Z) : string :=
  NilEmpty.string_of_int (Z.to_int z).

Definition newline_indent (indent level : nat) : string :=
  String "010" (Text.replicate (indent * level) " ").

(** [_iterencode] of [_make_iterencode], with an indentation of [indent]
    spaces, the separators [","] and [": "] that go with an indentation, and
    the chunks concatenated; [level] is [_current_indent_level]. *)
Fixpoint iterencode (indent level : nat) (o : pyval) : string :=
  match o with
  | VStr s => encode_basestring s
  | VNone => "null"
  | VBool true => "true"
  | VBool false => "false"
  | VInt z => int_repr z
  | VList [] => "[]"
  | VList lst =>
      "[" ++ newline_indent indent (S level)
      ++ Text.join ("," ++ newline_indent indent (S level))
           (map (iterencode indent (S level)) lst)
      ++ newline_indent indent level ++ "]"
  | VDict [] => "{}"
  | VDict dct =>
      "{" ++ newline_indent indent (S level)
      ++ Text.join ("," ++ newline_indent indent (S level))
           (map (fun kv => match kv with
                           | (key, value) =>
                               encode_basestring key ++ ": "
                               ++ iterencode indent (S level) value
                           end) dct)
      ++ newline_indent indent level ++ "}"
  end.

(** [JSONEncoder(indent=indent, ensure_ascii=False).encode(o)]. *)
Definition encode (indent : nat) (o : pyval) : string := iterencode indent 0 o.

(** *** Decoding ([json.decoder], [json.scanner]) *)

Definition is_ws (c : ascii) : bool :=
  Ascii.eqb c " " || Ascii.eqb c "009" || Ascii.eqb c "010" || Ascii.eqb c "013".

Fixpoint skip_ws (s : string) : string :=
  match s with
  | EmptyString => EmptyString
  | String c s' => if is_ws c then skip_ws s' else s
  end.

Definition is_digit (c : ascii) : bool :=
  (48 <=? nat_of_ascii c)%nat && (nat_of_ascii c <=? 57)%nat.

Definition hex_value (c : ascii) : option N :=
  let n := N_of_ascii c in
  if is_digit c then Some (n - 48)%N
  else if (97 <=? n)%N && (n <=? 102)%N then Some (n - 87)%N
  else if (65 <=? n)%N && (n <=? 70)%N then Some (n - 55)%N
  else None.

Definition decode_hex4 (a b c d : ascii) : option N :=
  match hex_value a, hex_value b, hex_value c, hex_value d with
  | Some x, Some y, Some z, Some w => Some (((x * 16 + y) * 16 + z) * 16 + w)%N
  | _, _, _, _ => None
  end.

(** [chr(code)] as UTF-8 bytes. *)
Definition utf8 (code : N) : string :=
  let byte n := ascii_of_N n in
  (if code <? 128 then String (byte code) ""
   else if code <? 2048 then
     String (byte (192 + code / 64)) (String (byte (128 + code mod 64)) "")
   else if code <? 65536 then
     String (byte (224 + code / 4096))
       (String (byte (128 + (code / 64) mod 64))
          (String (byte (128 + code mod 64)) ""))
   else
     String (byte (240 + code / 262144))
       (String (byte (128 + (code / 4096) mod 64))
          (String (byte (128 + (code / 64) mod 64))
             (String (byte (128 + code mod 64)) ""))))%N.

(** [BACKSLASH]: the character an escape other than [u] stands for. *)
Definition unescape (esc : ascii) : option ascii :=
  if Ascii.eqb esc dquote then Some dquote
  else if Ascii.eqb esc backslash then Some backslash
  else if Ascii.eqb esc "/" then Some "/"%char
  else if Ascii.eqb esc "b" then Some "008"%char
  else if Ascii.eqb esc "f" then Some "012"%char
  else if Ascii.eqb esc "n" then Some "010"%char
  else if Ascii.eqb esc "r" then Some "013"%char
  else if Ascii.eqb esc "t" then Some "009"%char
  else None.

Definition is_high_surrogate (code : N) : bool :=
  (55296 <=? code)%N && (code <=? 56319)%N.
Definition is_low_surrogate (code : N) : bool :=
  (56320 <=? code)%N && (code <=? 57343)%N.
Definition join_surrogates (hi lo : N) : N :=
  (65536 + ((hi - 55296) * 1024 + (lo - 56320)))%N.

(** The second half of a surrogate pair at the head of [s], if there is
    one: its code and the text after it. *)
Definition low_surrogate_escape (s : string) : outcome (option (N * string)) :=
  match s with
  | String b (String u (String g1 (String g2 (String g3 (String g4 rest))))) =>
      if Ascii.eqb b backslash && Ascii.eqb u "u" then
        match decode_hex4 g1 g2 g3 g4 with
        | None => Raises (JSONDecodeError "Invalid \\uXXXX escape")
        | Some lo => Returns (if is_low_surrogate lo then Some (lo, rest) else None)
        end
      else Returns None
  | _ => Returns None
  end.

(** [scanstring], strict: [s] is the text after the opening quote; the
    result is the decoded string and the text after the closing quote. *)
Fixpoint scanstring (s : string) : outcome (string * string) :=
  match s with
  | EmptyString => Raises (JSONDecodeError "Unterminated string starting at")
  | String c s1 =>
      if Ascii.eqb c dquote then Returns (EmptyString, s1)
      else if Ascii.eqb c backslash then
        match s1 with
        | EmptyString => Raises (JSONDecodeError "Unterminated string starting at")
        | String esc s2 =>
            if Ascii.eqb esc "u" then
              match s2 with
              | String h1 (String h2 (String h3 (String h4 s3))) =>
                  match decode_hex4 h1 h2 h3 h4 with
                  | None => Raises (JSONDecodeError "Invalid \\uXXXX escape")
                  | Some uni =>
                      let single :=
                        r ← scanstring s3; Returns (utf8 uni ++ r.1, r.2) in
                      if is_high_surrogate uni then
                        match s3 with
                        | String b (String u (String g1 (String g2 (String g3 (String g4 s4))))) =>
                            match low_surrogate_escape s3 with
                            | Raises e => Raises e
                            | Returns None => single
                            | Returns (Some (lo, _)) =>
                                r ← scanstring s4;
                                Returns (utf8 (join_surrogates uni lo) ++ r.1, r.2)
                            end
                        | _ => single
                        end
                      else single
                  end
              | _ => Raises (JSONDecodeError "Invalid \\uXXXX escape")
              end
            else
              match unescape esc with
              | None => Raises (JSONDecodeError "Invalid \\escape")
              | Some ch => r ← scanstring s2; Returns (String ch r.1, r.2)
              end
        end
      else if (nat_of_ascii c <? 32)%nat
           then Raises (JSONDecodeError "Invalid control character at")
           else r ← scanstring s1; Returns (String c r.1, r.2)
  end.

(** The digits at the head of a text, and the rest. *)
Fixpoint span_digits (s : string) : string * string :=
  match s with
  | EmptyString => (EmptyString, EmptyString)
  | String c s' =>
      if is_digit c then (String c (span_digits s').1, (span_digits s').2)
      else (EmptyString, s)
  end.

(** [NUMBER_RE.match]: the integer part is an optional minus sign and
    either a single zero or a digit from one to nine with any digits after
    it; a fraction is a dot and digits, an exponent is the letter e, an
    optional sign and digits. *)
Definition match_integer (s : string) : option (string * string) :=
  let body s1 :=
    match s1 with
    | String d r =>
        if Ascii.eqb d "0" then Some (String d "", r)
        else if is_digit d then Some (String d (span_digits r).1, (span_digits r).2)
        else None
    | EmptyString => None
    end in
  match s with
  | String c r =>
      if Ascii.eqb c "-" then
        match body r with
        | Some (ds, rest) => Some (String c ds, rest)
        | None => None
        end
      else body s
  | EmptyString => None
  end.

Definition match_frac (s : string) : option string :=
  match s with
  | String c r =>
      if Ascii.eqb c "." && negb (bool_decide ((span_digits r).1 = ""))
      then Some (span_digits r).2 else None
  | EmptyString => None
  end.

Definition match_exp (s : string) : option string :=
  match s with
  | String c r =>
      if Ascii.eqb c "e" || Ascii.eqb c "E" then
        let r' := match r with
                  | String sg r1 => if Ascii.eqb sg "+" || Ascii.eqb sg "-" then r1 else r
                  | EmptyString => r
                  end in
        if negb (bool_decide ((span_digits r').1 = "")) then Some (span_digits r').2
        else None
      else None
  | EmptyString => None
  end.

(** [int(integer)] for a text that [match_integer] accepted. *)
Definition parse_int (integer : string) : Z :=
  match NilEmpty.int_of_string integer with
  | Some d => Z.of_int d
  | None => 0%Z
  end.

(** [dict(pairs)]: a later pair with a key already met replaces its value
    and keeps its place. *)
Fixpoint dict_set (d : list (string * pyval)) (key : string) (value : pyval)
  : list (string * pyval) :=
  match d with
  | [] => [(key, value)]
  | (k, v) :: d' =>
      if bool_decide (k = key) then (k, value) :: d'
      else (k, v) :: dict_set d' key value
  end.

Definition dict_of_pairs (pairs : list (string * pyval)) : list (string * pyval) :=
  fold_left (fun d kv => dict_set d kv.1 kv.2) pairs [].

(** [scan_once], with [JSONArray] and [JSONObject] and their loops.  The
    three functions call one another; [fuel] bounds the depth of the
    calls.  [array_items] starts at a value; [object_items] starts after the
    opening quote of a key. *)
Fixpoint scan_once (fuel : nat) (s : string) : outcome (pyval * string) :=
  match fuel with
  | O => Raises (NotModelled "fuel")
  | S fuel' =>
      match s with
      | EmptyString => Raises (JSONDecodeError "Expecting value")
      | String c r =>
          if Ascii.eqb c dquote then
            x ← scanstring r; Returns (VStr x.1, x.2)
          else if Ascii.eqb c "{" then
            match skip_ws r with
            | String c1 r1 =>
                if Ascii.eqb c1 "}" then Returns (VDict [], r1)
                else if Ascii.eqb c1 dquote then
                  x ← object_items fuel' r1;
                  Returns (VDict (dict_of_pairs x.1), x.2)
                else Raises (JSONDecodeError
                               "Expecting property name enclosed in double quotes")
            | EmptyString =>
                Raises (JSONDecodeError
                          "Expecting property name enclosed in double quotes")
            end
          else if Ascii.eqb c "[" then
            match skip_ws r with
            | String c1 r1 =>
                if Ascii.eqb c1 "]" then Returns (VList [], r1)
                else x ← array_items fuel' (skip_ws r); Returns (VList x.1, x.2)
            | EmptyString => Raises (JSONDecodeError "Expecting value")
            end
          else if Text.startswith s "null" then Returns (VNone, Text.drop 4 s)
          else if Text.startswith s "true" then Returns (VBool true, Text.drop 4 s)
          else if Text.startswith s "false" then Returns (VBool false, Text.drop 5 s)
          else
            match match_integer s with
            | Some (integer, rest) =>
                match match_frac rest, match_exp rest with
                | None, None => Returns (VInt (parse_int integer), rest)
                | _, _ => Raises (NotModelled "float")
                end
            | None =>
                if Text.startswith s "NaN" || Text.startswith s "Infinity"
                   || Text.startswith s "-Infinity"
                then Raises (NotModelled "float")
                else Raises (JSONDecodeError "Expecting value")
            end
      end
  end
with array_items (fuel : nat) (s : string) : outcome (list pyval * string) :=
  match fuel with
  | O => Raises (NotModelled "fuel")
  | S fuel' =>
      x ← scan_once fuel' s;
      match skip_ws x.2 with
      | String c r =>
          if Ascii.eqb c "]" then Returns ([x.1], r)
          else if Ascii.eqb c "," then
            y ← array_items fuel' (skip_ws r); Returns (x.1 :: y.1, y.2)
          else Raises (JSONDecodeError "Expecting ',' delimiter")
      | EmptyString => Raises (JSONDecodeError "Expecting ',' delimiter")
      end
  end
with object_items (fuel : nat) (s : string)
  : outcome (list (string * pyval) * string) :=
  match fuel with
  | O => Raises (NotModelled "fuel")
  | S fuel' =>
      k ← scanstring s;
      match skip_ws k.2 with
      | String c r =>
          if Ascii.eqb c ":" then
            x ← scan_once fuel' (skip_ws r);
            match skip_ws x.2 with
            | String c1 r1 =>
                if Ascii.eqb c1 "}" then Returns ([(k.1, x.1)], r1)
                else if Ascii.eqb c1 "," then
                  match skip_ws r1 with
                  | String c2 r2 =>
                      if Ascii.eqb c2 dquote then
                        y ← object_items fuel' r2;
                        Returns ((k.1, x.1) :: y.1, y.2)
                      else Raises (JSONDecodeError
                                     "Expecting property name enclosed in double quotes")
                  | EmptyString =>
                      Raises (JSONDecodeError
                                "Expecting property name enclosed in double quotes")
                  end
                else Raises (JSONDecodeError "Expecting ',' delimiter")
            | EmptyString => Raises (JSONDecodeError "Expecting ',' delimiter")
            end
          else Raises (JSONDecodeError "Expecting ':' delimiter")
      | EmptyString => Raises (JSONDecodeError "Expecting ':' delimiter")
      end
  end.

(** The byte order mark, at which [json.loads] stops. *)
Definition bom : string :=
  String (ascii_of_nat 239) (String (ascii_of_nat 187) (String (ascii_of_nat 191) "")).

(** [json.loads(s)]: one value, with white space around it and nothing
    else.  Every call of the scanner that takes fuel comes after at least
    one character was read for at most two calls, so the fuel is twice the
    length of the text. *)
Definition loads (s : string) : outcome pyval :=
  if Text.startswith s bom then Raises (JSONDecodeError "Unexpected UTF-8 BOM")
  else
    x ← scan_once (S (2 * String.length s)) (skip_ws s);
    if bool_decide (skip_ws x.2 = "") then Returns x.1
    else Raises (JSONDecodeError "Extra data").

End Json.

(** ** [json_to_string]

    [json_dumps obj indent ensure_ascii kwargs] is
    [json.dumps(obj, indent=indent, ensure_ascii=ensure_ascii, **kwargs)].
    The library function is a parameter: [json_to_string] only prepares its
    arguments.  The object is typed [Any] and [json_to_string] does not look
    at it, so its type is a parameter as well. *)

Section json_to_string.
Context {value : Type}.
Variable json_dumps : value -> pyval -> pyval -> gmap string pyval -> outcome string.

(** [kwargs.pop(key, default)]: the value and the dictionary without the
    key. *)
Definition dict_pop (kwargs : gmap string pyval) (key : string) (default : pyval)
  : pyval * gmap string pyval :=
  (from_option id default (kwargs !! key), delete key kwargs).

Definition json_to_string (obj : value) (kwargs : gmap string pyval)
  : outcome string :=
  let '(indent, kwargs) := dict_pop kwargs "indent" (VInt 2) in
  let '(ensure_ascii, kwargs) := dict_pop kwargs "ensure_ascii" (VBool false) in
  json_dumps obj indent ensure_ascii kwargs.

End json_to_string.

(** A serializer that agrees with CPython's on the configuration that
    [json_to_string] uses by default, and samples. *)
Definition json_dumps_default (obj indent ensure_ascii : pyval)
    (kwargs : gmap string pyval) : outcome string :=
  Returns (Json.encode 2 obj).

Definition sample_obj : pyval :=
  VDict [("text", VStr ("say " ++ String dquote ("hi" ++ String dquote "")));
         ("entities", VList [VDict [("start", VInt 0); ("end", VInt (-5))];
                             VList []; VNone; VBool true]);
         ("tab", VStr (String "009" (String "001" "")))].

(** ** Values with floating-point numbers

    [jsonval] is [pyval] with Python's [float].  A float is NaN, one of the
    two infinities, or a finite number; the finite ones are the elements of
    a type [F] of which nothing is fixed here.  What the code does with a
    float goes through two library functions, which are parameters of the
    encoder and of the decoder: [float_repr] is [float.__repr__] on the
    finite floats, and [parse_float] is [float] on the text of a number. *)

Inductive pyfloat (F : Type) :=
  | Finite (x : F)
  | NaN
  | Infinity (negative : bool).
Arguments Finite {F} x.
Arguments NaN {F}.
Arguments Infinity {F} negative.

Unset Elimination Schemes.
Inductive jsonval (F : Type) :=
  | JNone
  | JBool (b : bool)
  | JInt (z : Z)
  | JFloat (x : pyfloat F)
  | JStr (s : string)
  | JList (items : list (jsonval F))
  | JDict (items : list (string * jsonval F)).
Set Elimination Schemes.
Arguments JNone {F}.
Arguments JBool {F} b.
Arguments JInt {F} z.
Arguments JFloat {F} x.
Arguments JStr {F} s.
Arguments JList {F} items.
Arguments JDict {F} items.

(** Induction on values with floats, as [pyval_ind]. *)
Definition jsonval_ind {F : Type} (P : jsonval F -> Prop)
    (HNone : P JNone) (HBool : forall b, P (JBool b))
    (HInt : forall z, P (JInt z)) (HFloat : forall x, P (JFloat x))
    (HStr : forall s, P (JStr s))
    (HList : forall items, Forall P items -> P (JList items))
    (HDict : forall items, Forall (fun kv => P kv.2) items -> P (JDict items))
  : forall v, P v :=
  fix go (v : jsonval F) : P v :=
    match v with
    | JNone => HNone
    | JBool b => HBool b
    | JInt z => HInt z
    | JFloat x => HFloat x
    | JStr s => HStr s
    | JList items =>
        HList items
          ((fix go_list (l : list (jsonval F)) : Forall P l :=
              match l with
              | [] => List.Forall_nil P
              | x :: l' => @List.Forall_cons _ P x l' (go x) (go_list l')
              end) items)
    | JDict items =>
        HDict items
          ((fix go_dict (l : list (string * jsonval F)) : Forall (fun kv => P kv.2) l :=
              match l with
              | [] => List.Forall_nil _
              | kv :: l' =>
                  @List.Forall_cons _ (fun kv => P kv.2) kv l'
                    (match kv with (k, x) => go x end) (go_dict l')
              end) items)
    end.

(** A value without floats as a value with floats. *)
Fixpoint of_pyval {F : Type} (v : pyval) : jsonval F :=
  match v with
  | VNone => JNone
  | VBool b => JBool b
  | VInt z => JInt z
  | VStr s => JStr s
  | VList items => JList (map of_pyval items)
  | VDict items =>
      JDict (map (fun kv => match kv with (key, x) => (key, of_pyval x) end) items)
  end.

(** The values that JSON has a text for: the keys of each dictionary are
    distinct, as the keys of a Python dictionary are, and every float is
    finite.  JSON has no NaN and no infinity; [json.dumps] writes them as
    [NaN], [Infinity] and [-Infinity], which is not JSON, and Python's NaN
    is not equal to itself. *)
Fixpoint representable {F : Type} (v : jsonval F) : Prop :=
  match v with
  | JFloat (Finite _) => True
  | JFloat _ => False
  | JList items => foldr (fun x acc => representable x /\ acc) True items
  | JDict items =>
      NoDup (fst <$> items) /\
      foldr (fun kv acc => match kv with (_, x) => representable x /\ acc end) True items
  | _ => True
  end.

Module JsonFloat.

(** *** The text of a number ([json.scanner.NUMBER_RE])

    The pattern is an integer part, as [Json.match_integer] reads it, then
    an optional fraction, a dot and digits, then an optional exponent, the
    letter e, an optional sign and digits.  The groups that are absent are
    empty here. *)
Definition frac_part (s : string) : string * string :=
  match s with
  | String c r =>
      if Ascii.eqb c "." && negb (bool_decide ((Json.span_digits r).1 = ""))
      then (String c (Json.span_digits r).1, (Json.span_digits r).2)
      else ("", s)
  | EmptyString => ("", s)
  end.

Definition exp_part (s : string) : string * string :=
  match s with
  | String c r =>
      if Ascii.eqb c "e" || Ascii.eqb c "E" then
        let '(sign, r') :=
          match r with
          | String sg r1 =>
              if Ascii.eqb sg "+" || Ascii.eqb sg "-" then (String sg "", r1)
              else ("", r)
          | EmptyString => ("", r)
          end in
        if negb (bool_decide ((Json.span_digits r').1 = ""))
        then (String c (sign ++ (Json.span_digits r').1), (Json.span_digits r').2)
        else ("", s)
      else ("", s)
  | EmptyString => ("", s)
  end.

(** [NUMBER_RE.match]: the groups [integer], [frac] and [exp], and the text
    after the match. *)
Definition match_number (s : string) : option (string * string * string * string) :=
  match Json.match_integer s with
  | Some (integer, r1) =>
      let fr := frac_part r1 in
      let ex := exp_part fr.2 in
      Some (integer, fr.1, ex.1, ex.2)
  | None => None
  end.

(** The texts that the scanner reads to their end as a float: a number
    with a fraction or an exponent. *)
Definition is_float_literal (t : string) : bool :=
  match match_number t with
  | Some (_, frac, exp, rest) =>
      bool_decide (rest = "")
      && negb (bool_decide (frac = "") && bool_decide (exp = ""))
  | None => false
  end.

Section floats.
Context {F : Type}.
Variable float_repr : F -> string.
Variable parse_float : string -> pyfloat F.

(** *** Encoding ([json.encoder]) *)

(** [floatstr], with [allow_nan] as it is by default. *)
Definition floatstr (o : pyfloat F) : string :=
  match o with
  | NaN => "NaN"
  | Infinity false => "Infinity"
  | Infinity true => "-Infinity"
  | Finite x => float_repr x
  end.

(** [_iterencode], as [Json.iterencode], with the floats. *)
Fixpoint iterencode (indent level : nat) (o : jsonval F) : string :=
  match o with
  | JStr s => Json.encode_basestring s
  | JNone => "null"
  | JBool true => "true"
  | JBool false => "false"
  | JInt z => Json.int_repr z
  | JFloat x => floatstr x
  | JList [] => "[]"
  | JList lst =>
      "[" ++ Json.newline_indent indent (S level)
      ++ Text.join ("," ++ Json.newline_indent indent (S level))
           (map (iterencode indent (S level)) lst)
      ++ Json.newline_indent indent level ++ "]"
  | JDict [] => "{}"
  | JDict dct =>
      "{" ++ Json.newline_indent indent (S level)
      ++ Text.join ("," ++ Json.newline_indent indent (S level))
           (map (fun kv => match kv with
                           | (key, value) =>
                               Json.encode_basestring key ++ ": "
                               ++ iterencode indent (S level) value
                           end) dct)
      ++ Json.newline_indent indent level ++ "}"
  end.

(** [JSONEncoder(indent=indent, ensure_ascii=False).encode(o)]. *)
Definition encode (indent : nat) (o : jsonval F) : string := iterencode indent 0 o.

(** *** Decoding ([json.decoder], [json.scanner]) *)

Fixpoint dict_set (d : list (string * jsonval F)) (key : string) (value : jsonval F)
  : list (string * jsonval F) :=
  match d with
  | [] => [(key, value)]
  | (k, v) :: d' =>
      if bool_decide (k = key) then (k, value) :: d'
      else (k, v) :: dict_set d' key value
  end.

Definition dict_of_pairs (pairs : list (string * jsonval F))
  : list (string * jsonval F) :=
  fold_left (fun d kv => dict_set d kv.1 kv.2) pairs [].

(** [scan_once], as [Json.scan_once]; a number with a fraction or an
    exponent goes to [parse_float], and the three constants that are not
    JSON are read as [parse_constant] reads them. *)
Fixpoint scan_once (fuel : nat) (s : string) : outcome (jsonval F * string) :=
  match fuel with
  | O => Raises (NotModelled "fuel")
  | S fuel' =>
      match s with
      | EmptyString => Raises (JSONDecodeError "Expecting value")
      | String c r =>
          if Ascii.eqb c dquote then
            x ← Json.scanstring r; Returns (JStr x.1, x.2)
          else if Ascii.eqb c "{" then
            match Json.skip_ws r with
            | String c1 r1 =>
                if Ascii.eqb c1 "}" then Returns (JDict [], r1)
                else if Ascii.eqb c1 dquote then
                  x ← object_items fuel' r1;
                  Returns (JDict (dict_of_pairs x.1), x.2)
                else Raises (JSONDecodeError
                               "Expecting property name enclosed in double quotes")
            | EmptyString =>
                Raises (JSONDecodeError
                          "Expecting property name enclosed in double quotes")
            end
          else if Ascii.eqb c "[" then
            match Json.skip_ws r with
            | String c1 r1 =>
                if Ascii.eqb c1 "]" then Returns (JList [], r1)
                else x ← array_items fuel' (Json.skip_ws r); Returns (JList x.1, x.2)
            | EmptyString => Raises (JSONDecodeError "Expecting value")
            end
          else if Text.startswith s "null" then Returns (JNone, Text.drop 4 s)
          else if Text.startswith s "true" then Returns (JBool true, Text.drop 4 s)
          else if Text.startswith s "false" then Returns (JBool false, Text.drop 5 s)
          else
            match match_number s with
            | Some (integer, frac, exp, rest) =>
                if bool_decide (frac = "") && bool_decide (exp = "")
                then Returns (JInt (Json.parse_int integer), rest)
                else Returns (JFloat (parse_float (integer ++ frac ++ exp)), rest)
            | None =>
                if Text.startswith s "NaN"
                then Returns (JFloat NaN, Text.drop 3 s)
                else if Text.startswith s "Infinity"
                then Returns (JFloat (Infinity false), Text.drop 8 s)
                else if Text.startswith s "-Infinity"
                then Returns (JFloat (Infinity true), Text.drop 9 s)
                else Raises (JSONDecodeError "Expecting value")
            end
      end
  end
with array_items (fuel : nat) (s : string) : outcome (list (jsonval F) * string) :=
  match fuel with
  | O => Raises (NotModelled "fuel")
  | S fuel' =>
      x ← scan_once fuel' s;
      match Json.skip_ws x.2 with
      | String c r =>
          if Ascii.eqb c "]" then Returns ([x.1], r)
          else if Ascii.eqb c "," then
            y ← array_items fuel' (Json.skip_ws r); Returns (x.1 :: y.1, y.2)
          else Raises (JSONDecodeError "Expecting ',' delimiter")
      | EmptyString => Raises (JSONDecodeError "Expecting ',' delimiter")
      end
  end
with object_items (fuel : nat) (s : string)
  : outcome (list (string * jsonval F) * string) :=
  match fuel with
  | O => Raises (NotModelled "fuel")
  | S fuel' =>
      k ← Json.scanstring s;
      match Json.skip_ws k.2 with
      | String c r =>
          if Ascii.eqb c ":" then
            x ← scan_once fuel' (Json.skip_ws r);
            match Json.skip_ws x.2 with
            | String c1 r1 =>
                if Ascii.eqb c1 "}" then Returns ([(k.1, x.1)], r1)
                else if Ascii.eqb c1 "," then
                  match Json.skip_ws r1 with
                  | String c2 r2 =>
                      if Ascii.eqb c2 dquote then
                        y ← object_items fuel' r2;
                        Returns ((k.1, x.1) :: y.1, y.2)
                      else Raises (JSONDecodeError
                                     "Expecting property name enclosed in double quotes")
                  | EmptyString =>
                      Raises (JSONDecodeError
                                "Expecting property name enclosed in double quotes")
                  end
                else Raises (JSONDecodeError "Expecting ',' delimiter")
            | EmptyString => Raises (JSONDecodeError "Expecting ',' delimiter")
            end
          else Raises (JSONDecodeError "Expecting ':' delimiter")
      | EmptyString => Raises (JSONDecodeError "Expecting ':' delimiter")
      end
  end.

(** [json.loads(s)], as [Json.loads]. *)
Definition loads (s : string) : outcome (jsonval F) :=
  if Text.startswith s Json.bom then Raises (JSONDecodeError "Unexpected UTF-8 BOM")
  else
    x ← scan_once (S (2 * String.length s)) (Json.skip_ws s);
    if bool_decide (Json.skip_ws x.2 = "") then Returns x.1
    else Raises (JSONDecodeError "Extra data").

End floats.

End JsonFloat.

(** An instance for the examples: the floats that are whole numbers, each
    known by its value and written as Python writes the ones below ten to
    the sixteenth, the integer followed by [.0]; [float] reads that text as
    the float again. *)
Definition whole_repr (z : Z) : string := Json.int_repr z ++ ".0".

Definition whole_parse (text : string) : pyfloat Z :=
  match Json.match_integer text with
  | Some (integer, _) => Finite (Json.parse_int integer)
  | None => NaN
  end.

Definition whole_dumps (obj : jsonval Z) (indent ensure_ascii : pyval)
    (kwargs : gmap string pyval) : outcome string :=
  Returns (JsonFloat.encode whole_repr 2 obj).

Definition sample_floats : jsonval Z :=
  JDict [("intent", JStr "greet");
         ("confidence", JFloat (Finite 1%Z));
         ("ranking", JList [JFloat (Finite (-20)%Z); JInt 3; JNone;
                            JDict [("ok", JBool true)]; JList []])].

(** ** [module_path_from_object]

    An object is known here by its class, and a class by the module that
    defines it ([__module__]) and by its name ([__name__]). *)

Record pyclass := { class_module : string; class_name : string }.
Record pyobject := { object_class : pyclass }.

Definition module_path_from_object (o : pyobject) : string :=
  class_module (object_class o) ++ "." ++ class_name (object_class o).

(** [s.rpartition(sep)] for a separator of one character: the text before
    the last separator, the separator, and the text after it; two empty
    texts and [s] when there is none. *)
Definition rpartition (s : string) (sep : ascii) : string * string * string :=
  let i := Text.rfind s (String sep "") in
  if (i <? 0)%Z then ("", "", s)
  else (Text.take (Z.to_nat i) s, String sep "", Text.drop (S (Z.to_nat i)) s).

(** ** [write_to_file] and [write_json_to_file] *)

(** The ways [open(path, "w")] fails on a path, by the name of the error
    number: no such file or directory, a component that is not a directory,
    a path that is a directory, and a component that may not be searched. *)
Inductive oserror := ENOENT | ENOTDIR | EISDIR | EACCES.

(** The outcome of a helper that writes. *)
Inductive write_result :=
  | Written
  | SerializerRaised (e : exn)
  | OpenFailed (errno : oserror).

(** The tree with a file of the given content at [p]: the directory that
    holds it must exist, and [p] must not be a directory; [open] follows a
    link, so a link to a directory is a directory here. *)
Fixpoint write_path (p : path) (content : string) (entries : fs) : oserror + fs :=
  match p with
  | [] => inl ENOENT
  | [name] =>
      match entries !! name with
      | Some (Dir _) => inl EISDIR
      | Some Link => inl EISDIR
      | _ => inr (<[name := File content]> entries)
      end
  | name :: rest =>
      match entries !! name with
      | Some (Dir sub) =>
          match write_path rest content sub with
          | inl e => inl e
          | inr sub' => inr (<[name := Dir sub']> entries)
          end
      | Some (File _) => inl ENOTDIR
      | Some Link => inl EACCES
      | None => inl ENOENT
      end
  end.

(** Modelled from the spec: [rasa.utils.io.write_text_file], which is not
    part of this file.  It opens the file for writing, which creates it or
    empties it, writes the whole text and closes the file; it fails, and
    writes nothing, when the path cannot be opened. *)
Definition write_text_file (content : string) (file_path : path) (st : fs)
  : fs * write_result :=
  match write_path file_path content st with
  | inr st' => (st', Written)
  | inl errno => (st, OpenFailed errno)
  end.

Section writing.
(** [py_str] is the built-in [str]; [json_dumps] is [json.dumps], as for
    [json_to_string]. *)
Variable py_str : pyval -> string.
Variable json_dumps : pyval -> pyval -> pyval -> gmap string pyval -> outcome string.

Definition write_to_file (filename : path) (text : pyval) (st : fs)
  : fs * write_result :=
  write_text_file (py_str text) filename st.

Definition write_json_to_file (filename : path) (obj : pyval)
    (kwargs : gmap string pyval) (st : fs) : fs * write_result :=
  match json_to_string json_dumps obj kwargs with
  | Returns text => write_to_file filename (VStr text) st
  | Raises e => (st, SerializerRaised e)
  end.

End writing.

(** An instance of [py_str] for the examples: [str] of a string is the
    string, which is all that the properties below ask of [py_str]; the
    other values are not given a text here. *)
Definition str_of_text (v : pyval) : string :=
  match v with
  | VStr s => s
  | _ => ""
  end.
(** * Properties *)

(** ** Facts about text *)

Module TextFacts.
Import Text.

Lemma sapp_cons c (a b : string) : String c a ++ b = String c (a ++ b).
Proof. reflexivity. Qed.

Lemma sapp_nil_l (b : string) : "" ++ b = b.
Proof. reflexivity. Qed.

Lemma startswith_app s p : startswith (p ++ s) p = true.
Proof.
  induction p as [|c p IH]; [done|].
  rewrite sapp_cons. cbn. by rewrite Ascii.eqb_refl.
Qed.

Lemma startswith_inv s p :
  startswith s p = true -> exists rest, s = p ++ rest.
Proof.
  revert s. induction p as [|c p IH]; intros s H.
  - by exists s.
  - destruct s as [|d s]; [done|]. cbn in H.
    destruct (Ascii.eqb c d) eqn:E; [|done].
    apply Ascii.eqb_eq in E as ->.
    destruct (IH _ H) as [rest ->]. by exists rest.
Qed.


Lemma startswith_iff s p :
  startswith s p = true <-> exists rest, s = p ++ rest.
Proof.
  split; [apply startswith_inv|].
  intros [rest ->]. apply startswith_app.
Qed.

Lemma sapp_assoc (a b c : string) : (a ++ b) ++ c = a ++ (b ++ c).
Proof. induction a as [|x a IH]; [done|]. rewrite !sapp_cons. by rewrite IH. Qed.

Lemma sapp_nil_r (a : string) : a ++ "" = a.
Proof. induction a as [|x a IH]; [done|]. rewrite sapp_cons. by rewrite IH. Qed.

Lemma slength_app (a b : string) :
  String.length (a ++ b) = String.length a + String.length b.
Proof. induction a as [|x a IH]; [done|]. rewrite sapp_cons. cbn. by rewrite IH. Qed.

Lemma startswith_same_length s v p :
  startswith (v ++ s) p = true -> String.length v = String.length p -> v = p.
Proof.
  revert v. induction p as [|c p IH]; intros [|d v] H Hlen; try done.
  rewrite sapp_cons in H. cbn in H, Hlen.
  destruct (Ascii.eqb c d) eqn:E; [|done].
  apply Ascii.eqb_eq in E as ->. f_equal. apply IH; [done|lia].
Qed.

Lemma lower_app a b : lower (a ++ b) = lower a ++ lower b.
Proof.
  induction a as [|x a IH]; [done|].
  rewrite sapp_cons. cbn. by rewrite IH.
Qed.

Lemma length_lower a : String.length (lower a) = String.length a.
Proof. induction a as [|x a IH]; [done|]. cbn. by rewrite IH. Qed.

Lemma startswith_lower s p :
  startswith s p = true -> startswith (lower s) (lower p) = true.
Proof.
  intros [rest ->]%startswith_inv. rewrite lower_app. apply startswith_app.
Qed.

End TextFacts.

Module ReFacts.
Import Text Re TextFacts.

Lemma match_at_Some r s m :
  match_at r s = Some m -> m ∈ literals r /\ startswith s m = true.
Proof.
  revert m. induction r as [p|r1 IH1 r2 IH2]; intros m; cbn.
  - destruct (startswith s p) eqn:E; [|done].
    intros [= <-]. split; [|done]; set_solver.
  - destruct (match_at r1 s) as [m1|] eqn:E1.
    + intros [= <-]. destruct (IH1 _ eq_refl).
      split; [|done]. apply elem_of_app. by left.
    + intros H. destruct (IH2 _ H).
      split; [|done]. apply elem_of_app. by right.
Qed.

Lemma match_at_None r s :
  match_at r s = None ->
  forall p, p ∈ literals r -> startswith s p = false.
Proof.
  induction r as [q|r1 IH1 r2 IH2]; cbn.
  - destruct (startswith s q) eqn:E; [done|].
    intros _ p Hp. apply list_elem_of_singleton in Hp. by subst.
  - destruct (match_at r1 s) eqn:E1; [done|].
    intros H2 p Hp. apply elem_of_app in Hp as [Hp|Hp]; eauto.
Qed.

End ReFacts.

(** ** [is_url] *)

Section is_url_facts.
Import Text Re TextFacts ReFacts.

Lemma url_prefixes_literals : literals URL_REGEX = url_prefixes.
Proof. reflexivity. Qed.

(** On a string, [is_url] returns, and returns whether a literal of the
    pattern starts the string. *)
Lemma is_url_Some text :
  is_url (Some text) = Returns (negb (bool_decide (match_at URL_REGEX text = None))).
Proof. reflexivity. Qed.

Lemma is_url_true text :
  is_url (Some text) = Returns true <->
  exists p rest, p ∈ url_prefixes /\ text = p ++ rest.
Proof.
  rewrite is_url_Some. split.
  - intros [= H]. apply negb_true_iff, bool_decide_eq_false in H.
    destruct (match_at URL_REGEX text) as [m|] eqn:E; [|done].
    apply match_at_Some in E as [Hm [rest ->]%startswith_inv].
    exists m, rest. by rewrite <- url_prefixes_literals.
  - intros (p & rest & Hp & ->). f_equal.
    apply negb_true_iff, bool_decide_eq_false. intros E.
    rewrite <- url_prefixes_literals in Hp.
    pose proof (match_at_None _ _ E p Hp) as H.
    by rewrite startswith_app in H.
Qed.

Lemma is_url_total text :
  is_url (Some text) = Returns true \/ is_url (Some text) = Returns false.
Proof. rewrite is_url_Some. destruct (negb _); auto. Qed.

(** The scheme prefixes are lower-case, and none starts a string that
    another one starts. *)
Lemma url_prefixes_inv p :
  p ∈ url_prefixes ->
  p = "http://" \/ p = "https://" \/ p = "ftp://" \/ p = "file://" \/
  p = "file:" ++ String backslash "".
Proof.
  intros H%list_elem_of_In. cbn in H.
  destruct H as [<-|[<-|[<-|[<-|[<-|[]]]]]]; auto 10.
Qed.

Lemma url_prefixes_lower p : p ∈ url_prefixes -> lower p = p.
Proof.
  intros [->|[->|[->|[->| ->]]]]%url_prefixes_inv; reflexivity.
Qed.

Lemma url_prefixes_prefix_free s p q :
  p ∈ url_prefixes -> q ∈ url_prefixes ->
  startswith s p = true -> startswith s q = true -> p = q.
Proof.
  intros Hp%url_prefixes_inv Hq%url_prefixes_inv [r ->]%startswith_inv.
  destruct Hp as [->|[->|[->|[->| ->]]]];
    destruct Hq as [->|[->|[->|[->| ->]]]];
    intros Hs; first [reflexivity | vm_compute in Hs; discriminate Hs].
Qed.

End is_url_facts.

Example is_url_https : is_url (Some "https://example.com") = Returns true.
Proof. reflexivity. Qed.

Example is_url_no_scheme : is_url (Some "example.com") = Returns false.
Proof. reflexivity. Qed.

Example is_url_upper : is_url (Some "HTTP://example.com") = Returns false.
Proof. reflexivity. Qed.

(** C6, as the code has it: for every string [text], [is_url] returns true
    exactly when [text] begins with one of the literal prefixes [http://],
    [https://], [ftp://], [file://] or [file:\ ]; the rest of the string is
    free.  It returns false for the empty string and for every string with no
    such prefix. *)
Theorem is_url_prefix_iff :
  (forall text : string,
     (is_url (Some text) = Returns true <->
      exists p rest, p ∈ url_prefixes /\ text = p ++ rest) /\
     (is_url (Some text) = Returns false <->
      ~ exists p rest, p ∈ url_prefixes /\ text = p ++ rest)) /\
  is_url (Some "") = Returns false.
Proof.
  split; [|reflexivity].
  intros text. split; [apply is_url_true|].
  rewrite <- is_url_true.
  destruct (is_url_total text) as [H|H]; rewrite H; split; try done;
    intros Hn; by destruct Hn.
Qed.

(** C6 fails for an absent argument: [Pattern.match] rejects [None] with a
    [TypeError], so [is_url] does not return false there. *)
Lemma is_url_absent_raises :
  is_url None = Raises (TypeError "expected string or bytes-like object") /\
  is_url None <> Returns false.
Proof. split; [reflexivity|discriminate]. Qed.

(** C10: the match is case-sensitive.  A string that begins with a variant
    [v] of a recognised prefix [p] which differs from [p] only by the case
    of its letters (its lower-casing is [p], and it is not [p] itself) is
    not a URL. *)
Theorem is_url_case_sensitive (p v rest : string) :
  p ∈ url_prefixes ->
  Text.lower v = p ->
  v <> p ->
  is_url (Some (v ++ rest)) = Returns false.
Proof.
  intros Hp Hlow Hne.
  destruct (is_url_total (v ++ rest)) as [H|H]; [|done].
  exfalso. apply is_url_true in H as (q & r & Hq & E).
  assert (Text.startswith (Text.lower (v ++ rest)) q = true) as Hq'.
  { rewrite E, TextFacts.lower_app, (url_prefixes_lower q Hq).
    apply TextFacts.startswith_app. }
  assert (Text.startswith (Text.lower (v ++ rest)) p = true) as Hp'.
  { rewrite TextFacts.lower_app, Hlow. apply TextFacts.startswith_app. }
  pose proof (url_prefixes_prefix_free _ _ _ Hp Hq Hp' Hq') as <-.
  apply Hne. apply (TextFacts.startswith_same_length rest).
  - rewrite E. apply TextFacts.startswith_app.
  - by rewrite <- Hlow, TextFacts.length_lower.
Qed.

Lemma is_url_case_sensitive_witness :
  is_url (Some ("File://" ++ "x")) = Returns false.
Proof.
  apply (is_url_case_sensitive "file://" "File://" "x").
  - unfold url_prefixes. rewrite !elem_of_cons. auto.
  - reflexivity.
  - discriminate.
Defined.

(** ** [list_to_str] *)

Section list_to_str_facts.
Import Text TextFacts.

Lemma last_char_app_cons a c b : last_char (a ++ String c b) = last_char (String c b).
Proof.
  induction a as [|x a IH]; [done|].
  rewrite sapp_cons. cbn -[last_char]. rewrite <- IH.
  cbn. destruct (a ++ String c b) eqn:E; [|done].
  destruct a; discriminate.
Qed.

(** An occurrence of [", "] straddles the seam of [x ++ y] when [x] ends
    with the comma and [y] starts with the space. *)
Definition straddles (x y : string) : Prop :=
  last_char x = Some ","%char /\ first_char y = Some " "%char.

Lemma startswith_delim s :
  startswith s default_delim = true <-> exists r, s = String "," (String " " r).
Proof.
  rewrite startswith_iff. unfold default_delim. split; intros [r ->]; by exists r.
Qed.

(** Counting is additive over a seam that no occurrence straddles. *)
Lemma count_from_app x y k :
  ~ straddles x y -> k <= String.length x ->
  count_from default_delim k (x ++ y)
  = count_from default_delim k x + count_from default_delim 0 y.
Proof.
  revert k. induction x as [|a x IH]; intros k Hs Hk.
  - cbn in Hk. by replace k with 0 by lia.
  - assert (~ straddles x y) as Hs'.
    { intros [H1 H2]. apply Hs. split; [|done].
      destruct x; [done|]. exact H1. }
    rewrite sapp_cons. destruct k as [|k].
    + cbn [count_from].
      destruct (startswith (String a (x ++ y)) default_delim) eqn:E.
      * apply startswith_delim in E as [r [= -> E]].
        destruct x as [|b x].
        { exfalso. apply Hs. split; [done|]. rewrite sapp_nil_l in E.
          by rewrite E. }
        rewrite sapp_cons in E. injection E as -> E.
        replace (startswith (String "," (String " " x)) default_delim)
          with true by reflexivity.
        cbn [String.length default_delim Nat.sub].
        rewrite IH; [lia|done|cbn; lia].
      * assert (startswith (String a x) default_delim = false) as ->.
        { destruct (startswith (String a x) default_delim) eqn:E'; [|done].
          apply startswith_delim in E' as [r [= -> ->]].
          rewrite sapp_cons in E. cbn in E. done. }
        apply IH; [done|lia].
    + cbn [count_from]. apply IH; [done|cbn in Hk; lia].
Qed.

Lemma count_app x y :
  ~ straddles x y ->
  count (x ++ y) default_delim = count x default_delim + count y default_delim.
Proof. intros H. apply count_from_app; [done|lia]. Qed.

Definition wrap (quote e : string) : string := quote ++ e ++ quote.

Lemma count_wrap e :
  count (wrap default_quote e) default_delim = count e default_delim.
Proof.
  unfold wrap. rewrite count_app by (by intros [? _]).
  rewrite count_app by (by intros [_ ?]).
  change (count default_quote default_delim) with 0. lia.
Qed.

Lemma last_char_wrap e : last_char (wrap default_quote e) = Some "'"%char.
Proof.
  unfold wrap, default_quote. rewrite <- sapp_assoc. by rewrite last_char_app_cons.
Qed.

Lemma list_to_str_cons e lst delim quote :
  lst <> [] ->
  list_to_str (e :: lst) delim quote
  = wrap quote e ++ delim ++ list_to_str lst delim quote.
Proof. destruct lst; [done|]. reflexivity. Qed.

(** The number of delimiters in the result: one between two items, and
    those that the items themselves hold. *)
Lemma count_list_to_str lst :
  lst <> [] ->
  count (list_to_str lst default_delim default_quote) default_delim
  = (length lst - 1) + sum_list (map (fun e => count e default_delim) lst).
Proof.
  induction lst as [|e lst IH]; [done|]. intros _.
  destruct (decide (lst = [])) as [->|Hne].
  - cbn [list_to_str map join]. fold (wrap default_quote e).
    rewrite count_wrap. cbn. unfold id. lia.
  - rewrite list_to_str_cons by done.
    rewrite count_app.
    2:{ intros [H _]. by rewrite last_char_wrap in H. }
    rewrite count_wrap, count_app.
    2:{ intros [_ H]. destruct lst as [|e' lst]; [done|].
        destruct lst; discriminate H. }
    rewrite IH by done. destruct lst; [done|].
    cbn [length map sum_list]. change (count default_delim default_delim) with 1.
    unfold id. lia.
Qed.

Lemma sum_list_map_zero {A} (f : A -> nat) (l : list A) :
  (forall a, a ∈ l -> f a = 0) -> sum_list (map f l) = 0.
Proof.
  induction l as [|a l IH]; intros H; [done|].
  cbn. rewrite (H a) by (apply elem_of_cons; auto).
  apply IH. intros b Hb. apply H, elem_of_cons. auto.
Qed.

Lemma list_to_str_wrapped lst delim quote i e :
  lst !! i = Some e ->
  exists pre post, list_to_str lst delim quote = pre ++ (quote ++ e ++ quote) ++ post.
Proof.
  revert i. induction lst as [|x lst IH]; intros i Hi; [done|].
  destruct (decide (lst = [])) as [->|Hne].
  - destruct i; [|done]. injection Hi as ->.
    exists "", "". cbn. by rewrite sapp_nil_r.
  - rewrite list_to_str_cons by done. destruct i as [|i].
    + injection Hi as ->. exists "", (delim ++ list_to_str lst delim quote).
      reflexivity.
    + destruct (IH i Hi) as (pre & post & ->).
      exists (wrap quote x ++ delim ++ pre), post.
      by rewrite !sapp_assoc.
Qed.

End list_to_str_facts.

Example list_to_str_two :
  list_to_str ["a"; "b"] default_delim default_quote = "'a', 'b'".
Proof. reflexivity. Qed.

(** C5 fails when an item itself holds the delimiter: the one-item list
    below gives a text with one delimiter, not zero. *)
Lemma list_to_str_delim_inside :
  Text.count (list_to_str ["a, b"] default_delim default_quote) default_delim
  <> length ["a, b"] - 1.
Proof. vm_compute. discriminate. Qed.

(** C5, amended: for every non-empty list of strings none of which holds the
    delimiter, the result with the default delimiter and quote holds exactly
    [length lst - 1] delimiters, and every item occurs in it between two
    quotes; the result for the empty list is the empty string. *)
Theorem list_to_str_default_spec :
  (forall lst : list string,
     lst <> [] ->
     (forall e, e ∈ lst -> Text.count e default_delim = 0) ->
     Text.count (list_to_str lst default_delim default_quote) default_delim
       = length lst - 1 /\
     forall i e, lst !! i = Some e ->
       exists pre post,
         list_to_str lst default_delim default_quote
         = pre ++ (default_quote ++ e ++ default_quote) ++ post) /\
  list_to_str [] default_delim default_quote = "".
Proof.
  split; [|reflexivity].
  intros lst Hne Hfree. split.
  - rewrite count_list_to_str by done.
    rewrite sum_list_map_zero by done. lia.
  - intros i e. apply list_to_str_wrapped.
Qed.

Lemma list_to_str_default_spec_witness :
  Text.count (list_to_str ["a"; "b"; "c"] default_delim default_quote) default_delim = 2.
Proof.
  apply (proj1 list_to_str_default_spec ["a"; "b"; "c"]).
  - discriminate.
  - intros e He. apply list_elem_of_In in He. cbn in He.
    destruct He as [<-|[<-|[<-|[]]]]; reflexivity.
Defined.

(** ** [build_entity] *)

Section build_entity_facts.
Implicit Types (start stop : Z) (value entity_type : string).
Implicit Types (role group : option string) (kwargs : gmap string pyval).

Lemma truthy_Some role : truthy role = true <-> exists s, role = Some s /\ s <> "".
Proof.
  destruct role as [s|]; cbn.
  - rewrite negb_true_iff, bool_decide_eq_false.
    split; [intros H; by exists s|by intros (? & [= <-] & ?)].
  - split; [done|by intros (? & [=] & _)].
Qed.

(** What the record holds before the extra fields are merged. *)
Lemma build_entity_no_extra_role start stop value entity_type role group :
  build_entity start stop value entity_type role group ∅ !! ENTITY_ATTRIBUTE_ROLE
  = if truthy role then VStr <$> role else None.
Proof.
  unfold build_entity. rewrite (left_id_L ∅ (∪)).
  destruct role as [r|], group as [g|]; cbn [truthy];
    repeat case_match; by simplify_map_eq.
Qed.

Lemma build_entity_no_extra_group start stop value entity_type role group :
  build_entity start stop value entity_type role group ∅ !! ENTITY_ATTRIBUTE_GROUP
  = if truthy group then VStr <$> group else None.
Proof.
  unfold build_entity. rewrite (left_id_L ∅ (∪)).
  destruct role as [r|], group as [g|]; cbn [truthy];
    repeat case_match; by simplify_map_eq.
Qed.

Lemma build_entity_union start stop value entity_type role group kwargs :
  build_entity start stop value entity_type role group kwargs
  = kwargs ∪ build_entity start stop value entity_type role group ∅.
Proof. unfold build_entity. by rewrite (left_id_L ∅ (∪)). Qed.

End build_entity_facts.

Example build_entity_berlin :
  build_entity 0 5 "Berlin" "city" None None ∅
  = <["type" := VStr "city"]>
      (<["value" := VStr "Berlin"]> (<["end" := VInt 5]> (<["start" := VInt 0]> ∅))).
Proof. reflexivity. Qed.

Example build_entity_berlin_role :
  build_entity 0 5 "Berlin" "city" (Some "location") None ∅ !! "role"
  = Some (VStr "location").
Proof. reflexivity. Qed.

Example build_entity_empty_role :
  build_entity 0 5 "Berlin" "city" (Some "") None ∅ !! "role" = None.
Proof. reflexivity. Qed.

(** C7: the extra fields are merged last, so every extra field is in the
    result with the caller's value, whatever standard key it collides with;
    and when the extra fields hold no [role] (no [group]), the result has the
    key [role] ([group]) exactly when the argument is given and is not the
    empty string, and then with the argument as its value. *)
Theorem build_entity_spec (start end_ : Z) (value entity_type : string)
    (role group : option string) (kwargs : gmap string pyval) :
  let entity := build_entity start end_ value entity_type role group kwargs in
  (forall k v, kwargs !! k = Some v -> entity !! k = Some v) /\
  (kwargs !! ENTITY_ATTRIBUTE_ROLE = None ->
     (is_Some (entity !! ENTITY_ATTRIBUTE_ROLE) <->
      exists s, role = Some s /\ s <> "") /\
     (forall s, role = Some s -> s <> "" ->
        entity !! ENTITY_ATTRIBUTE_ROLE = Some (VStr s))) /\
  (kwargs !! ENTITY_ATTRIBUTE_GROUP = None ->
     (is_Some (entity !! ENTITY_ATTRIBUTE_GROUP) <->
      exists s, group = Some s /\ s <> "") /\
     (forall s, group = Some s -> s <> "" ->
        entity !! ENTITY_ATTRIBUTE_GROUP = Some (VStr s))).
Proof.
  intros entity. subst entity. rewrite build_entity_union. split; [|split].
  - intros k v Hk. by apply lookup_union_Some_l.
  - intros Hk. rewrite lookup_union_r by done.
    rewrite build_entity_no_extra_role, <- truthy_Some. split.
    + destruct (truthy role) eqn:E; [|by split; [intros []|]].
      apply truthy_Some in E as (s & -> & ?). by split; [|eexists].
    + intros s -> Hs. assert (truthy (Some s) = true) as ->; [|done].
      apply truthy_Some. eauto.
  - intros Hk. rewrite lookup_union_r by done.
    rewrite build_entity_no_extra_group, <- truthy_Some. split.
    + destruct (truthy group) eqn:E; [|by split; [intros []|]].
      apply truthy_Some in E as (s & -> & ?). by split; [|eexists].
    + intros s -> Hs. assert (truthy (Some s) = true) as ->; [|done].
      apply truthy_Some. eauto.
Qed.

Lemma build_entity_spec_witness :
  build_entity 0 5 "Berlin" "city" (Some "location") (Some "")
    {["type" := VStr "place"]} !! "type" = Some (VStr "place") /\
  build_entity 0 5 "Berlin" "city" (Some "location") (Some "")
    {["type" := VStr "place"]} !! "role" = Some (VStr "location") /\
  ~ is_Some (build_entity 0 5 "Berlin" "city" (Some "location") (Some "")
    {["type" := VStr "place"]} !! "group").
Proof.
  pose proof (build_entity_spec 0 5 "Berlin" "city" (Some "location") (Some "")
                {["type" := VStr "place"]}) as (Hextra & Hrole & Hgroup).
  split; [|split].
  - apply Hextra. reflexivity.
  - apply Hrole; [reflexivity|reflexivity|discriminate].
  - intros H. apply Hgroup in H as (s & [= <-] & Hs); [by apply Hs|reflexivity].
Defined.

(** ** The file system *)

Section fs_facts.
Local Open Scope list_scope.
Implicit Types (st entries sub : gmap string node) (p q d : list string).
Implicit Types (n : node) (name : string).

Lemma lookup_path_cons name rest st :
  rest <> [] ->
  lookup_path st (name :: rest)
  = match st !! name with
    | Some (Dir sub) => lookup_path sub rest
    | _ => None
    end.
Proof. by destruct rest. Qed.

Lemma lookup_path_singleton name st : lookup_path st [name] = st !! name.
Proof. reflexivity. Qed.

Lemma remove_path_cons name rest st :
  rest <> [] ->
  remove_path (name :: rest) st
  = alter (fun n => match n with
                    | Dir sub => Dir (remove_path rest sub)
                    | File c => File c
                    | Link => Link
                    end) name st.
Proof. by destruct rest. Qed.

(** After the removal nothing is left at [d] or below it. *)
Lemma lookup_remove_path_below d q st :
  d <> [] -> lookup_path (remove_path d st) (d ++ q) = None.
Proof.
  revert st. induction d as [|name rest IH]; intros st Hd; [done|].
  destruct (decide (rest = [])) as [->|Hrest].
  - cbn [remove_path app]. destruct q as [|x q].
    + cbn. apply lookup_delete_eq.
    + rewrite lookup_path_cons by done. by rewrite lookup_delete_eq.
  - rewrite remove_path_cons by done.
    change ((name :: rest) ++ q) with (name :: (rest ++ q)).
    rewrite lookup_path_cons by (by destruct rest).
    rewrite lookup_alter_eq.
    destruct (st !! name) as [[c|sub|]|]; cbn; [done| |done|done].
    by apply IH.
Qed.


(** *** The walk *)

Lemma walk_node_Dir top entries :
  exists rest,
    walk_node top (Dir entries)
    = (top, dirnames (listing entries), filenames (listing entries)) :: rest /\
    (rest = [] <-> map_Forall (fun _ n => walked n = false) entries).
Proof.
  cbn [walk_node]. eexists. split; [reflexivity|].
  apply (map_fold_weak_ind (fun acc m =>
           acc = [] <-> map_Forall (fun _ n => walked n = false) m)).
  - split; [intros _; apply map_Forall_empty|done].
  - intros name child m r Hfresh IHr.
    rewrite map_Forall_insert by done. destruct child as [c|sub|].
    + rewrite IHr. cbn. tauto.
    + cbn. split; [|by intros [? _]].
      intros H. discriminate H.
    + rewrite IHr. cbn. tauto.
Qed.

Lemma elem_of_filenames name entries :
  name ∈ filenames (listing entries) <-> exists c, entries !! name = Some (File c).
Proof.
  unfold filenames, listing. rewrite list_elem_of_fmap. split.
  - intros ([x b] & -> & H). apply list_elem_of_filter in H as [Hb H].
    apply list_elem_of_fmap in H as ([k n] & [= -> ->] & H).
    apply elem_of_map_to_list in H. cbn in Hb. destruct n; [eauto|done|done].
  - intros [c H]. exists (name, false). split; [done|].
    apply list_elem_of_filter. split; [done|].
    apply list_elem_of_fmap. exists (name, File c). split; [done|].
    by apply elem_of_map_to_list.
Qed.

Lemma os_walk_missing st p : lookup_path st p = None -> os_walk st p = [].
Proof. unfold os_walk, scandir. by intros ->. Qed.

Lemma os_walk_file st p c : lookup_path st p = Some (File c) -> os_walk st p = [].
Proof. unfold os_walk, scandir. by intros ->. Qed.

Lemma os_walk_link st p : lookup_path st p = Some Link -> os_walk st p = [].
Proof. unfold os_walk, scandir. by intros ->. Qed.

Lemma os_walk_dir st p entries :
  lookup_path st p = Some (Dir entries) -> os_walk st p = walk_node p (Dir entries).
Proof. unfold os_walk, scandir. by intros ->. Qed.

(** *** [is_model_dir] *)

Definition valid_files (entries : gmap string node) : Prop :=
  forall name c, entries !! name = Some (File c) ->
    (OsPath.splitext name).2 ∈ allowed_extensions.

Lemma is_model_dir_dir st d entries :
  lookup_path st d = Some (Dir entries) ->
  exists b, is_model_dir st d = Returns b /\
    (b = true <->
     map_Forall (fun _ n => walked n = false) entries /\ valid_files entries).
Proof.
  intros Hd. unfold is_model_dir. rewrite (os_walk_dir _ _ _ Hd).
  destruct (walk_node_Dir d entries) as (rest & -> & Hrest).
  destruct rest as [|t rest].
  - cbn [length Nat.eqb negb]. eexists. split; [reflexivity|].
    rewrite forallb_forall. split.
    + intros H. split; [by apply Hrest|].
      intros name c Hname.
      assert (In ((OsPath.splitext name).2)
                ((fun f => (OsPath.splitext f).2) <$> filenames (listing entries))) as Hin.
      { apply list_elem_of_In, list_elem_of_fmap. exists name. split; [done|].
        apply elem_of_filenames. eauto. }
      apply H in Hin. by apply bool_decide_eq_true in Hin.
    + intros [_ Hv] ext Hext. apply bool_decide_eq_true.
      apply list_elem_of_In, list_elem_of_fmap in Hext as (name & -> & Hname).
      apply elem_of_filenames in Hname as [c Hc]. by apply (Hv name c).
  - exists false. split; [reflexivity|]. split; [done|].
    intros [H _]. by apply Hrest in H.
Qed.

Lemma is_model_dir_not_dir st d :
  (forall entries, lookup_path st d <> Some (Dir entries)) ->
  is_model_dir st d = Returns false.
Proof.
  intros H. unfold is_model_dir.
  destruct (lookup_path st d) as [[c|entries|]|] eqn:E.
  - by rewrite (os_walk_file _ _ _ E).
  - by destruct (H entries).
  - by rewrite (os_walk_link _ _ E).
  - by rewrite (os_walk_missing _ _ E).
Qed.


Lemma is_model_dir_true_dir st d :
  is_model_dir st d = Returns true -> exists entries, lookup_path st d = Some (Dir entries).
Proof.
  intros H. destruct (lookup_path st d) as [[c|entries|]|] eqn:E; [|eauto| |].
  - rewrite is_model_dir_not_dir in H; [done|]. intros ?. by rewrite E.
  - rewrite is_model_dir_not_dir in H; [done|]. intros ?. by rewrite E.
  - rewrite is_model_dir_not_dir in H; [done|]. intros ?. by rewrite E.
Qed.


End fs_facts.

Example splitext_json : OsPath.splitext "a.json" = ("a", ".json").
Proof. reflexivity. Qed.

Example splitext_two_dots : OsPath.splitext "a.tar.dat" = ("a.tar", ".dat").
Proof. reflexivity. Qed.

Example splitext_none : OsPath.splitext "README" = ("README", "").
Proof. reflexivity. Qed.

Example splitext_hidden : OsPath.splitext ".json" = (".json", "").
Proof. reflexivity. Qed.

Example is_model_dir_model : is_model_dir sample_fs ["model"] = Returns true.
Proof. vm_compute. reflexivity. Qed.

Example is_model_dir_nested : is_model_dir sample_fs ["nested"] = Returns false.
Proof. vm_compute. reflexivity. Qed.

Example is_model_dir_text : is_model_dir sample_fs ["text"] = Returns false.
Proof. vm_compute. reflexivity. Qed.

Example is_model_dir_empty : is_model_dir sample_fs ["empty"] = Returns true.
Proof. vm_compute. reflexivity. Qed.

Example is_model_dir_upper_case :
  is_model_dir {[ "m" := Dir {[ "a.JSON" := File "" ]} ]} ["m"] = Returns false.
Proof. vm_compute. reflexivity. Qed.

Example is_model_dir_no_extension :
  is_model_dir {[ "m" := Dir {[ "README" := File "" ]} ]} ["m"] = Returns false.
Proof. vm_compute. reflexivity. Qed.

Example is_model_dir_plain_file : is_model_dir sample_fs ["notes.json"] = Returns false.
Proof. vm_compute. reflexivity. Qed.

Example os_walk_nested :
  os_walk sample_fs ["nested"]
  = [(["nested"], ["c"], ["a.json"; "b.pkl"]); (["nested"; "c"], [], [])].
Proof. vm_compute. reflexivity. Qed.

(** C2 fails: for a path that names nothing, [scandir] raises
    [FileNotFoundError], but [os.walk] swallows it and yields nothing, and
    [is_model_dir] returns false. *)
Lemma is_model_dir_missing_returns :
  lookup_path sample_fs ["missing"] = None /\
  scandir sample_fs ["missing"] = Raises (FileNotFoundError "missing") /\
  is_model_dir sample_fs ["missing"] = Returns false /\
  ~ exists e, is_model_dir sample_fs ["missing"] = Raises e.
Proof.
  split; [reflexivity|]. split; [reflexivity|]. split; [reflexivity|].
  intros [e H]. discriminate H.
Qed.

(** C2, amended: for every path that does not exist, [is_model_dir] returns
    false; the failure of the directory listing does not reach the caller. *)
Theorem is_model_dir_missing (st : gmap string node) (p : list string) :
  lookup_path st p = None ->
  (exists e, scandir st p = Raises e) /\ is_model_dir st p = Returns false.
Proof.
  intros H. split.
  - unfold scandir. rewrite H. eauto.
  - apply is_model_dir_not_dir. intros entries. by rewrite H.
Qed.

Lemma is_model_dir_missing_witness :
  is_model_dir sample_fs ["model"; "missing"] = Returns false.
Proof. apply (is_model_dir_missing sample_fs ["model"; "missing"]). reflexivity. Defined.

Section remove_model_facts.
Local Open Scope list_scope.


Lemma remove_model_false d st :
  is_model_dir st d = Returns false ->
  remove_model d st = (st, Raises (ValueError (remove_model_message d))).
Proof. unfold remove_model. by intros ->. Qed.

Lemma remove_model_true d st :
  is_model_dir st d = Returns true ->
  remove_model d st = (remove_path d st, Returns true).
Proof.
  intros H. unfold remove_model. rewrite H.
  apply is_model_dir_true_dir in H as [entries H].
  unfold rmtree. by rewrite H.
Qed.

End remove_model_facts.

Example remove_model_text :
  remove_model ["text"] sample_fs
  = (sample_fs,
     Raises (ValueError "Cannot remove text, it seems it is not a model directory")).
Proof. vm_compute. reflexivity. Qed.

Example remove_model_model :
  remove_model ["model"] sample_fs = (delete "model" sample_fs, Returns true).
Proof. vm_compute. reflexivity. Qed.



(** ** Splitting and joining *)

Module SplitFacts.
Import Text TextFacts.

Lemma split_not_nil c s : split c s <> [].
Proof.
  destruct s as [|x s]; [done|]. cbn.
  destruct (Ascii.eqb x c); [done|]. by destruct (split c s).
Qed.

Lemma split_sep_cons c s : split c (String c s) = "" :: split c s.
Proof. cbn. by rewrite Ascii.eqb_refl. Qed.

Lemma split_other_cons c x s :
  x <> c -> split c (String x s) = match split c s with
                                    | h :: t => String x h :: t
                                    | [] => [String x ""]
                                    end.
Proof. intros H. cbn. apply Ascii.eqb_neq in H. by rewrite H. Qed.

Lemma contains_cons c x s : contains c (String x s) = Ascii.eqb x c || contains c s.
Proof. reflexivity. Qed.

(** No piece of a split holds the separator. *)
Lemma split_no_sep c s : Forall (fun x => contains c x = false) (split c s).
Proof.
  induction s as [|x s IH]; [by repeat constructor|].
  cbn [split]. destruct (Ascii.eqb x c) eqn:E.
  - by constructor.
  - destruct (split c s) as [|h t]; [by repeat constructor; cbn; rewrite E|].
    inversion IH; subst. constructor; [|done].
    rewrite contains_cons, E. done.
Qed.

(** A text without the separator is one piece, and a separator after it
    starts the next piece. *)
Lemma split_no_sep_app c x rest :
  contains c x = false -> split c (x ++ String c rest) = x :: split c rest.
Proof.
  induction x as [|a x IH]; intros H.
  - rewrite sapp_nil_l. apply split_sep_cons.
  - rewrite contains_cons in H. apply orb_false_iff in H as [Ha Hx].
    rewrite sapp_cons. cbn [split]. rewrite Ha. by rewrite IH.
Qed.

Lemma split_no_sep_id c x : contains c x = false -> split c x = [x].
Proof.
  induction x as [|a x IH]; intros H; [done|].
  rewrite contains_cons in H. apply orb_false_iff in H as [Ha Hx].
  cbn [split]. rewrite Ha. by rewrite IH.
Qed.

Lemma join_cons sep x y l : join sep (x :: y :: l) = x ++ sep ++ join sep (y :: l).
Proof. reflexivity. Qed.

(** Splitting undoes joining when no item holds the separator. *)
Lemma split_join c l :
  l <> [] -> Forall (fun x => contains c x = false) l ->
  split c (join (String c "") l) = l.
Proof.
  induction l as [|x l IH]; [done|]. intros _ Hl.
  inversion Hl as [|? ? Hx Hl']; subst.
  destruct l as [|y l].
  - by apply split_no_sep_id.
  - rewrite join_cons. rewrite sapp_cons, sapp_nil_l.
    rewrite split_no_sep_app by done. by rewrite IH.
Qed.

Lemma last_char_app (a b : string) : b <> "" -> last_char (a ++ b) = last_char b.
Proof.
  intros Hb. induction a as [|x a IH]; [done|].
  rewrite sapp_cons. cbn [last_char]. rewrite <- IH.
  destruct (a ++ b) eqn:E; [|done].
  destruct a; [by rewrite sapp_nil_l in E|by rewrite sapp_cons in E].
Qed.

Lemma last_char_contains c x : contains c x = false -> last_char x <> Some c.
Proof.
  induction x as [|a x IH]; [done|].
  rewrite contains_cons. intros [Ha Hx]%orb_false_iff.
  cbn [last_char]. destruct x as [|b x].
  - intros [= ->]. by rewrite Ascii.eqb_refl in Ha.
  - by apply IH.
Qed.

Lemma last_char_join c l :
  l <> [] -> Forall (fun x => x <> "" /\ contains c x = false) l ->
  last_char (join (String c "") l) <> Some c.
Proof.
  induction l as [|x l IH]; [done|]. intros _ Hl.
  inversion Hl as [|? ? [Hx1 Hx2] Hl']; subst.
  destruct l as [|y l].
  - by apply last_char_contains.
  - rewrite join_cons, <- sapp_assoc. rewrite last_char_app.
    + by apply IH.
    + inversion Hl' as [|? ? [Hy _] _]; subst. destruct l as [|z l].
      * done.
      * rewrite join_cons. destruct y; [done|]. by rewrite sapp_cons.
Qed.

Lemma startswith_contains c x s :
  contains c x = false -> x <> "" -> startswith (x ++ s) (String c "") = false.
Proof.
  destruct x as [|a x]; [done|]. rewrite contains_cons.
  intros [Ha _]%orb_false_iff _. rewrite sapp_cons. cbn.
  rewrite Ascii.eqb_sym in Ha. by rewrite Ha.
Qed.

End SplitFacts.

(** ** [os.path.normpath], [abspath] and [relpath] *)

(** A plain component: not empty, not [.] or [..], and without a slash. *)
Definition plain (x : string) : Prop :=
  x <> "" /\ x <> "." /\ x <> ".." /\ Text.contains "/" x = false.

(** Walking the segments of a relative path from the components of a
    base: [..] leaves the last component, any other segment enters it. *)
Definition resolve (base rel : list string) : list string :=
  fold_left (fun acc c => if bool_decide (c = "..") then removelast acc
                          else (acc ++ [c])%list) rel base.

Module PathFacts.
Import TextFacts SplitFacts.
Local Open Scope list_scope.

Lemma Forall_removelast {A} (P : A -> Prop) (l : list A) :
  Forall P l -> Forall P (removelast l).
Proof.
  induction l as [|x l IH]; [done|]. intros H. inversion H; subst.
  cbn. destruct l; [constructor|]. constructor; [done|by apply IH].
Qed.

Lemma normpath_step_plain k acc comp :
  k <> 0 -> Forall plain acc -> Text.contains "/" comp = false ->
  Forall plain (OsPath.normpath_step k acc comp).
Proof.
  intros Hk Hacc Hcomp. unfold OsPath.normpath_step.
  destruct (bool_decide (comp = "")) eqn:E1; [done|].
  destruct (bool_decide (comp = ".")) eqn:E2; [done|].
  apply bool_decide_eq_false in E1, E2. cbn [orb].
  destruct (bool_decide (comp = OsPath.pardir)) eqn:E3; cbn [negb orb].
  - assert (Nat.eqb k 0 = false) as -> by (by apply Nat.eqb_neq). cbn [andb orb].
    destruct (bool_decide (acc = [])) eqn:E4; cbn [negb andb]; [done|].
    destruct (bool_decide (last acc = Some OsPath.pardir)) eqn:E5.
    + apply bool_decide_eq_true in E5. apply last_Some_elem_of in E5.
      rewrite Forall_forall in Hacc. apply Hacc in E5.
      by destruct E5 as (_ & _ & ? & _).
    + by apply Forall_removelast.
  - apply bool_decide_eq_false in E3.
    apply Forall_app. split; [done|]. by repeat constructor.
Qed.

Lemma normpath_fold_plain k comps acc :
  k <> 0 -> Forall plain acc -> Forall (fun x => Text.contains "/" x = false) comps ->
  Forall plain (fold_left (OsPath.normpath_step k) comps acc).
Proof.
  intros Hk. revert acc. induction comps as [|c comps IH]; intros acc Hacc Hc; [done|].
  inversion Hc; subst. cbn. apply IH; [|done]. by apply normpath_step_plain.
Qed.

Lemma components_slash t : OsPath.components (String "/" t) = OsPath.components t.
Proof. unfold OsPath.components. by rewrite split_sep_cons. Qed.

Lemma components_join cs :
  Forall plain cs -> OsPath.components (Text.join OsPath.sep cs) = cs.
Proof.
  intros H. unfold OsPath.components. destruct (decide (cs = [])) as [->|Hne]; [done|].
  unfold OsPath.sep. rewrite split_join; [|done|].
  - induction H as [|x l Hx _ IH]; [done|].
    rewrite filter_cons_True by apply Hx. f_equal.
    destruct l; [done|]. by apply IH.
  - eapply Forall_impl; [exact H|]. by intros x (_ & _ & _ & ?).
Qed.

Lemma initial_slashes_abs q :
  OsPath.isabs q = true -> OsPath.initial_slashes q = 1 \/ OsPath.initial_slashes q = 2.
Proof.
  unfold OsPath.isabs, OsPath.initial_slashes. intros ->.
  destruct (_ && _); auto.
Qed.

(** The OsPath.components of a normalised absolute path are plain. *)
Lemma components_normpath_abs q :
  OsPath.isabs q = true ->
  exists cs, OsPath.components (OsPath.normpath q) = cs /\ Forall plain cs.
Proof.
  intros Habs. unfold OsPath.normpath.
  assert (q <> "") as Hq by (by intros ->).
  rewrite bool_decide_eq_false_2 by done.
  set (cs := fold_left _ _ _).
  assert (Forall plain cs) as Hcs.
  { apply normpath_fold_plain; [|done|apply split_no_sep].
    destruct (initial_slashes_abs q Habs) as [-> | ->]; done. }
  exists cs. split; [|done].
  destruct (initial_slashes_abs q Habs) as [-> | ->]; cbn [Text.replicate];
    rewrite ?sapp_cons, ?sapp_nil_l;
    (rewrite bool_decide_eq_false_2 by done);
    rewrite ?components_slash; by apply components_join.
Qed.

Lemma isabs_join cwd p :
  OsPath.isabs cwd = true -> OsPath.isabs (if OsPath.isabs p then p else OsPath.join cwd [p]) = true.
Proof.
  intros Hcwd. destruct (OsPath.isabs p) eqn:Hp; [done|].
  change (OsPath.join cwd [p]) with (OsPath.join_step cwd p).
  unfold OsPath.join_step, OsPath.isabs in *. rewrite Hp.
  apply startswith_inv in Hcwd as [r ->].
  destruct (_ || _); rewrite !sapp_assoc; apply startswith_app.
Qed.

Lemma components_abspath cwd p :
  OsPath.isabs cwd = true -> Forall plain (OsPath.components (OsPath.abspath cwd p)).
Proof.
  intros H. destruct (components_normpath_abs _ (isabs_join cwd p H)) as (cs & E & Hcs).
  unfold OsPath.abspath. by rewrite E.
Qed.

(** *** The common prefix *)

Lemma commonprefix_take l1 l2 :
  OsPath.commonprefix l1 l2 = take (length (OsPath.commonprefix l1 l2)) l1 /\
  OsPath.commonprefix l1 l2 = take (length (OsPath.commonprefix l1 l2)) l2.
Proof.
  revert l2. induction l1 as [|x l1 IH]; intros [|y l2]; try done.
  cbn [OsPath.commonprefix]. case_bool_decide as E; [|done]. subst y.
  destruct (IH l2) as [H1 H2]. cbn [length take]. split; by f_equal.
Qed.

Lemma commonprefix_length_le l1 l2 :
  length (OsPath.commonprefix l1 l2) <= length l1.
Proof.
  revert l2. induction l1 as [|x l1 IH]; intros [|y l2]; cbn; try lia.
  case_bool_decide; cbn; [|lia]. specialize (IH l2). lia.
Qed.

(** *** Walking relative segments *)

Lemma resolve_plain base rel :
  Forall plain rel -> resolve base rel = base ++ rel.
Proof.
  revert base. induction rel as [|c rel IH]; intros base H.
  - by rewrite app_nil_r.
  - inversion H as [|? ? (_ & _ & Hc & _) Hrel]; subst. unfold resolve. cbn [fold_left].
    rewrite bool_decide_eq_false_2 by done.
    fold (resolve (base ++ [c]) rel). rewrite IH by done.
    by rewrite <- app_assoc.
Qed.

Lemma removelast_take {A} (l : list A) n :
  n < length l -> removelast (take (S n) l) = take n l.
Proof.
  revert n. induction l as [|x l IH]; intros n Hn; [cbn in Hn; lia|].
  destruct n as [|n].
  - by destruct l.
  - cbn in Hn. change (take (S (S n)) (x :: l)) with (x :: take (S n) l).
    cbn [removelast]. destruct l as [|y l]; [cbn in Hn; lia|].
    change (take (S n) (y :: l)) with (y :: take n l) at 1.
    cbn [take]. f_equal. rewrite <- IH by lia. reflexivity.
Qed.

Lemma resolve_pardirs base k rel :
  k <= length base ->
  resolve base (repeat OsPath.pardir k ++ rel) = resolve (take (length base - k) base) rel.
Proof.
  revert base. induction k as [|k IH]; intros base Hk.
  - by rewrite Nat.sub_0_r, firstn_all.
  - cbn [repeat app]. unfold resolve. cbn [fold_left].
    rewrite bool_decide_eq_true_2 by done.
    fold (resolve (removelast base) (repeat OsPath.pardir k ++ rel)).
    assert (removelast base = take (length base - 1) base) as Hrl.
    { rewrite <- (removelast_take base (length base - 1)) by lia.
      replace (S (length base - 1)) with (length base) by lia.
      by rewrite firstn_all. }
    rewrite IH.
    + rewrite Hrl. rewrite length_take, take_take. unfold resolve.
      f_equal. f_equal. lia.
    + rewrite Hrl, length_take. lia.
Qed.

End PathFacts.

(** ** [relative_normpath] *)

(** A segment of a relative path: a plain component or [..]. *)
Definition segment (x : string) : Prop :=
  x <> "" /\ x <> "." /\ Text.contains "/" x = false.

Module RelpathFacts.
Import TextFacts SplitFacts PathFacts.
Local Open Scope list_scope.

Lemma plain_segment x : plain x -> segment x.
Proof. intros (? & ? & _ & ?). by repeat split. Qed.

Lemma pardir_segment : segment OsPath.pardir.
Proof. by repeat split. Qed.

Lemma segment_not_abs x : segment x -> Text.startswith x OsPath.sep = false.
Proof.
  intros (Hx & _ & Hc). rewrite <- (sapp_nil_r x).
  by apply startswith_contains.
Qed.

(** What [join] appends to its first argument. *)
Fixpoint joined_tail (l : list string) : string :=
  match l with
  | [] => ""
  | x :: l' => ("/" ++ x ++ joined_tail l')%string
  end.

Lemma text_join_tail a l : Text.join "/" (a :: l) = (a ++ joined_tail l)%string.
Proof.
  revert a. induction l as [|x l IH]; intros a.
  - cbn. by rewrite sapp_nil_r.
  - rewrite join_cons, IH. reflexivity.
Qed.

Lemma join_fold acc l :
  acc <> "" -> Text.last_char acc <> Some "/"%char -> Forall segment l ->
  fold_left OsPath.join_step l acc = (acc ++ joined_tail l)%string.
Proof.
  revert acc. induction l as [|x l IH]; intros acc Hne Hlast Hl.
  - cbn. by rewrite sapp_nil_r.
  - inversion Hl as [|? ? Hx Hl']; subst. cbn [fold_left joined_tail].
    assert (OsPath.join_step acc x = (acc ++ "/" ++ x)%string) as ->.
    { unfold OsPath.join_step. rewrite (segment_not_abs x Hx).
      by rewrite !bool_decide_eq_false_2. }
    destruct Hx as (Hx1 & _ & Hx2).
    rewrite IH; [by rewrite !sapp_assoc| |  |done].
    + destruct acc; [done|]. by rewrite sapp_cons.
    + rewrite <- sapp_assoc, last_char_app by done.
      by apply last_char_contains.
Qed.

Lemma join_segments a l :
  segment a -> Forall segment l -> OsPath.join a l = Text.join "/" (a :: l).
Proof.
  intros (Ha1 & _ & Ha2) Hl. unfold OsPath.join.
  rewrite join_fold, text_join_tail; [done|done| |done].
  by apply last_char_contains.
Qed.

Lemma Path_join rel :
  rel <> [] -> Forall segment rel ->
  Path (Text.join "/" rel) = {| root := ""; parts := rel |}.
Proof.
  intros Hne Hrel. unfold Path, splitroot.
  assert (Text.startswith (Text.join "/" rel) "/" = false) as ->.
  { destruct rel as [|x rel]; [done|]. inversion Hrel as [|? ? Hx _]; subst.
    rewrite text_join_tail. destruct Hx as (? & _ & ?).
    by apply startswith_contains. }
  f_equal. rewrite split_join; [|done|].
  - clear Hne. induction Hrel as [|x l Hx _ IH]; [done|].
    rewrite filter_cons_True; [by f_equal|]. by destruct Hx as (? & ? & _).
  - eapply Forall_impl; [exact Hrel|]. by intros x (_ & _ & ?).
Qed.

Lemma relpath_segments cwd f base :
  OsPath.isabs cwd = true -> f <> "" ->
  let start_list := OsPath.components (OsPath.abspath cwd base) in
  let path_list := OsPath.components (OsPath.abspath cwd f) in
  let i := length (OsPath.commonprefix start_list path_list) in
  relative_normpath cwd (Some f) base
  = Returns (Some {| root := "";
                     parts := repeat OsPath.pardir (length start_list - i)
                              ++ drop i path_list |}) /\
  Forall plain (drop i path_list) /\
  resolve start_list (repeat OsPath.pardir (length start_list - i) ++ drop i path_list)
  = path_list.
Proof.
  intros Hcwd Hf start_list path_list i.
  assert (Forall plain (drop i path_list)) as Hdrop.
  { apply Forall_drop. by apply components_abspath. }
  split; [|split; [done|]].
  - unfold relative_normpath, OsPath.relpath.
    rewrite bool_decide_eq_false_2 by done.
    fold start_list path_list i.
    assert (Forall segment (repeat OsPath.pardir (length start_list - i)
                            ++ drop i path_list)) as Hseg.
    { apply Forall_app. split.
      - apply Forall_forall. intros x Hx%list_elem_of_In%repeat_spec. subst.
        apply pardir_segment.
      - eapply Forall_impl; [exact Hdrop|]. apply plain_segment. }
    destruct (repeat OsPath.pardir (length start_list - i) ++ drop i path_list)
      as [|a p] eqn:E; [reflexivity|].
    cbn. inversion Hseg as [|? ? Ha Hp]; subst.
    rewrite join_segments by done. by rewrite Path_join.
  - pose proof (commonprefix_length_le start_list path_list) as Hle.
    fold i in Hle.
    destruct (commonprefix_take start_list path_list) as [H1 H2].
    fold i in H1, H2.
    rewrite resolve_pardirs by lia.
    replace (length start_list - (length start_list - i)) with i by lia.
    rewrite resolve_plain by done.
    rewrite <- H1, H2. apply take_drop.
Qed.

Lemma path_str_relative rel :
  Forall segment rel ->
  Text.last_char (path_str {| root := ""; parts := rel |}) <> Some "/"%char.
Proof.
  intros H. unfold path_str. cbn [root parts]. rewrite sapp_nil_l.
  destruct (decide (rel = [])) as [->|Hne]; [done|].
  assert (Text.join "/" rel <> "") as Hj.
  { destruct rel as [|x rel]; [done|]. rewrite text_join_tail.
    inversion H as [|? ? (? & _) _]; subst. destruct x; [done|]. by rewrite sapp_cons. }
  rewrite bool_decide_eq_false_2 by done.
  apply last_char_join; [done|].
  eapply Forall_impl; [exact H|]. by intros x (? & _ & ?).
Qed.

End RelpathFacts.


Example relpath_sibling :
  relative_normpath "/home/u" (Some "data/nlu.md") "models"
  = Returns (Some {| root := ""; parts := [".."; "data"; "nlu.md"] |}).
Proof. vm_compute. reflexivity. Qed.

Example relpath_trailing_slash :
  relative_normpath "/home/u" (Some "/srv/models/a/") "/srv//models/./"
  = Returns (Some {| root := ""; parts := ["a"] |}).
Proof. vm_compute. reflexivity. Qed.

Example relpath_same :
  relative_normpath "/home/u" (Some ".") "../u"
  = Returns (Some {| root := ""; parts := [] |}).
Proof. vm_compute. reflexivity. Qed.

Example normpath_dotdot : OsPath.normpath "/a/b/../../../c//d/." = "/c/d".
Proof. vm_compute. reflexivity. Qed.

Example normpath_relative : OsPath.normpath "a/../../b/" = "../b".
Proof. vm_compute. reflexivity. Qed.

Example normpath_two_slashes : OsPath.normpath "//a/b" = "//a/b".
Proof. vm_compute. reflexivity. Qed.

(** C4 fails for the empty string, which is not [None]: [os.path.relpath]
    rejects it, so [relative_normpath] neither returns an absent result nor
    a path. *)
Lemma relative_normpath_empty_raises :
  relative_normpath "/home/u" (Some "") "models"
  = Raises (ValueError "no path specified") /\
  forall r, relative_normpath "/home/u" (Some "") "models" <> Returns r.
Proof. split; [reflexivity|]. intros r. discriminate. Qed.

(** C4, amended: in a process whose working directory [cwd] is an absolute
    path, [relative_normpath] returns an absent result when the file is
    [None]; raises [ValueError] when it is the empty string; and for every
    other file returns a relative path object whose parts are some [..]
    followed by plain components (none empty, none [.] or [..], none with a
    slash), whose text has no trailing slash, and which leads from [base] to
    the file: walking its parts from the components of the absolute [base]
    gives the components of the absolute file. *)
Theorem relative_normpath_spec (cwd base : string) :
  OsPath.isabs cwd = true ->
  relative_normpath cwd None base = Returns None /\
  relative_normpath cwd (Some "") base = Raises (ValueError "no path specified") /\
  forall f, f <> "" ->
    exists k rest,
      let rel := {| root := ""; parts := (repeat ".." k ++ rest)%list |} in
      relative_normpath cwd (Some f) base = Returns (Some rel) /\
      Forall plain rest /\
      resolve (OsPath.components (OsPath.abspath cwd base)) (parts rel)
      = OsPath.components (OsPath.abspath cwd f) /\
      Text.last_char (path_str rel) <> Some "/"%char.
Proof.
  intros Hcwd. split; [reflexivity|]. split; [reflexivity|].
  intros f Hf.
  destruct (RelpathFacts.relpath_segments cwd f base Hcwd Hf) as (Hret & Hplain & Hres).
  eexists _, _. cbn zeta. split; [exact Hret|]. split; [exact Hplain|].
  split; [exact Hres|].
  apply RelpathFacts.path_str_relative. apply Forall_app. split.
  - apply Forall_forall. intros x Hx%list_elem_of_In%repeat_spec. subst.
    apply RelpathFacts.pardir_segment.
  - eapply Forall_impl; [exact Hplain|]. apply RelpathFacts.plain_segment.
Qed.

Lemma relative_normpath_spec_witness :
  exists k rest,
    relative_normpath "/home/u" (Some "data/nlu.md") "models"
    = Returns (Some {| root := ""; parts := (repeat ".." k ++ rest)%list |}) /\
    Forall plain rest.
Proof.
  destruct (relative_normpath_spec "/home/u" "models" eq_refl) as (_ & _ & H).
  destruct (H "data/nlu.md") as (k & rest & Hret & Hplain & _); [discriminate|].
  exists k, rest. split; [exact Hret|exact Hplain].
Defined.

(** ** [json] *)

Example encode_scalar_list :
  Json.encode 2 (VList [VInt 1; VStr "a"; VNone])
  = "[" ++ String "010" "  1," ++ String "010" ("  " ++ String dquote ("a" ++ String dquote ","))
    ++ String "010" "  null" ++ String "010" "]".
Proof. vm_compute. reflexivity. Qed.

Example loads_sample : Json.loads (Json.encode 2 sample_obj) = Returns sample_obj.
Proof. vm_compute. reflexivity. Qed.

Example loads_compact :
  Json.loads ("{" ++ String dquote ("a" ++ String dquote ": [1, -20 ,true],")
              ++ String dquote ("a" ++ String dquote ":{} } "))
  = Returns (VDict [("a", VDict [])]).
Proof. vm_compute. reflexivity. Qed.

Example loads_float : Json.loads "[1.5]" = Raises (NotModelled "float").
Proof. vm_compute. reflexivity. Qed.

Example loads_extra : Json.loads "1 2" = Raises (JSONDecodeError "Extra data").
Proof. vm_compute. reflexivity. Qed.

Example loads_unicode_escape :
  Json.loads (String dquote (String backslash "u00e9" ++ String dquote ""))
  = Returns (VStr (String (ascii_of_nat 195) (String (ascii_of_nat 169) ""))).
Proof. vm_compute. reflexivity. Qed.

(** *** Strings: the decoder reads back what the encoder wrote *)

Module JsonFacts.
Import TextFacts.

Lemma scanstring_escape_char c tail :
  Json.scanstring (Json.escape_char c ++ tail)
  = r ← Json.scanstring tail; Returns (String c r.1, r.2).
Proof. destruct c as [[] [] [] [] [] [] [] []]; reflexivity. Qed.

Lemma scanstring_escape s rest :
  Json.scanstring (Json.escape s ++ String dquote rest) = Returns (s, rest).
Proof.
  induction s as [|c s IH]; [reflexivity|].
  cbn [Json.escape]. rewrite sapp_assoc, scanstring_escape_char, IH.
  reflexivity.
Qed.

Lemma scanstring_basestring s rest :
  exists body,
    Json.encode_basestring s ++ rest = String dquote body /\
    Json.scanstring body = Returns (s, rest).
Proof.
  exists (Json.escape s ++ String dquote rest). split.
  - unfold Json.encode_basestring. by rewrite sapp_cons, sapp_assoc.
  - apply scanstring_escape.
Qed.


(** *** Integers *)

Fixpoint all_digits (s : string) : bool :=
  match s with
  | EmptyString => true
  | String c s' => Json.is_digit c && all_digits s'
  end.

(** What may follow a number for the scanner to stop there. *)
Definition ok_after (rest : string) : Prop :=
  match rest with
  | EmptyString => True
  | String c _ =>
      Json.is_digit c = false /\ c <> "."%char /\ c <> "e"%char /\ c <> "E"%char
  end.

Lemma string_of_uint_digits d : all_digits (NilEmpty.string_of_uint d) = true.
Proof. induction d; cbn; auto. Qed.

Lemma span_digits_app ds rest :
  all_digits ds = true -> ok_after rest ->
  Json.span_digits (ds ++ rest) = (ds, rest).
Proof.
  intros Hds Hrest. induction ds as [|c ds IH].
  - rewrite sapp_nil_l. destruct rest as [|c rest]; [done|].
    destruct Hrest as (Hc & _). cbn. by rewrite Hc.
  - cbn in Hds. apply andb_true_iff in Hds as [Hc Hds].
    rewrite sapp_cons. cbn [Json.span_digits]. rewrite Hc, IH by done. done.
Qed.

(** The decimal digits of a positive number do not start with a zero. *)
Lemma to_uint_head p :
  exists c ds,
    NilEmpty.string_of_uint (Pos.to_uint p) = String c ds /\
    Json.is_digit c = true /\ c <> "0"%char /\ all_digits ds = true.
Proof.
  pose proof (DecimalPos.Unsigned.to_uint_nonzero p) as Hnz.
  pose proof (DecimalPos.Unsigned.to_uint_nonnil p) as Hnn.
  assert (Decimal.unorm (Pos.to_uint p) = Pos.to_uint p) as Hnorm.
  { rewrite <- DecimalPos.Unsigned.to_of, DecimalPos.Unsigned.of_to. reflexivity. }
  pose proof (string_of_uint_digits (Pos.to_uint p)) as Hall.
  destruct (Pos.to_uint p) as [|d|d|d|d|d|d|d|d|d|d] eqn:E; [done|..];
    cbn in Hall |- *;
    try (eexists _, _; split; [reflexivity|]; split; [done|]; split; done).
  exfalso. rewrite unorm_D0 in Hnorm. unfold Decimal.unorm in Hnorm.
  destruct (Decimal.nzhead d) eqn:En; try discriminate Hnorm.
  - by apply Hnz.
  - apply (nzhead_nonzero d d). by rewrite En.
Qed.

Lemma int_repr_head z :
  exists c body, Json.int_repr z = String c body /\
                 (Json.is_digit c = true \/ c = "-"%char).
Proof.
  unfold Json.int_repr. destruct z as [|p|p]; cbn.
  - eexists _, _. split; [reflexivity|by left].
  - destruct (to_uint_head p) as (c & ds & -> & Hc & _). eauto.
  - eexists _, _. split; [reflexivity|by right].
Qed.

Lemma match_integer_repr z rest :
  ok_after rest ->
  Json.match_integer (Json.int_repr z ++ rest) = Some (Json.int_repr z, rest).
Proof.
  intros Hrest. unfold Json.int_repr. destruct z as [|p|p]; cbn [Z.to_int NilEmpty.string_of_int].
  - reflexivity.
  - destruct (to_uint_head p) as (c & ds & -> & Hc & Hc0 & Hds).
    rewrite sapp_cons. unfold Json.match_integer.
    assert (Ascii.eqb c "-" = false) as ->.
    { apply Ascii.eqb_neq. intros ->. discriminate Hc. }
    assert (Ascii.eqb c "0" = false) as -> by (by apply Ascii.eqb_neq).
    rewrite Hc, span_digits_app by done. reflexivity.
  - destruct (to_uint_head p) as (c & ds & -> & Hc & Hc0 & Hds).
    rewrite !sapp_cons. unfold Json.match_integer.
    rewrite Ascii.eqb_refl.
    assert (Ascii.eqb c "0" = false) as -> by (by apply Ascii.eqb_neq).
    rewrite Hc, span_digits_app by done. reflexivity.
Qed.

Lemma parse_int_repr z : Json.parse_int (Json.int_repr z) = z.
Proof.
  unfold Json.parse_int, Json.int_repr.
  rewrite NilEmpty.isi. apply DecimalZ.of_to.
Qed.

Lemma ok_after_no_float rest :
  ok_after rest -> Json.match_frac rest = None /\ Json.match_exp rest = None.
Proof.
  destruct rest as [|c rest]; [done|]. intros (_ & H1 & H2 & H3).
  unfold Json.match_frac, Json.match_exp.
  apply Ascii.eqb_neq in H1, H2, H3. by rewrite H1, H2, H3.
Qed.


(** *** White space and the first character of an encoded value *)

Lemma skip_ws_replicate n s :
  Json.skip_ws (Text.replicate n " " ++ s) = Json.skip_ws s.
Proof. induction n as [|n IH]; [done|]. cbn [Text.replicate]. by rewrite sapp_cons. Qed.

Lemma skip_ws_newline_indent indent level s :
  Json.skip_ws (Json.newline_indent indent level ++ s) = Json.skip_ws s.
Proof.
  unfold Json.newline_indent. rewrite sapp_cons. cbn [Json.skip_ws].
  replace (Json.is_ws "010") with true by reflexivity.
  apply skip_ws_replicate.
Qed.

Lemma skip_ws_id c s : Json.is_ws c = false -> Json.skip_ws (String c s) = String c s.
Proof. intros H. cbn. by rewrite H. Qed.

Lemma ok_after_newline_indent indent level s :
  ok_after (Json.newline_indent indent level ++ s).
Proof. unfold Json.newline_indent. rewrite sapp_cons. by repeat split. Qed.

(** A value starts with a character that is neither white space nor a
    closing bracket. *)
Definition value_start (c : ascii) : Prop :=
  Json.is_ws c = false /\ c <> "]"%char /\ c <> "}"%char /\
  (nat_of_ascii c <? 128)%nat = true.

Lemma digit_value_start c :
  Json.is_digit c = true \/ c = "-"%char -> value_start c.
Proof.
  intros [H| ->]; [|by repeat split].
  destruct c as [[] [] [] [] [] [] [] []]; try discriminate H;
    by repeat split.
Qed.

Lemma iterencode_head indent level v :
  exists c body, Json.iterencode indent level v = String c body /\ value_start c.
Proof.
  destruct v as [|[]|z|s|[|x l]|[|kv l]];
    try (eexists _, _; split; [reflexivity|]; by repeat split).
  cbn [Json.iterencode].
  destruct (int_repr_head z) as (c & body & -> & Hc).
  eexists _, _. split; [reflexivity|]. by apply digit_value_start.
Qed.

End JsonFacts.
(** *** The scanner on encoded values *)

Module ScanFacts.
Import TextFacts JsonFacts.

(** One unfolding of each of the three scanning functions. *)
Lemma array_items_eq fuel s :
  Json.array_items (S fuel) s
  = x ← Json.scan_once fuel s;
    match Json.skip_ws x.2 with
    | String c r =>
        if Ascii.eqb c "]" then Returns ([x.1], r)
        else if Ascii.eqb c "," then
          y ← Json.array_items fuel (Json.skip_ws r); Returns (x.1 :: y.1, y.2)
        else Raises (JSONDecodeError "Expecting ',' delimiter")
    | EmptyString => Raises (JSONDecodeError "Expecting ',' delimiter")
    end.
Proof. reflexivity. Qed.

Lemma object_items_eq fuel s :
  Json.object_items (S fuel) s
  = k ← Json.scanstring s;
    match Json.skip_ws k.2 with
    | String c r =>
        if Ascii.eqb c ":" then
          x ← Json.scan_once fuel (Json.skip_ws r);
          match Json.skip_ws x.2 with
          | String c1 r1 =>
              if Ascii.eqb c1 "}" then Returns ([(k.1, x.1)], r1)
              else if Ascii.eqb c1 "," then
                match Json.skip_ws r1 with
                | String c2 r2 =>
                    if Ascii.eqb c2 dquote then
                      y ← Json.object_items fuel r2;
                      Returns ((k.1, x.1) :: y.1, y.2)
                    else Raises (JSONDecodeError
                                   "Expecting property name enclosed in double quotes")
                | EmptyString =>
                    Raises (JSONDecodeError
                              "Expecting property name enclosed in double quotes")
                end
              else Raises (JSONDecodeError "Expecting ',' delimiter")
          | EmptyString => Raises (JSONDecodeError "Expecting ',' delimiter")
          end
        else Raises (JSONDecodeError "Expecting ':' delimiter")
    | EmptyString => Raises (JSONDecodeError "Expecting ':' delimiter")
    end.
Proof. reflexivity. Qed.

Lemma scan_once_string fuel s rest :
  Json.scan_once (S fuel) (Json.encode_basestring s ++ rest) = Returns (VStr s, rest).
Proof.
  destruct (scanstring_basestring s rest) as (body & -> & Hbody).
  cbn [Json.scan_once]. replace (Ascii.eqb dquote dquote) with true by reflexivity.
  by rewrite Hbody.
Qed.

Lemma scan_once_null fuel rest :
  Json.scan_once (S fuel) ("null" ++ rest) = Returns (VNone, rest).
Proof. reflexivity. Qed.

Lemma scan_once_true fuel rest :
  Json.scan_once (S fuel) ("true" ++ rest) = Returns (VBool true, rest).
Proof. reflexivity. Qed.

Lemma scan_once_false fuel rest :
  Json.scan_once (S fuel) ("false" ++ rest) = Returns (VBool false, rest).
Proof. reflexivity. Qed.

Lemma scan_once_empty_list fuel rest :
  Json.scan_once (S fuel) ("[]" ++ rest) = Returns (VList [], rest).
Proof. reflexivity. Qed.

Lemma scan_once_empty_dict fuel rest :
  Json.scan_once (S fuel) ("{}" ++ rest) = Returns (VDict [], rest).
Proof. reflexivity. Qed.

(** A text that starts like a number and is not a keyword goes to the
    number branch. *)
Lemma scan_once_number fuel c body integer rest :
  Json.is_digit c = true \/ c = "-"%char ->
  Json.match_integer (String c body) = Some (integer, rest) ->
  Json.match_frac rest = None -> Json.match_exp rest = None ->
  Json.scan_once (S fuel) (String c body)
  = Returns (VInt (Json.parse_int integer), rest).
Proof.
  intros Hc Hint Hfrac Hexp. cbn [Json.scan_once].
  assert (Ascii.eqb c dquote = false /\ Ascii.eqb c "{" = false /\
          Ascii.eqb c "[" = false /\ Ascii.eqb c "n" = false /\
          Ascii.eqb c "t" = false /\ Ascii.eqb c "f" = false) as (-> & -> & -> & Hn & Ht & Hf).
  { destruct Hc as [Hc| ->]; [|by repeat split].
    destruct c as [[] [] [] [] [] [] [] []]; try discriminate Hc; by repeat split. }
  assert (forall kw d, Ascii.eqb d c = false -> Text.startswith (String c body) (String d kw) = false) as Hkw.
  { intros kw d Hd. cbn. by rewrite Hd. }
  rewrite !Hkw by (by rewrite Ascii.eqb_sym).
  by rewrite Hint, Hfrac, Hexp.
Qed.

Lemma scan_once_int fuel z rest :
  ok_after rest ->
  Json.scan_once (S fuel) (Json.int_repr z ++ rest) = Returns (VInt z, rest).
Proof.
  intros Hrest. pose proof (match_integer_repr z rest Hrest) as Hint.
  destruct (ok_after_no_float rest Hrest) as [Hfrac Hexp].
  destruct (int_repr_head z) as (c & body & E & Hc).
  rewrite E in Hint |- * at 1. rewrite sapp_cons in Hint |- *.
  rewrite (scan_once_number fuel c _ _ rest Hc Hint Hfrac Hexp).
  rewrite <- E. by rewrite parse_int_repr.
Qed.

End ScanFacts.
(** *** Arrays, objects and the round trip *)

(** The fuel that scanning the encoding of a value takes. *)
Fixpoint weight (v : pyval) : nat :=
  match v with
  | VList items => S (foldr (fun x acc => S (weight x + acc)) 0 items)
  | VDict items =>
      S (foldr (fun kv acc => match kv with (_, x) => S (weight x + acc) end) 0 items)
  | _ => 1
  end.

(** The scanner reads the encoding of [v] back, whatever the level and the
    text after it. *)
Definition reads_back (indent : nat) (v : pyval) : Prop :=
  forall level rest fuel,
    weight v <= fuel -> JsonFacts.ok_after rest ->
    Json.scan_once fuel (Json.iterencode indent level v ++ rest) = Returns (v, rest).

Module RoundtripFacts.
Import TextFacts JsonFacts ScanFacts.

(** Normal form of concatenations: constructors out, nesting to the right. *)
Ltac snorm :=
  repeat (rewrite sapp_cons || rewrite sapp_nil_l || rewrite sapp_assoc).
Ltac snorm_in H :=
  repeat (rewrite sapp_cons in H || rewrite sapp_nil_l in H || rewrite sapp_assoc in H).

Lemma bind_returns {A B} (a : A) (k : A -> outcome B) : (x ← Returns a; k x) = k a.
Proof. reflexivity. Qed.

Lemma join_cons2 sep x y l :
  Text.join sep (x :: y :: l) = x ++ sep ++ Text.join sep (y :: l).
Proof. reflexivity. Qed.

Lemma join_head sep x l : exists t, Text.join sep (x :: l) = x ++ t.
Proof.
  destruct l as [|y l].
  - exists "". cbn. by rewrite sapp_nil_r.
  - eexists. apply join_cons2.
Qed.

Lemma ok_after_comma s : ok_after (String "," s).
Proof. by repeat split. Qed.

Definition items_weight (items : list pyval) : nat :=
  foldr (fun x acc => S (weight x + acc)) 0 items.

Lemma array_items_encoded indent level level' items rest fuel :
  items <> [] -> Forall (reads_back indent) items ->
  items_weight items <= fuel ->
  Json.array_items fuel
    (Text.join (String "," (Json.newline_indent indent level))
       (map (Json.iterencode indent level) items)
     ++ Json.newline_indent indent level' ++ String "]" rest)
  = Returns (items, rest).
Proof.
  intros Hne Hall. revert fuel.
  induction Hall as [|x l Hx Hl IH]; [done|]. intros fuel Hfuel.
  cbn [items_weight foldr] in Hfuel. fold (items_weight l) in Hfuel.
  destruct fuel as [|f]; [lia|]. rewrite array_items_eq.
  destruct l as [|y l].
  - cbn [map Text.join].
    rewrite (Hx level _ f) by (lia || apply ok_after_newline_indent).
    rewrite bind_returns. cbn [fst snd].
    rewrite skip_ws_newline_indent, skip_ws_id by done.
    reflexivity.
  - cbn [map]. rewrite join_cons2, !sapp_assoc, sapp_cons.
    rewrite (Hx level _ f) by (lia || apply ok_after_comma).
    rewrite bind_returns. cbn [fst snd].
    rewrite skip_ws_id by done.
    replace (Ascii.eqb "," "]") with false by reflexivity.
    replace (Ascii.eqb "," ",") with true by reflexivity.
    rewrite skip_ws_newline_indent.
    change (Json.iterencode indent level y :: map (Json.iterencode indent level) l)
      with (map (Json.iterencode indent level) (y :: l)) in *.
    assert (Json.skip_ws
              (Text.join (String "," (Json.newline_indent indent level))
                 (map (Json.iterencode indent level) (y :: l))
               ++ Json.newline_indent indent level' ++ String "]" rest)
            = Text.join (String "," (Json.newline_indent indent level))
                (map (Json.iterencode indent level) (y :: l))
              ++ Json.newline_indent indent level' ++ String "]" rest) as ->.
    { cbn [map]. destruct (join_head (String "," (Json.newline_indent indent level))
                             (Json.iterencode indent level y)
                             (map (Json.iterencode indent level) l)) as [t ->].
      destruct (iterencode_head indent level y) as (c & body & -> & Hc & _).
      rewrite !sapp_cons. by apply skip_ws_id. }
    rewrite IH by (done || cbn [items_weight foldr] in *; lia).
    reflexivity.
Qed.


Definition encode_pair (indent level : nat) (kv : string * pyval) : string :=
  match kv with
  | (key, value) =>
      Json.encode_basestring key ++ ": " ++ Json.iterencode indent level value
  end.

Definition pairs_weight (items : list (string * pyval)) : nat :=
  foldr (fun kv acc => match kv with (_, x) => S (weight x + acc) end) 0 items.

Lemma encode_pair_head indent level kv :
  exists body, encode_pair indent level kv = String dquote body.
Proof. destruct kv as [k v]. eexists. reflexivity. Qed.

Lemma object_items_encoded indent level level' items rest fuel body :
  items <> [] -> Forall (fun kv => reads_back indent kv.2) items ->
  pairs_weight items <= fuel ->
  Text.join (String "," (Json.newline_indent indent level))
    (map (encode_pair indent level) items)
  ++ Json.newline_indent indent level' ++ String "}" rest
  = String dquote body ->
  Json.object_items fuel body = Returns (items, rest).
Proof.
  intros Hne Hall. revert fuel body.
  induction Hall as [|[k v] l Hv Hl IH]; [done|]. intros fuel body Hfuel Hbody.
  cbn [pairs_weight foldr] in Hfuel. fold (pairs_weight l) in Hfuel.
  cbn [snd] in Hv.
  destruct fuel as [|f]; [lia|]. rewrite object_items_eq.
  assert (forall tail,
            Json.scan_once f
              (Json.skip_ws (String " " (Json.iterencode indent level v ++ tail)))
            = Json.scan_once f (Json.iterencode indent level v ++ tail)) as Hskip.
  { intros tail. f_equal. cbn [Json.skip_ws].
    replace (Json.is_ws " ") with true by reflexivity.
    destruct (iterencode_head indent level v) as (c & b & -> & Hc & _).
    rewrite sapp_cons. by apply skip_ws_id. }
  destruct l as [|kv2 l].
  - cbn [map Text.join encode_pair] in Hbody.
    unfold Json.encode_basestring in Hbody.
    snorm_in Hbody. injection Hbody as <-.
    rewrite scanstring_escape, bind_returns. cbn [fst snd].
    rewrite skip_ws_id by done.
    replace (Ascii.eqb ":" ":") with true by reflexivity.
    rewrite Hskip.
    rewrite (Hv level _ f) by (lia || apply ok_after_newline_indent).
    rewrite bind_returns. cbn [fst snd].
    rewrite skip_ws_newline_indent, skip_ws_id by done.
    reflexivity.
  - cbn [map] in Hbody. rewrite join_cons2 in Hbody.
    change (encode_pair indent level kv2 :: map (encode_pair indent level) l)
      with (map (encode_pair indent level) (kv2 :: l)) in Hbody.
    assert (exists body2,
              Text.join (String "," (Json.newline_indent indent level))
                (map (encode_pair indent level) (kv2 :: l))
              ++ Json.newline_indent indent level' ++ String "}" rest
              = String dquote body2) as [body2 Hbody2].
    { cbn [map].
      destruct (join_head (String "," (Json.newline_indent indent level))
                  (encode_pair indent level kv2)
                  (map (encode_pair indent level) l)) as [t ->].
      destruct (encode_pair_head indent level kv2) as [b2 ->].
      snorm. eauto. }
    remember (Text.join (String "," (Json.newline_indent indent level))
                (map (encode_pair indent level) (kv2 :: l))) as J eqn:EJ.
    cbn [encode_pair] in Hbody. unfold Json.encode_basestring in Hbody.
    snorm_in Hbody. injection Hbody as <-.
    rewrite scanstring_escape, bind_returns. cbn [fst snd].
    rewrite skip_ws_id by done.
    replace (Ascii.eqb ":" ":") with true by reflexivity.
    rewrite Hskip.
    rewrite (Hv level _ f) by (lia || apply ok_after_comma).
    rewrite bind_returns. cbn [fst snd].
    rewrite skip_ws_id by done.
    replace (Ascii.eqb "," "}") with false by reflexivity.
    replace (Ascii.eqb "," ",") with true by reflexivity.
    rewrite skip_ws_newline_indent.
    rewrite Hbody2. rewrite skip_ws_id by done.
    replace (Ascii.eqb dquote dquote) with true by reflexivity.
    rewrite (IH ltac:(done) f body2) by (done || cbn [pairs_weight foldr] in *; lia).
    reflexivity.
Qed.

(** [dict(pairs)] is [pairs] when the keys are distinct. *)
Lemma dict_set_fresh d key value :
  key ∉ (fst <$> d) -> Json.dict_set d key value = (d ++ [(key, value)])%list.
Proof.
  induction d as [|[k v] d IH]; [done|]. intros Hk.
  cbn [Json.dict_set]. rewrite bool_decide_eq_false_2.
  - cbn. f_equal. apply IH. intros H. apply Hk. cbn. by right.
  - intros ->. apply Hk. cbn. by left.
Qed.

Lemma dict_of_pairs_fold acc pairs :
  NoDup (fst <$> (acc ++ pairs)%list) ->
  fold_left (fun d kv => Json.dict_set d kv.1 kv.2) pairs acc = (acc ++ pairs)%list.
Proof.
  revert acc. induction pairs as [|[k v] pairs IH]; intros acc Hnd.
  - by rewrite app_nil_r.
  - cbn [fold_left fst snd]. rewrite dict_set_fresh.
    + rewrite IH; rewrite <- app_assoc; done.
    + rewrite fmap_app in Hnd. apply NoDup_app in Hnd as (_ & Hdisj & _).
      intros Hin. apply (Hdisj k Hin). cbn. by left.
Qed.

Lemma dict_of_pairs_NoDup pairs :
  NoDup (fst <$> pairs) -> Json.dict_of_pairs pairs = pairs.
Proof. intros H. unfold Json.dict_of_pairs. by rewrite dict_of_pairs_fold. Qed.


Lemma scan_once_array fuel r c1 r1 items rest :
  Json.skip_ws r = String c1 r1 -> c1 <> "]"%char ->
  Json.array_items fuel (String c1 r1) = Returns (items, rest) ->
  Json.scan_once (S fuel) (String "[" r) = Returns (VList items, rest).
Proof.
  intros Hr Hc Hitems. cbn [Json.scan_once].
  replace (Ascii.eqb "[" dquote) with false by reflexivity.
  replace (Ascii.eqb "[" "{") with false by reflexivity.
  replace (Ascii.eqb "[" "[") with true by reflexivity.
  rewrite Hr. apply Ascii.eqb_neq in Hc. rewrite Hc, Hitems. reflexivity.
Qed.

Lemma scan_once_object fuel r r1 pairs rest :
  Json.skip_ws r = String dquote r1 ->
  Json.object_items fuel r1 = Returns (pairs, rest) ->
  Json.scan_once (S fuel) (String "{" r)
  = Returns (VDict (Json.dict_of_pairs pairs), rest).
Proof.
  intros Hr Hpairs. cbn [Json.scan_once].
  replace (Ascii.eqb "{" dquote) with false by reflexivity.
  replace (Ascii.eqb "{" "{") with true by reflexivity.
  rewrite Hr.
  replace (Ascii.eqb dquote "}") with false by reflexivity.
  replace (Ascii.eqb dquote dquote) with true by reflexivity.
  rewrite Hpairs. reflexivity.
Qed.

Lemma well_formed_list items :
  well_formed (VList items) <-> Forall well_formed items.
Proof.
  cbn [well_formed]. induction items as [|x l IH]; cbn [foldr].
  - split; [constructor|done].
  - rewrite Forall_cons, IH. reflexivity.
Qed.

Lemma well_formed_dict items :
  well_formed (VDict items) <->
  NoDup (fst <$> items) /\ Forall (fun kv => well_formed kv.2) items.
Proof.
  cbn [well_formed]. apply and_iff_compat_l.
  induction items as [|[k x] l IH]; cbn [foldr].
  - split; [constructor|done].
  - rewrite Forall_cons, IH. reflexivity.
Qed.

(** Every well-formed value is read back. *)
Lemma reads_back_all indent v : well_formed v -> reads_back indent v.
Proof.
  induction v as [|b|z|s|items IH|items IH] using pyval_ind;
    intros Hwf level rest fuel Hfuel Hrest;
    (destruct fuel as [|f]; [cbn in Hfuel; lia|]).
  - apply scan_once_null.
  - destruct b; [apply scan_once_true|apply scan_once_false].
  - by apply scan_once_int.
  - apply scan_once_string.
  - apply well_formed_list in Hwf.
    assert (Forall (reads_back indent) items) as Hall.
    { rewrite Forall_forall in IH, Hwf |- *. intros x Hx. by apply IH, Hwf. }
    destruct items as [|x l]; [apply scan_once_empty_list|].
    cbn [Json.iterencode]. snorm.
    change (Json.iterencode indent (S level) x :: map (Json.iterencode indent (S level)) l)
      with (map (Json.iterencode indent (S level)) (x :: l)).
    pose proof (array_items_encoded indent (S level) level (x :: l) rest f
                  ltac:(done) Hall) as Harr.
    destruct (join_head (String "," (Json.newline_indent indent (S level)))
                (Json.iterencode indent (S level) x)
                (map (Json.iterencode indent (S level)) l)) as [t Ht].
    destruct (iterencode_head indent (S level) x) as (c & body & Hx & Hc & Hc' & _).
    cbn [map] in Harr |- *. rewrite Ht, Hx in Harr |- *.
    snorm_in Harr. snorm.
    eapply scan_once_array; [|exact Hc'|].
    + rewrite skip_ws_newline_indent. by apply skip_ws_id.
    + apply Harr. cbn [weight] in Hfuel. fold (items_weight (x :: l)) in Hfuel. lia.
  - apply well_formed_dict in Hwf as [Hnd Hwf].
    assert (Forall (fun kv => reads_back indent kv.2) items) as Hall.
    { rewrite Forall_forall in IH, Hwf |- *. intros x Hx. by apply IH, Hwf. }
    destruct items as [|kv l]; [apply scan_once_empty_dict|].
    rewrite <- (dict_of_pairs_NoDup (kv :: l)) at 2 by done.
    cbn [Json.iterencode]. snorm.
    change (map (fun kv0 => match kv0 with
                            | (key, value) =>
                                Json.encode_basestring key ++ ": "
                                ++ Json.iterencode indent (S level) value
                            end) (kv :: l))
      with (map (encode_pair indent (S level)) (kv :: l)).
    destruct (join_head (String "," (Json.newline_indent indent (S level)))
                (encode_pair indent (S level) kv)
                (map (encode_pair indent (S level)) l)) as [t Ht].
    destruct (encode_pair_head indent (S level) kv) as [b Hb].
    assert (Text.join (String "," (Json.newline_indent indent (S level)))
              (map (encode_pair indent (S level)) (kv :: l))
            ++ Json.newline_indent indent level ++ String "}" rest
            = String dquote (b ++ t ++ Json.newline_indent indent level ++ String "}" rest))
      as Hbody.
    { cbn [map]. rewrite Ht, Hb. by snorm. }
    eapply scan_once_object.
    + rewrite skip_ws_newline_indent. rewrite Hbody. by apply skip_ws_id.
    + apply (object_items_encoded indent (S level) level (kv :: l));
        [done|exact Hall| |exact Hbody].
      cbn [weight] in Hfuel. fold (pairs_weight (kv :: l)) in Hfuel. lia.
Qed.


(** The length of an encoding bounds the fuel that reading it takes. *)
Definition lengths_sum (xs : list string) : nat :=
  foldr (fun x acc => S (String.length x + acc)) 0 xs.

Lemma join_length_ge sep xs :
  1 <= String.length sep -> xs <> [] ->
  lengths_sum xs <= S (String.length (Text.join sep xs)).
Proof.
  intros Hsep. induction xs as [|x xs IH]; [done|]. intros _.
  destruct xs as [|y xs].
  - cbn. lia.
  - rewrite join_cons2, !slength_app.
    unfold lengths_sum in *. cbn [foldr] in *. specialize (IH ltac:(done)). lia.
Qed.

Lemma weight_le_length indent level v :
  weight v <= String.length (Json.iterencode indent level v).
Proof.
  revert level.
  induction v as [|b|z|s|items IH|items IH] using pyval_ind; intros level.
  - cbn. lia.
  - destruct b; cbn; lia.
  - cbn [Json.iterencode weight].
    destruct (int_repr_head z) as (c & body & -> & _). cbn. lia.
  - cbn. lia.
  - destruct items as [|x l]; [cbn; lia|].
    cbn [Json.iterencode weight]. rewrite !slength_app.
    change ("," ++ Json.newline_indent indent (S level))
      with (String "," (Json.newline_indent indent (S level))).
    pose proof (join_length_ge
                  (String "," (Json.newline_indent indent (S level)))
                  (map (Json.iterencode indent (S level)) (x :: l))
                  ltac:(cbn; lia) ltac:(done)) as Hjoin.
    assert (foldr (fun x acc => S (weight x + acc)) 0 (x :: l)
            <= lengths_sum (map (Json.iterencode indent (S level)) (x :: l))) as Hsum.
    { clear Hjoin. induction IH as [|y l' Hy _ IH']; [done|].
      unfold lengths_sum in *. cbn [map foldr] in *.
      specialize (Hy (S level)). lia. }
    cbn [String.length]. lia.
  - destruct items as [|kv l]; [cbn; lia|].
    cbn [Json.iterencode weight]. rewrite !slength_app.
    change (map (fun kv0 => match kv0 with
                            | (key, value) =>
                                Json.encode_basestring key ++ ": "
                                ++ Json.iterencode indent (S level) value
                            end) (kv :: l))
      with (map (encode_pair indent (S level)) (kv :: l)).
    change ("," ++ Json.newline_indent indent (S level))
      with (String "," (Json.newline_indent indent (S level))).
    pose proof (join_length_ge
                  (String "," (Json.newline_indent indent (S level)))
                  (map (encode_pair indent (S level)) (kv :: l))
                  ltac:(cbn; lia) ltac:(done)) as Hjoin.
    assert (foldr (fun kv acc => match kv with (_, x) => S (weight x + acc) end) 0 (kv :: l)
            <= lengths_sum (map (encode_pair indent (S level)) (kv :: l))) as Hsum.
    { clear Hjoin. induction IH as [|[k y] l' Hy _ IH']; [done|].
      unfold lengths_sum in *. cbn [map foldr encode_pair snd] in *.
      rewrite !slength_app. specialize (Hy (S level)). lia. }
    cbn [String.length]. lia.
Qed.

Lemma encode_no_bom indent v :
  Text.startswith (Json.encode indent v) Json.bom = false.
Proof.
  unfold Json.encode.
  destruct (iterencode_head indent 0 v) as (c & body & -> & _ & _ & _ & Hc).
  unfold Json.bom. cbn [Text.startswith].
  destruct (Ascii.eqb (ascii_of_nat 239) c) eqn:E; [|done].
  apply Ascii.eqb_eq in E. subst c. discriminate Hc.
Qed.

(** The decoder gives back every well-formed value from its encoding. *)
Lemma loads_encode indent v :
  well_formed v -> Json.loads (Json.encode indent v) = Returns v.
Proof.
  intros Hwf. unfold Json.loads. rewrite encode_no_bom.
  assert (Json.skip_ws (Json.encode indent v) = Json.encode indent v) as ->.
  { unfold Json.encode.
    destruct (iterencode_head indent 0 v) as (c & body & -> & Hc & _).
    by apply skip_ws_id. }
  unfold Json.encode.
  rewrite <- (sapp_nil_r (Json.iterencode indent 0 v)) at 2.
  rewrite (reads_back_all indent v Hwf 0 "").
  - reflexivity.
  - pose proof (weight_le_length indent 0 v). lia.
  - done.
Qed.

End RoundtripFacts.
(** ** [json_to_string] *)

Example json_to_string_default :
  json_to_string json_dumps_default
    (VDict [("caf" ++ String (ascii_of_nat 195) (String (ascii_of_nat 169) ""),
             VList [VInt 1])]) ∅
  = Returns ("{" ++ String "010" ("  " ++ String dquote "caf")
             ++ String (ascii_of_nat 195) (String (ascii_of_nat 169) "")
             ++ String dquote ": [" ++ String "010" "    1"
             ++ String "010" "  ]" ++ String "010" "}").
Proof. vm_compute. reflexivity. Qed.

(** C8: [json_to_string] calls the serializer with the indentation and the
    [ensure_ascii] flag the caller gave under the keys [indent] and
    [ensure_ascii], or with 2 and [False] for the one that is missing, and
    passes on the other options without these two keys, each with the
    caller's value.  With no options it calls it with an indentation of 2
    and [ensure_ascii=False]. *)
Theorem json_to_string_spec
    (json_dumps : pyval -> pyval -> pyval -> gmap string pyval -> outcome string)
    (obj : pyval) (kwargs : gmap string pyval) :
  let rest := delete "ensure_ascii" (delete "indent" kwargs) in
  json_to_string json_dumps obj kwargs
  = json_dumps obj (default (VInt 2) (kwargs !! "indent"))
      (default (VBool false) (kwargs !! "ensure_ascii")) rest /\
  rest !! "indent" = None /\ rest !! "ensure_ascii" = None /\
  (forall k, k <> "indent" -> k <> "ensure_ascii" -> rest !! k = kwargs !! k) /\
  json_to_string json_dumps obj ∅ = json_dumps obj (VInt 2) (VBool false) ∅.
Proof.
  intros rest. subst rest. split; [|split; [|split; [|split]]].
  - unfold json_to_string, dict_pop. by rewrite lookup_delete_ne.
  - rewrite lookup_delete_ne by done. apply lookup_delete_eq.
  - apply lookup_delete_eq.
  - intros k H1 H2. by rewrite !lookup_delete_ne.
  - unfold json_to_string, dict_pop.
    rewrite !lookup_empty, !delete_empty. reflexivity.
Qed.

Lemma json_to_string_spec_witness :
  delete "ensure_ascii"
    (delete "indent" ({[ "indent" := VInt 4; "sort_keys" := VBool true ]}
                      : gmap string pyval)) !! "sort_keys"
  = Some (VBool true) /\
  delete "ensure_ascii"
    (delete "indent" ({[ "indent" := VInt 4; "sort_keys" := VBool true ]}
                      : gmap string pyval)) !! "indent"
  = None.
Proof.
  destruct (json_to_string_spec json_dumps_default (VList [])
              {[ "indent" := VInt 4; "sort_keys" := VBool true ]})
    as (_ & Hindent & _ & Hother & _).
  split; [|exact Hindent].
  rewrite Hother; [reflexivity|discriminate|discriminate].
Defined.

(** ** [json] with floating-point numbers *)

Example float_literal_fraction : JsonFloat.is_float_literal "1.5" = true.
Proof. reflexivity. Qed.

Example float_literal_negative_zero : JsonFloat.is_float_literal "-0.0" = true.
Proof. reflexivity. Qed.

Example float_literal_exponent : JsonFloat.is_float_literal "1e+16" = true.
Proof. reflexivity. Qed.

Example float_literal_both : JsonFloat.is_float_literal "1.7976931348623157e+308" = true.
Proof. reflexivity. Qed.

Example float_literal_small : JsonFloat.is_float_literal "5e-324" = true.
Proof. reflexivity. Qed.

Example float_literal_integer : JsonFloat.is_float_literal "10" = false.
Proof. reflexivity. Qed.

Example float_literal_no_digit_after_dot : JsonFloat.is_float_literal "1." = false.
Proof. reflexivity. Qed.

Example float_literal_no_integer_part : JsonFloat.is_float_literal ".5" = false.
Proof. reflexivity. Qed.

Example float_literal_nan : JsonFloat.is_float_literal "NaN" = false.
Proof. reflexivity. Qed.

Example match_number_groups :
  JsonFloat.match_number "-12.50E-3, 4" = Some ("-12", ".50", "E-3", ", 4").
Proof. reflexivity. Qed.

Example encode_floats :
  JsonFloat.encode whole_repr 2 (JList [JFloat (Finite 1%Z); JFloat NaN; JInt 1])
  = "[" ++ String "010" "  1.0," ++ String "010" "  NaN," ++ String "010" "  1"
    ++ String "010" "]".
Proof. vm_compute. reflexivity. Qed.

Example loads_floats :
  JsonFloat.loads whole_parse "[2.0, -7.0, 3, -Infinity]"
  = Returns (JList [JFloat (Finite 2%Z); JFloat (Finite (-7)%Z); JInt 3;
                    JFloat (Infinity true)]).
Proof. vm_compute. reflexivity. Qed.

Example loads_sample_floats :
  JsonFloat.loads whole_parse (JsonFloat.encode whole_repr 2 sample_floats)
  = Returns sample_floats.
Proof. vm_compute. reflexivity. Qed.

(** *** The pattern of a number, before a text that does not go on with it *)

Module FloatFacts.
Import TextFacts JsonFacts.

Definition digit_stop (rest : string) : Prop :=
  match rest with
  | EmptyString => True
  | String c _ => Json.is_digit c = false
  end.

Lemma ok_after_digit_stop rest : ok_after rest -> digit_stop rest.
Proof. destruct rest; [done|]. by intros [? _]. Qed.

Lemma span_digits_ext s rest :
  digit_stop rest ->
  Json.span_digits (s ++ rest) = ((Json.span_digits s).1, (Json.span_digits s).2 ++ rest).
Proof.
  intros Hrest. induction s as [|c s IH].
  - rewrite sapp_nil_l. destruct rest as [|c rest]; [done|].
    cbn in Hrest |- *. by rewrite Hrest.
  - rewrite sapp_cons. cbn [Json.span_digits].
    destruct (Json.is_digit c); [by rewrite IH|done].
Qed.

Lemma span_digits_concat s : (Json.span_digits s).1 ++ (Json.span_digits s).2 = s.
Proof.
  induction s as [|c s IH]; [done|]. cbn [Json.span_digits].
  destruct (Json.is_digit c); cbn [fst snd]; [|done].
  by rewrite sapp_cons, IH.
Qed.

Lemma match_integer_ext s rest i r :
  Json.match_integer s = Some (i, r) -> digit_stop rest ->
  Json.match_integer (s ++ rest) = Some (i, r ++ rest).
Proof.
  intros H Hrest. destruct s as [|c s]; [done|].
  rewrite sapp_cons. unfold Json.match_integer in *.
  destruct (Ascii.eqb c "-").
  - destruct s as [|d s]; [done|]. rewrite sapp_cons.
    destruct (Ascii.eqb d "0"); [by injection H as <- <-|].
    destruct (Json.is_digit d); [|done].
    rewrite span_digits_ext by done. by injection H as <- <-.
  - destruct (Ascii.eqb c "0"); [by injection H as <- <-|].
    destruct (Json.is_digit c); [|done].
    rewrite span_digits_ext by done. by injection H as <- <-.
Qed.

Lemma match_integer_concat s i r :
  Json.match_integer s = Some (i, r) -> i ++ r = s.
Proof.
  intros H. destruct s as [|c s]; [done|]. unfold Json.match_integer in H.
  destruct (Ascii.eqb c "-").
  - destruct s as [|d s]; [done|].
    destruct (Ascii.eqb d "0"); [by injection H as <- <-|].
    destruct (Json.is_digit d); [|done]. injection H as <- <-.
    by rewrite !sapp_cons, span_digits_concat.
  - destruct (Ascii.eqb c "0"); [by injection H as <- <-|].
    destruct (Json.is_digit c); [|done]. injection H as <- <-.
    by rewrite !sapp_cons, span_digits_concat.
Qed.

Lemma match_integer_head s i r :
  Json.match_integer s = Some (i, r) ->
  exists c body, s = String c body /\ (Json.is_digit c = true \/ c = "-"%char).
Proof.
  intros H. destruct s as [|c s]; [done|]. exists c, s. split; [done|].
  unfold Json.match_integer in H.
  destruct (Ascii.eqb c "-") eqn:E; [right; by apply Ascii.eqb_eq|]. left.
  destruct (Ascii.eqb c "0") eqn:E0; [by apply Ascii.eqb_eq in E0 as ->|].
  by destruct (Json.is_digit c).
Qed.

Lemma frac_part_ext s rest :
  ok_after rest ->
  JsonFloat.frac_part (s ++ rest)
  = ((JsonFloat.frac_part s).1, (JsonFloat.frac_part s).2 ++ rest).
Proof.
  intros Hrest. destruct s as [|c r].
  - rewrite sapp_nil_l. destruct rest as [|c rest]; [done|].
    destruct Hrest as (_ & Hdot & _). apply Ascii.eqb_neq in Hdot.
    unfold JsonFloat.frac_part. by rewrite Hdot.
  - rewrite sapp_cons. unfold JsonFloat.frac_part.
    rewrite span_digits_ext by (by apply ok_after_digit_stop). cbn [fst snd].
    by destruct (_ && _).
Qed.

Lemma frac_part_concat s : (JsonFloat.frac_part s).1 ++ (JsonFloat.frac_part s).2 = s.
Proof.
  destruct s as [|c r]; [done|]. unfold JsonFloat.frac_part.
  destruct (_ && _); cbn [fst snd]; [|done].
  by rewrite sapp_cons, span_digits_concat.
Qed.

Lemma exp_part_none rest : ok_after rest -> JsonFloat.exp_part rest = ("", rest).
Proof.
  destruct rest as [|c rest]; [done|]. intros (_ & _ & He & HE).
  apply Ascii.eqb_neq in He, HE. unfold JsonFloat.exp_part. by rewrite He, HE.
Qed.

Lemma frac_part_none rest : ok_after rest -> JsonFloat.frac_part rest = ("", rest).
Proof.
  destruct rest as [|c rest]; [done|]. intros (_ & Hdot & _).
  apply Ascii.eqb_neq in Hdot. unfold JsonFloat.frac_part. by rewrite Hdot.
Qed.

(** An exponent that ends the text is the exponent of the text with
    something after it that is no digit. *)
Lemma exp_part_ext s rest e :
  JsonFloat.exp_part s = (e, "") -> ok_after rest ->
  JsonFloat.exp_part (s ++ rest) = (e, rest).
Proof.
  intros H Hrest. pose proof (ok_after_digit_stop _ Hrest) as Hstop.
  destruct s as [|c r].
  - injection H as <-. rewrite sapp_nil_l. by apply exp_part_none.
  - rewrite sapp_cons. unfold JsonFloat.exp_part in *.
    destruct (Ascii.eqb c "e" || Ascii.eqb c "E"); [|done].
    destruct r as [|sg r1]; [done|]. rewrite sapp_cons.
    destruct (Ascii.eqb sg "+" || Ascii.eqb sg "-").
    + rewrite span_digits_ext by done. cbn [fst snd].
      destruct (negb _); [|done]. injection H as <- ->. done.
    + change (String sg (r1 ++ rest)) with (String sg r1 ++ rest).
      rewrite span_digits_ext by done.
      destruct (Json.span_digits (String sg r1)) as [ds r2]. cbn [fst snd] in *.
      destruct (negb _); [|done]. by injection H as <- ->.
Qed.

Lemma exp_part_concat s : (JsonFloat.exp_part s).1 ++ (JsonFloat.exp_part s).2 = s.
Proof.
  destruct s as [|c r]; [done|]. unfold JsonFloat.exp_part.
  destruct (Ascii.eqb c "e" || Ascii.eqb c "E"); [|done].
  destruct r as [|sg r1]; [done|].
  destruct (Ascii.eqb sg "+" || Ascii.eqb sg "-").
  - destruct (negb _); cbn [fst snd]; [|done].
    by rewrite !sapp_cons, sapp_nil_l, span_digits_concat.
  - destruct (negb _); cbn [fst snd]; [|done].
    by rewrite !sapp_cons, sapp_nil_l, span_digits_concat.
Qed.

Lemma match_number_ext t rest i f e :
  JsonFloat.match_number t = Some (i, f, e, "") -> ok_after rest ->
  JsonFloat.match_number (t ++ rest) = Some (i, f, e, rest).
Proof.
  unfold JsonFloat.match_number. intros H Hrest.
  destruct (Json.match_integer t) as [[i' r1]|] eqn:E; [|done].
  rewrite (match_integer_ext _ _ _ _ E) by (by apply ok_after_digit_stop).
  rewrite frac_part_ext by done. cbn [fst snd].
  destruct (JsonFloat.exp_part (JsonFloat.frac_part r1).2) as [e' r3] eqn:Ee.
  cbn [fst snd] in H. injection H as <- <- <- ->.
  by rewrite (exp_part_ext _ rest e' Ee).
Qed.

(** The groups and the text after the match make up the text. *)
Lemma match_number_concat t i f e r :
  JsonFloat.match_number t = Some (i, f, e, r) -> i ++ f ++ e ++ r = t.
Proof.
  unfold JsonFloat.match_number. intros H.
  destruct (Json.match_integer t) as [[i' r1]|] eqn:E; [|done].
  injection H as <- <- <- <-.
  by rewrite exp_part_concat, frac_part_concat, (match_integer_concat _ _ _ E).
Qed.

Lemma match_number_head t m :
  JsonFloat.match_number t = Some m ->
  exists c body, t = String c body /\ (Json.is_digit c = true \/ c = "-"%char).
Proof.
  unfold JsonFloat.match_number. intros H.
  destruct (Json.match_integer t) as [[i r1]|] eqn:E; [|done].
  by apply match_integer_head in E.
Qed.

(** A float literal is read to its end, and as a float, before every text
    that cannot go on with a number. *)
Lemma float_literal_scan t rest :
  JsonFloat.is_float_literal t = true -> ok_after rest ->
  exists i f e,
    JsonFloat.match_number (t ++ rest) = Some (i, f, e, rest) /\
    i ++ f ++ e = t /\
    bool_decide (f = "") && bool_decide (e = "") = false.
Proof.
  unfold JsonFloat.is_float_literal. intros H Hrest.
  destruct (JsonFloat.match_number t) as [[[[i f] e] r]|] eqn:E; [|done].
  apply andb_true_iff in H as [Hr Hfe]. apply bool_decide_eq_true in Hr as ->.
  exists i, f, e. split; [by apply match_number_ext|]. split.
  - apply match_number_concat in E. by rewrite sapp_nil_r in E.
  - by apply negb_true_iff.
Qed.

Lemma float_literal_head t :
  JsonFloat.is_float_literal t = true ->
  exists c body, t = String c body /\ (Json.is_digit c = true \/ c = "-"%char).
Proof.
  unfold JsonFloat.is_float_literal. intros H.
  destruct (JsonFloat.match_number t) as [m|] eqn:E; [|done].
  by apply match_number_head in E.
Qed.

Lemma match_number_int z rest :
  ok_after rest ->
  JsonFloat.match_number (Json.int_repr z ++ rest) = Some (Json.int_repr z, "", "", rest).
Proof.
  intros Hrest. unfold JsonFloat.match_number.
  rewrite match_integer_repr by done.
  by rewrite frac_part_none, exp_part_none.
Qed.

(** The floats of the examples. *)
Lemma whole_repr_match z :
  JsonFloat.match_number (whole_repr z) = Some (Json.int_repr z, ".0", "", "").
Proof.
  unfold whole_repr, JsonFloat.match_number.
  pose proof (match_integer_repr z "" I) as H. rewrite sapp_nil_r in H.
  by rewrite (match_integer_ext _ ".0" _ _ H).
Qed.

Lemma whole_repr_literal z : JsonFloat.is_float_literal (whole_repr z) = true.
Proof. unfold JsonFloat.is_float_literal. by rewrite whole_repr_match. Qed.

Lemma whole_parse_repr z : whole_parse (whole_repr z) = Finite z.
Proof.
  unfold whole_parse, whole_repr.
  pose proof (match_integer_repr z "" I) as H. rewrite sapp_nil_r in H.
  rewrite (match_integer_ext _ ".0" _ _ H) by done.
  by rewrite parse_int_repr.
Qed.

End FloatFacts.

(** *** The scanner on encoded values with floats *)

(** The fuel that scanning the encoding of a value takes. *)
Fixpoint float_weight {F : Type} (v : jsonval F) : nat :=
  match v with
  | JList items => S (foldr (fun x acc => S (float_weight x + acc)) 0 items)
  | JDict items =>
      S (foldr (fun kv acc => match kv with (_, x) => S (float_weight x + acc) end)
           0 items)
  | _ => 1
  end.

Module FloatRoundtrip.
Import TextFacts JsonFacts FloatFacts.
Import RoundtripFacts.

Section floats.
Context {F : Type}.
Variable float_repr : F -> string.
Variable parse_float : string -> pyfloat F.
Hypothesis float_repr_literal :
  forall x, JsonFloat.is_float_literal (float_repr x) = true.
Hypothesis parse_float_repr : forall x, parse_float (float_repr x) = Finite x.

Abbreviation iterencode := (JsonFloat.iterencode float_repr).
Abbreviation scan_once := (JsonFloat.scan_once parse_float).
Abbreviation array_items := (JsonFloat.array_items parse_float).
Abbreviation object_items := (JsonFloat.object_items parse_float).

(** One unfolding of each of the three scanning functions. *)
Lemma scan_once_eq fuel c r :
  scan_once (S fuel) (String c r)
  = let s := String c r in
    if Ascii.eqb c dquote then
      x ← Json.scanstring r; Returns (JStr x.1, x.2)
    else if Ascii.eqb c "{" then
      match Json.skip_ws r with
      | String c1 r1 =>
          if Ascii.eqb c1 "}" then Returns (JDict [], r1)
          else if Ascii.eqb c1 dquote then
            x ← object_items fuel r1;
            Returns (JDict (JsonFloat.dict_of_pairs x.1), x.2)
          else Raises (JSONDecodeError
                         "Expecting property name enclosed in double quotes")
      | EmptyString =>
          Raises (JSONDecodeError
                    "Expecting property name enclosed in double quotes")
      end
    else if Ascii.eqb c "[" then
      match Json.skip_ws r with
      | String c1 r1 =>
          if Ascii.eqb c1 "]" then Returns (JList [], r1)
          else x ← array_items fuel (Json.skip_ws r); Returns (JList x.1, x.2)
      | EmptyString => Raises (JSONDecodeError "Expecting value")
      end
    else if Text.startswith s "null" then Returns (JNone, Text.drop 4 s)
    else if Text.startswith s "true" then Returns (JBool true, Text.drop 4 s)
    else if Text.startswith s "false" then Returns (JBool false, Text.drop 5 s)
    else
      match JsonFloat.match_number s with
      | Some (integer, frac, exp, rest) =>
          if bool_decide (frac = "") && bool_decide (exp = "")
          then Returns (JInt (Json.parse_int integer), rest)
          else Returns (JFloat (parse_float (integer ++ frac ++ exp)), rest)
      | None =>
          if Text.startswith s "NaN"
          then Returns (JFloat NaN, Text.drop 3 s)
          else if Text.startswith s "Infinity"
          then Returns (JFloat (Infinity false), Text.drop 8 s)
          else if Text.startswith s "-Infinity"
          then Returns (JFloat (Infinity true), Text.drop 9 s)
          else Raises (JSONDecodeError "Expecting value")
      end.
Proof. reflexivity. Qed.

Lemma float_array_items_eq fuel s :
  array_items (S fuel) s
  = x ← scan_once fuel s;
    match Json.skip_ws x.2 with
    | String c r =>
        if Ascii.eqb c "]" then Returns ([x.1], r)
        else if Ascii.eqb c "," then
          y ← array_items fuel (Json.skip_ws r); Returns (x.1 :: y.1, y.2)
        else Raises (JSONDecodeError "Expecting ',' delimiter")
    | EmptyString => Raises (JSONDecodeError "Expecting ',' delimiter")
    end.
Proof. reflexivity. Qed.

Lemma float_object_items_eq fuel s :
  object_items (S fuel) s
  = k ← Json.scanstring s;
    match Json.skip_ws k.2 with
    | String c r =>
        if Ascii.eqb c ":" then
          x ← scan_once fuel (Json.skip_ws r);
          match Json.skip_ws x.2 with
          | String c1 r1 =>
              if Ascii.eqb c1 "}" then Returns ([(k.1, x.1)], r1)
              else if Ascii.eqb c1 "," then
                match Json.skip_ws r1 with
                | String c2 r2 =>
                    if Ascii.eqb c2 dquote then
                      y ← object_items fuel r2;
                      Returns ((k.1, x.1) :: y.1, y.2)
                    else Raises (JSONDecodeError
                                   "Expecting property name enclosed in double quotes")
                | EmptyString =>
                    Raises (JSONDecodeError
                              "Expecting property name enclosed in double quotes")
                end
              else Raises (JSONDecodeError "Expecting ',' delimiter")
          | EmptyString => Raises (JSONDecodeError "Expecting ',' delimiter")
          end
        else Raises (JSONDecodeError "Expecting ':' delimiter")
    | EmptyString => Raises (JSONDecodeError "Expecting ':' delimiter")
    end.
Proof. reflexivity. Qed.

Lemma float_scan_once_string fuel s rest :
  scan_once (S fuel) (Json.encode_basestring s ++ rest) = Returns (JStr s, rest).
Proof.
  destruct (scanstring_basestring s rest) as (body & -> & Hbody).
  rewrite scan_once_eq. cbv zeta. replace (Ascii.eqb dquote dquote) with true by reflexivity.
  by rewrite Hbody.
Qed.

(** A text that starts like a number and is not a keyword goes to the
    number branch. *)
Lemma float_scan_once_number fuel c body integer frac exp rest :
  Json.is_digit c = true \/ c = "-"%char ->
  JsonFloat.match_number (String c body) = Some (integer, frac, exp, rest) ->
  scan_once (S fuel) (String c body)
  = if bool_decide (frac = "") && bool_decide (exp = "")
    then Returns (JInt (Json.parse_int integer), rest)
    else Returns (JFloat (parse_float (integer ++ frac ++ exp)), rest).
Proof.
  intros Hc Hnum. rewrite scan_once_eq. cbv zeta.
  assert (Ascii.eqb c dquote = false /\ Ascii.eqb c "{" = false /\
          Ascii.eqb c "[" = false /\ Ascii.eqb c "n" = false /\
          Ascii.eqb c "t" = false /\ Ascii.eqb c "f" = false) as (-> & -> & -> & Hn & Ht & Hf).
  { destruct Hc as [Hc| ->]; [|by repeat split].
    destruct c as [[] [] [] [] [] [] [] []]; try discriminate Hc; by repeat split. }
  assert (forall kw d, Ascii.eqb d c = false -> Text.startswith (String c body) (String d kw) = false) as Hkw.
  { intros kw d Hd. cbn. by rewrite Hd. }
  rewrite !Hkw by (by rewrite Ascii.eqb_sym).
  by rewrite Hnum.
Qed.

Lemma float_scan_once_int fuel z rest :
  ok_after rest ->
  scan_once (S fuel) (Json.int_repr z ++ rest) = Returns (JInt z, rest).
Proof.
  intros Hrest. pose proof (match_number_int z rest Hrest) as Hnum.
  destruct (int_repr_head z) as (c & body & E & Hc).
  rewrite E in Hnum |- * at 1. rewrite sapp_cons in Hnum |- *.
  rewrite (float_scan_once_number fuel c _ _ _ _ rest Hc Hnum).
  rewrite <- E. cbn. by rewrite parse_int_repr.
Qed.

Lemma scan_once_float fuel x rest :
  ok_after rest ->
  scan_once (S fuel) (float_repr x ++ rest) = Returns (JFloat (Finite x), rest).
Proof.
  intros Hrest.
  destruct (float_literal_scan _ rest (float_repr_literal x) Hrest)
    as (i & f & e & Hnum & Htext & Hfloat).
  destruct (float_literal_head _ (float_repr_literal x)) as (c & body & E & Hc).
  rewrite E in Hnum |- *. rewrite sapp_cons in Hnum |- *.
  rewrite (float_scan_once_number fuel c _ _ _ _ rest Hc Hnum), Hfloat.
  by rewrite Htext, parse_float_repr.
Qed.

Lemma float_iterencode_head indent level v :
  representable v ->
  exists c body, iterencode indent level v = String c body /\ value_start c.
Proof.
  intros Hv.
  destruct v as [|[]|z|[x| |]|s|[|x l]|[|kv l]];
    try (eexists _, _; split; [reflexivity|]; by repeat split); try done.
  - cbn [JsonFloat.iterencode].
    destruct (int_repr_head z) as (c & body & -> & Hc).
    eexists _, _. split; [reflexivity|]. by apply digit_value_start.
  - cbn [JsonFloat.iterencode JsonFloat.floatstr].
    destruct (float_literal_head _ (float_repr_literal x)) as (c & body & -> & Hc).
    eexists _, _. split; [reflexivity|]. by apply digit_value_start.
Qed.

(** The scanner reads the encoding of [v] back, whatever the level and the
    text after it. *)
Definition reads_back (indent : nat) (v : jsonval F) : Prop :=
  forall level rest fuel,
    float_weight v <= fuel -> ok_after rest ->
    scan_once fuel (iterencode indent level v ++ rest) = Returns (v, rest).

Definition items_weight (items : list (jsonval F)) : nat :=
  foldr (fun x acc => S (float_weight x + acc)) 0 items.

Lemma float_array_items_encoded indent level level' items rest fuel :
  items <> [] -> Forall (reads_back indent) items -> Forall representable items ->
  items_weight items <= fuel ->
  array_items fuel
    (Text.join (String "," (Json.newline_indent indent level))
       (map (iterencode indent level) items)
     ++ Json.newline_indent indent level' ++ String "]" rest)
  = Returns (items, rest).
Proof.
  intros Hne Hall Hrep. revert fuel Hrep.
  induction Hall as [|x l Hx Hl IH]; [done|]. intros fuel Hrep Hfuel.
  apply Forall_cons in Hrep as [Hrx Hrl].
  cbn [items_weight foldr] in Hfuel. fold (items_weight l) in Hfuel.
  destruct fuel as [|f]; [lia|]. rewrite float_array_items_eq.
  destruct l as [|y l].
  - cbn [map Text.join].
    rewrite (Hx level _ f) by (lia || apply ok_after_newline_indent).
    rewrite bind_returns. cbn [fst snd].
    rewrite skip_ws_newline_indent, skip_ws_id by done.
    reflexivity.
  - cbn [map]. rewrite join_cons2, !sapp_assoc, sapp_cons.
    rewrite (Hx level _ f) by (lia || apply ok_after_comma).
    rewrite bind_returns. cbn [fst snd].
    rewrite skip_ws_id by done.
    replace (Ascii.eqb "," "]") with false by reflexivity.
    replace (Ascii.eqb "," ",") with true by reflexivity.
    rewrite skip_ws_newline_indent.
    change (iterencode indent level y :: map (iterencode indent level) l)
      with (map (iterencode indent level) (y :: l)) in *.
    assert (Json.skip_ws
              (Text.join (String "," (Json.newline_indent indent level))
                 (map (iterencode indent level) (y :: l))
               ++ Json.newline_indent indent level' ++ String "]" rest)
            = Text.join (String "," (Json.newline_indent indent level))
                (map (iterencode indent level) (y :: l))
              ++ Json.newline_indent indent level' ++ String "]" rest) as ->.
    { cbn [map]. destruct (join_head (String "," (Json.newline_indent indent level))
                             (iterencode indent level y)
                             (map (iterencode indent level) l)) as [t ->].
      apply Forall_cons in Hrl as [Hry _].
      destruct (float_iterencode_head indent level y Hry) as (c & body & -> & Hc & _).
      rewrite !sapp_cons. by apply skip_ws_id. }
    rewrite IH by (done || cbn [items_weight foldr] in *; lia).
    reflexivity.
Qed.

Definition encode_pair (indent level : nat) (kv : string * jsonval F) : string :=
  match kv with
  | (key, value) =>
      Json.encode_basestring key ++ ": " ++ iterencode indent level value
  end.

Definition pairs_weight (items : list (string * jsonval F)) : nat :=
  foldr (fun kv acc => match kv with (_, x) => S (float_weight x + acc) end) 0 items.

Lemma float_encode_pair_head indent level kv :
  exists body, encode_pair indent level kv = String dquote body.
Proof. destruct kv as [k v]. eexists. reflexivity. Qed.

Lemma float_object_items_encoded indent level level' items rest fuel body :
  items <> [] -> Forall (fun kv => reads_back indent kv.2) items ->
  Forall (fun kv => representable kv.2) items ->
  pairs_weight items <= fuel ->
  Text.join (String "," (Json.newline_indent indent level))
    (map (encode_pair indent level) items)
  ++ Json.newline_indent indent level' ++ String "}" rest
  = String dquote body ->
  object_items fuel body = Returns (items, rest).
Proof.
  intros Hne Hall Hrep. revert fuel body Hrep.
  induction Hall as [|[k v] l Hv Hl IH]; [done|]. intros fuel body Hrep Hfuel Hbody.
  apply Forall_cons in Hrep as [Hrv Hrl]. cbn [snd] in Hrv.
  cbn [pairs_weight foldr] in Hfuel. fold (pairs_weight l) in Hfuel.
  cbn [snd] in Hv.
  destruct fuel as [|f]; [lia|]. rewrite float_object_items_eq.
  assert (forall tail,
            scan_once f
              (Json.skip_ws (String " " (iterencode indent level v ++ tail)))
            = scan_once f (iterencode indent level v ++ tail)) as Hskip.
  { intros tail. f_equal. cbn [Json.skip_ws].
    replace (Json.is_ws " ") with true by reflexivity.
    destruct (float_iterencode_head indent level v Hrv) as (c & b & -> & Hc & _).
    rewrite sapp_cons. by apply skip_ws_id. }
  destruct l as [|kv2 l].
  - cbn [map Text.join encode_pair] in Hbody.
    unfold Json.encode_basestring in Hbody.
    snorm_in Hbody. injection Hbody as <-.
    rewrite scanstring_escape, bind_returns. cbn [fst snd].
    rewrite skip_ws_id by done.
    replace (Ascii.eqb ":" ":") with true by reflexivity.
    rewrite Hskip.
    rewrite (Hv level _ f) by (lia || apply ok_after_newline_indent).
    rewrite bind_returns. cbn [fst snd].
    rewrite skip_ws_newline_indent, skip_ws_id by done.
    reflexivity.
  - cbn [map] in Hbody. rewrite join_cons2 in Hbody.
    change (encode_pair indent level kv2 :: map (encode_pair indent level) l)
      with (map (encode_pair indent level) (kv2 :: l)) in Hbody.
    assert (exists body2,
              Text.join (String "," (Json.newline_indent indent level))
                (map (encode_pair indent level) (kv2 :: l))
              ++ Json.newline_indent indent level' ++ String "}" rest
              = String dquote body2) as [body2 Hbody2].
    { cbn [map].
      destruct (join_head (String "," (Json.newline_indent indent level))
                  (encode_pair indent level kv2)
                  (map (encode_pair indent level) l)) as [t ->].
      destruct (float_encode_pair_head indent level kv2) as [b2 ->].
      snorm. eauto. }
    remember (Text.join (String "," (Json.newline_indent indent level))
                (map (encode_pair indent level) (kv2 :: l))) as J eqn:EJ.
    cbn [encode_pair] in Hbody. unfold Json.encode_basestring in Hbody.
    snorm_in Hbody. injection Hbody as <-.
    rewrite scanstring_escape, bind_returns. cbn [fst snd].
    rewrite skip_ws_id by done.
    replace (Ascii.eqb ":" ":") with true by reflexivity.
    rewrite Hskip.
    rewrite (Hv level _ f) by (lia || apply ok_after_comma).
    rewrite bind_returns. cbn [fst snd].
    rewrite skip_ws_id by done.
    replace (Ascii.eqb "," "}") with false by reflexivity.
    replace (Ascii.eqb "," ",") with true by reflexivity.
    rewrite skip_ws_newline_indent.
    rewrite Hbody2. rewrite skip_ws_id by done.
    replace (Ascii.eqb dquote dquote) with true by reflexivity.
    rewrite (IH ltac:(done) f body2) by (done || cbn [pairs_weight foldr] in *; lia).
    reflexivity.
Qed.

(** [dict(pairs)] is [pairs] when the keys are distinct. *)
Lemma float_dict_set_fresh (d : list (string * jsonval F)) key value :
  key ∉ (fst <$> d) -> JsonFloat.dict_set d key value = (d ++ [(key, value)])%list.
Proof.
  induction d as [|[k v] d IH]; [done|]. intros Hk.
  cbn [JsonFloat.dict_set]. rewrite bool_decide_eq_false_2.
  - cbn. f_equal. apply IH. intros H. apply Hk. cbn. by right.
  - intros ->. apply Hk. cbn. by left.
Qed.

Lemma float_dict_of_pairs_fold (acc pairs : list (string * jsonval F)) :
  NoDup (fst <$> (acc ++ pairs)%list) ->
  fold_left (fun d kv => JsonFloat.dict_set d kv.1 kv.2) pairs acc = (acc ++ pairs)%list.
Proof.
  revert acc. induction pairs as [|[k v] pairs IH]; intros acc Hnd.
  - by rewrite app_nil_r.
  - cbn [fold_left fst snd]. rewrite float_dict_set_fresh.
    + rewrite IH; rewrite <- app_assoc; done.
    + rewrite fmap_app in Hnd. apply NoDup_app in Hnd as (_ & Hdisj & _).
      intros Hin. apply (Hdisj k Hin). cbn. by left.
Qed.

Lemma float_dict_of_pairs_NoDup (pairs : list (string * jsonval F)) :
  NoDup (fst <$> pairs) -> JsonFloat.dict_of_pairs pairs = pairs.
Proof. intros H. unfold JsonFloat.dict_of_pairs. by rewrite float_dict_of_pairs_fold. Qed.

Lemma float_scan_once_array fuel r c1 r1 items rest :
  Json.skip_ws r = String c1 r1 -> c1 <> "]"%char ->
  array_items fuel (String c1 r1) = Returns (items, rest) ->
  scan_once (S fuel) (String "[" r) = Returns (JList items, rest).
Proof.
  intros Hr Hc Hitems. rewrite scan_once_eq. cbv zeta.
  replace (Ascii.eqb "[" dquote) with false by reflexivity.
  replace (Ascii.eqb "[" "{") with false by reflexivity.
  replace (Ascii.eqb "[" "[") with true by reflexivity.
  rewrite Hr. apply Ascii.eqb_neq in Hc. rewrite Hc, Hitems. reflexivity.
Qed.

Lemma float_scan_once_object fuel r r1 pairs rest :
  Json.skip_ws r = String dquote r1 ->
  object_items fuel r1 = Returns (pairs, rest) ->
  scan_once (S fuel) (String "{" r)
  = Returns (JDict (JsonFloat.dict_of_pairs pairs), rest).
Proof.
  intros Hr Hpairs. rewrite scan_once_eq. cbv zeta.
  replace (Ascii.eqb "{" dquote) with false by reflexivity.
  replace (Ascii.eqb "{" "{") with true by reflexivity.
  rewrite Hr.
  replace (Ascii.eqb dquote "}") with false by reflexivity.
  replace (Ascii.eqb dquote dquote) with true by reflexivity.
  rewrite Hpairs. reflexivity.
Qed.

Lemma representable_list (items : list (jsonval F)) :
  representable (JList items) <-> Forall representable items.
Proof.
  cbn [representable]. induction items as [|x l IH]; cbn [foldr].
  - split; [constructor|done].
  - rewrite Forall_cons, IH. reflexivity.
Qed.

Lemma representable_dict (items : list (string * jsonval F)) :
  representable (JDict items) <->
  NoDup (fst <$> items) /\ Forall (fun kv => representable kv.2) items.
Proof.
  cbn [representable]. apply and_iff_compat_l.
  induction items as [|[k x] l IH]; cbn [foldr].
  - split; [constructor|done].
  - rewrite Forall_cons, IH. reflexivity.
Qed.

(** Every representable value is read back. *)
Lemma float_reads_back_all indent v : representable v -> reads_back indent v.
Proof.
  induction v as [|b|z|x|s|items IH|items IH] using jsonval_ind;
    intros Hwf level rest fuel Hfuel Hrest;
    (destruct fuel as [|f]; [cbn in Hfuel; lia|]).
  - reflexivity.
  - destruct b; reflexivity.
  - by apply float_scan_once_int.
  - destruct x as [x| |]; [|done|done]. by apply scan_once_float.
  - apply float_scan_once_string.
  - apply representable_list in Hwf.
    assert (Forall (reads_back indent) items) as Hall.
    { rewrite Forall_forall in IH, Hwf |- *. intros x Hx. by apply IH, Hwf. }
    destruct items as [|x l]; [reflexivity|].
    cbn [JsonFloat.iterencode]. snorm.
    change (iterencode indent (S level) x :: map (iterencode indent (S level)) l)
      with (map (iterencode indent (S level)) (x :: l)).
    pose proof (float_array_items_encoded indent (S level) level (x :: l) rest f
                  ltac:(done) Hall Hwf) as Harr.
    destruct (join_head (String "," (Json.newline_indent indent (S level)))
                (iterencode indent (S level) x)
                (map (iterencode indent (S level)) l)) as [t Ht].
    apply Forall_cons in Hwf as [Hrx _].
    destruct (float_iterencode_head indent (S level) x Hrx) as (c & body & Hx & Hc & Hc' & _).
    cbn [map] in Harr |- *. rewrite Ht, Hx in Harr |- *.
    snorm_in Harr. snorm.
    eapply float_scan_once_array; [|exact Hc'|].
    + rewrite skip_ws_newline_indent. by apply skip_ws_id.
    + apply Harr. cbn [float_weight] in Hfuel. fold (items_weight (x :: l)) in Hfuel. lia.
  - apply representable_dict in Hwf as [Hnd Hwf].
    assert (Forall (fun kv => reads_back indent kv.2) items) as Hall.
    { rewrite Forall_forall in IH, Hwf |- *. intros x Hx. by apply IH, Hwf. }
    destruct items as [|kv l]; [reflexivity|].
    rewrite <- (float_dict_of_pairs_NoDup (kv :: l)) at 2 by done.
    cbn [JsonFloat.iterencode]. snorm.
    change (map (fun kv0 => match kv0 with
                            | (key, value) =>
                                Json.encode_basestring key ++ ": "
                                ++ iterencode indent (S level) value
                            end) (kv :: l))
      with (map (encode_pair indent (S level)) (kv :: l)).
    destruct (join_head (String "," (Json.newline_indent indent (S level)))
                (encode_pair indent (S level) kv)
                (map (encode_pair indent (S level)) l)) as [t Ht].
    destruct (float_encode_pair_head indent (S level) kv) as [b Hb].
    assert (Text.join (String "," (Json.newline_indent indent (S level)))
              (map (encode_pair indent (S level)) (kv :: l))
            ++ Json.newline_indent indent level ++ String "}" rest
            = String dquote (b ++ t ++ Json.newline_indent indent level ++ String "}" rest))
      as Hbody.
    { cbn [map]. rewrite Ht, Hb. by snorm. }
    eapply float_scan_once_object.
    + rewrite skip_ws_newline_indent. rewrite Hbody. by apply skip_ws_id.
    + apply (float_object_items_encoded indent (S level) level (kv :: l));
        [done|exact Hall|exact Hwf| |exact Hbody].
      cbn [float_weight] in Hfuel. fold (pairs_weight (kv :: l)) in Hfuel. lia.
Qed.

(** The length of an encoding bounds the fuel that reading it takes. *)
Lemma float_weight_le_length indent level v :
  representable v -> float_weight v <= String.length (iterencode indent level v).
Proof.
  revert level.
  induction v as [|b|z|x|s|items IH|items IH] using jsonval_ind; intros level Hrep.
  - cbn. lia.
  - destruct b; cbn; lia.
  - cbn [JsonFloat.iterencode float_weight].
    destruct (int_repr_head z) as (c & body & -> & _). cbn. lia.
  - destruct (float_iterencode_head indent level (JFloat x) Hrep) as (c & body & -> & _).
    cbn. lia.
  - cbn. lia.
  - destruct items as [|x l]; [cbn; lia|].
    apply representable_list in Hrep.
    cbn [JsonFloat.iterencode float_weight]. rewrite !slength_app.
    change ("," ++ Json.newline_indent indent (S level))
      with (String "," (Json.newline_indent indent (S level))).
    pose proof (join_length_ge
                  (String "," (Json.newline_indent indent (S level)))
                  (map (iterencode indent (S level)) (x :: l))
                  ltac:(cbn; lia) ltac:(done)) as Hjoin.
    assert (foldr (fun x acc => S (float_weight x + acc)) 0 (x :: l)
            <= lengths_sum (map (iterencode indent (S level)) (x :: l))) as Hsum.
    { clear Hjoin. revert Hrep. induction IH as [|y l' Hy _ IH']; [done|].
      intros [Hry Hrl]%Forall_cons.
      unfold lengths_sum in *. cbn [map foldr] in *.
      specialize (Hy (S level) Hry). specialize (IH' Hrl). lia. }
    cbn [String.length]. lia.
  - destruct items as [|kv l]; [cbn; lia|].
    apply representable_dict in Hrep as [_ Hrep].
    cbn [JsonFloat.iterencode float_weight]. rewrite !slength_app.
    change (map (fun kv0 => match kv0 with
                            | (key, value) =>
                                Json.encode_basestring key ++ ": "
                                ++ iterencode indent (S level) value
                            end) (kv :: l))
      with (map (encode_pair indent (S level)) (kv :: l)).
    change ("," ++ Json.newline_indent indent (S level))
      with (String "," (Json.newline_indent indent (S level))).
    pose proof (join_length_ge
                  (String "," (Json.newline_indent indent (S level)))
                  (map (encode_pair indent (S level)) (kv :: l))
                  ltac:(cbn; lia) ltac:(done)) as Hjoin.
    assert (foldr (fun kv acc => match kv with (_, x) => S (float_weight x + acc) end)
              0 (kv :: l)
            <= lengths_sum (map (encode_pair indent (S level)) (kv :: l))) as Hsum.
    { clear Hjoin. revert Hrep. induction IH as [|[k y] l' Hy _ IH']; [done|].
      intros [Hry Hrl]%Forall_cons.
      unfold lengths_sum in *. cbn [map foldr encode_pair snd] in *.
      rewrite !slength_app. specialize (Hy (S level) Hry). specialize (IH' Hrl). lia. }
    cbn [String.length]. lia.
Qed.

Lemma float_encode_no_bom indent v :
  representable v ->
  Text.startswith (JsonFloat.encode float_repr indent v) Json.bom = false.
Proof.
  intros Hrep. unfold JsonFloat.encode.
  destruct (float_iterencode_head indent 0 v Hrep) as (c & body & -> & _ & _ & _ & Hc).
  unfold Json.bom. cbn [Text.startswith].
  destruct (Ascii.eqb (ascii_of_nat 239) c) eqn:E; [|done].
  apply Ascii.eqb_eq in E. subst c. discriminate Hc.
Qed.

(** The decoder gives back every representable value from its encoding. *)
Lemma float_loads_encode indent v :
  representable v ->
  JsonFloat.loads parse_float (JsonFloat.encode float_repr indent v) = Returns v.
Proof.
  intros Hwf. unfold JsonFloat.loads. rewrite float_encode_no_bom by done.
  assert (Json.skip_ws (JsonFloat.encode float_repr indent v)
          = JsonFloat.encode float_repr indent v) as ->.
  { unfold JsonFloat.encode.
    destruct (float_iterencode_head indent 0 v Hwf) as (c & body & -> & Hc & _).
    by apply skip_ws_id. }
  unfold JsonFloat.encode.
  rewrite <- (sapp_nil_r (iterencode indent 0 v)) at 2.
  rewrite (float_reads_back_all indent v Hwf 0 "").
  - reflexivity.
  - pose proof (float_weight_le_length indent 0 v Hwf). lia.
  - done.
Qed.

End floats.

(** On the values without floats the encoder is the one of [Json]. *)
Lemma encode_of_pyval {F : Type} (float_repr : F -> string) indent level v :
  JsonFloat.iterencode float_repr indent level (of_pyval v) = Json.iterencode indent level v.
Proof.
  revert level. induction v as [|b|z|s|items IH|items IH] using pyval_ind;
    intros level; try reflexivity.
  - destruct items as [|x l]; [reflexivity|].
    assert (map (JsonFloat.iterencode float_repr indent (S level))
              (map of_pyval (x :: l))
            = map (Json.iterencode indent (S level)) (x :: l)) as Hmap.
    { clear -IH. induction IH as [|y l' Hy _ IH']; [done|].
      cbn [map]. by rewrite Hy, IH'. }
    cbn [of_pyval map] in Hmap |- *.
    cbn [JsonFloat.iterencode Json.iterencode map]. by rewrite Hmap.
  - destruct items as [|[k x] l]; [reflexivity|].
    assert (map (fun kv : string * jsonval F =>
                   match kv with
                   | (key, value) =>
                       Json.encode_basestring key ++ ": "
                       ++ JsonFloat.iterencode float_repr indent (S level) value
                   end)
              (map (fun kv => match kv with (key, y) => (key, of_pyval y) end)
                 ((k, x) :: l))
            = map (fun kv => match kv with
                             | (key, value) =>
                                 Json.encode_basestring key ++ ": "
                                 ++ Json.iterencode indent (S level) value
                             end) ((k, x) :: l)) as Hmap.
    { clear -IH. induction IH as [|[k' y] l' Hy _ IH']; [done|].
      cbn [map snd] in *. by rewrite Hy, IH'. }
    cbn [of_pyval map] in Hmap |- *.
    cbn [JsonFloat.iterencode Json.iterencode map]. by rewrite Hmap.
Qed.

Lemma representable_of_pyval {F : Type} v :
  well_formed v -> representable (of_pyval (F := F) v).
Proof.
  induction v as [|b|z|s|items IH|items IH] using pyval_ind; try done.
  - intros Hwf%well_formed_list. apply representable_list.
    cbn [of_pyval]. apply Forall_fmap. rewrite Forall_forall in IH, Hwf |- *.
    intros x Hx. by apply IH, Hwf.
  - intros [Hnd Hwf]%well_formed_dict. apply representable_dict.
    cbn [of_pyval]. split.
    + replace (fst <$> map (fun kv => match kv with (key, x) => (key, of_pyval x) end) items)
        with (fst <$> items); [done|].
      clear. induction items as [|[k x] l IH]; [done|]. cbn. by rewrite <- IH.
    + apply Forall_fmap. rewrite Forall_forall in IH, Hwf |- *.
      intros [k x] Hx. cbn. by apply (IH (k, x)), (Hwf (k, x)).
Qed.

End FloatRoundtrip.

(** The decoder with floats reads the encoding of a value without floats
    as that value. *)
Lemma loads_float_free {F : Type} (float_repr : F -> string)
    (parse_float : string -> pyfloat F) (indent : nat) (v : pyval) :
  (forall x, JsonFloat.is_float_literal (float_repr x) = true) ->
  (forall x, parse_float (float_repr x) = Finite x) ->
  well_formed v ->
  JsonFloat.loads parse_float (Json.encode indent v) = Returns (of_pyval v).
Proof.
  intros H1 H2 Hwf. unfold Json.encode.
  rewrite <- (FloatRoundtrip.encode_of_pyval float_repr).
  apply (FloatRoundtrip.float_loads_encode float_repr parse_float H1 H2).
  by apply FloatRoundtrip.representable_of_pyval.
Qed.

(** C9: let the serializer be CPython's encoder on the configuration that
    [json_to_string] uses by default, let the text that [float.__repr__]
    gives for a finite float be a number with a fraction or an exponent,
    and let [float] read that text as the float it was written for.  Then
    for every value built from [None], booleans, integers, finite floats,
    strings, lists and dictionaries with distinct string keys,
    [json_to_string] returns a text, and [json.loads] of that text returns
    the value. *)
Theorem json_roundtrip {F : Type} (float_repr : F -> string)
    (parse_float : string -> pyfloat F)
    (json_dumps : jsonval F -> pyval -> pyval -> gmap string pyval -> outcome string) :
  (forall x, JsonFloat.is_float_literal (float_repr x) = true) ->
  (forall x, parse_float (float_repr x) = Finite x) ->
  (forall obj, json_dumps obj (VInt 2) (VBool false) ∅
               = Returns (JsonFloat.encode float_repr 2 obj)) ->
  forall x, representable x ->
    exists text,
      json_to_string json_dumps x ∅ = Returns text /\
      JsonFloat.loads parse_float text = Returns x.
Proof.
  intros Hliteral Hparse Hdumps x Hrep.
  exists (JsonFloat.encode float_repr 2 x). split.
  - unfold json_to_string, dict_pop.
    rewrite !lookup_empty, !delete_empty. apply Hdumps.
  - by apply FloatRoundtrip.float_loads_encode.
Qed.

Lemma json_roundtrip_witness :
  exists text,
    json_to_string whole_dumps sample_floats ∅ = Returns text /\
    JsonFloat.loads whole_parse text = Returns sample_floats.
Proof.
  apply (json_roundtrip whole_repr whole_parse whole_dumps).
  - apply FloatFacts.whole_repr_literal.
  - apply FloatFacts.whole_parse_repr.
  - intros obj. reflexivity.
  - cbn. repeat split;
      first [exact I | apply (bool_decide_unpack (NoDup _)); vm_compute; exact I].
Defined.
(** * Further properties *)

(** ** [is_url] *)

Section is_url_more.
Import Text Re TextFacts ReFacts.

Lemma startswith_take n s p :
  String.length p <= n -> startswith (take n s) p = startswith s p.
Proof.
  revert n s. induction p as [|c p IH]; intros n s Hn; [done|].
  cbn in Hn. destruct n as [|n]; [lia|].
  destruct s as [|d s]; [done|]. cbn.
  destruct (Ascii.eqb c d); [|done]. apply IH. lia.
Qed.

Lemma match_at_take n r s :
  Forall (fun p => String.length p <= n) (literals r) ->
  match_at r (take n s) = match_at r s.
Proof.
  induction r as [p|r1 IH1 r2 IH2]; cbn [literals match_at]; intros H.
  - inversion H; subst. by rewrite startswith_take.
  - apply Forall_app in H as [H1 H2]. by rewrite IH1, IH2.
Qed.

Lemma url_prefixes_first_char p :
  p ∈ url_prefixes -> exists body, p = String "h" body \/ p = String "f" body.
Proof.
  intros [->|[->|[->|[->| ->]]]]%url_prefixes_inv; eexists; eauto.
Qed.

End is_url_more.

(** X1: a text that continues a URL is a URL: what follows the scheme
    prefix plays no part. *)
Theorem is_url_extend (s t : string) :
  is_url (Some s) = Returns true -> is_url (Some (s ++ t)) = Returns true.
Proof.
  intros (p & rest & Hp & ->)%is_url_true. apply is_url_true.
  exists p, (rest ++ t). split; [done|]. apply TextFacts.sapp_assoc.
Qed.

Lemma is_url_extend_witness :
  is_url (Some ("ftp://host" ++ "/pub/file.txt")) = Returns true.
Proof. apply (is_url_extend "ftp://host" "/pub/file.txt"). reflexivity. Defined.

(** X2: the pattern is tried at the first character only, and nothing is
    stripped: a text whose first character is neither [h] nor [f], such as
    a URL after white space, is not a URL. *)
Theorem is_url_first_char (c : ascii) (s : string) :
  c <> "h"%char -> c <> "f"%char -> is_url (Some (String c s)) = Returns false.
Proof.
  intros Hh Hf. destruct (is_url_total (String c s)) as [H|H]; [|done].
  exfalso. apply is_url_true in H as (p & rest & Hp & E).
  destruct (url_prefixes_first_char p Hp) as [body [-> | ->]];
    rewrite TextFacts.sapp_cons in E; injection E as -> _; done.
Qed.

Lemma is_url_first_char_witness :
  is_url (Some (String " " "https://example.com")) = Returns false.
Proof. apply is_url_first_char; discriminate. Defined.

(** X3: the answer depends on the first eight characters only. *)
Theorem is_url_take8 (s : string) :
  is_url (Some s) = is_url (Some (Text.take 8 s)).
Proof.
  rewrite !is_url_Some. rewrite match_at_take; [done|].
  rewrite url_prefixes_literals. unfold url_prefixes.
  repeat constructor; cbn; lia.
Qed.

(** ** [list_to_str] *)

Section list_to_str_more.
Import Text TextFacts.

Lemma join_app_nonempty sep (l1 l2 : list string) :
  l1 <> [] -> l2 <> [] ->
  join sep (l1 ++ l2)%list = join sep l1 ++ sep ++ join sep l2.
Proof.
  intros H1 H2. induction l1 as [|x l1 IH]; [done|].
  destruct l1 as [|y l1].
  - destruct l2 as [|z l2]; [done|]. reflexivity.
  - change (((x :: y :: l1) ++ l2)%list) with (x :: ((y :: l1) ++ l2)%list).
    change (join sep (x :: (y :: l1) ++ l2)%list)
      with (x ++ sep ++ join sep ((y :: l1) ++ l2)%list).
    rewrite IH by done. change (join sep (x :: y :: l1)) with (x ++ sep ++ join sep (y :: l1)).
    by rewrite !sapp_assoc.
Qed.

Lemma join_length sep (l : list string) :
  String.length (join sep l)
  = sum_list (map String.length l) + (length l - 1) * String.length sep.
Proof.
  induction l as [|x l IH]; [done|]. destruct l as [|y l].
  - cbn. unfold id. lia.
  - change (join sep (x :: y :: l)) with (x ++ sep ++ join sep (y :: l)).
    rewrite !slength_app, IH. cbn [map sum_list sum_list_with length].
    unfold id. lia.
Qed.

Lemma sum_list_cons (x : nat) (l : list nat) : sum_list (x :: l) = x + sum_list l.
Proof. reflexivity. Qed.

End list_to_str_more.

(** X4: with the default delimiter and quote, the number of delimiters in
    the result is the number of gaps between the items plus the number of
    delimiters inside the items; for the empty list it is zero. *)
Theorem list_to_str_count (lst : list string) :
  Text.count (list_to_str lst default_delim default_quote) default_delim
  = (length lst - 1) + sum_list (map (fun e => Text.count e default_delim) lst).
Proof.
  destruct lst as [|x lst]; [reflexivity|].
  by apply count_list_to_str.
Qed.

(** X5: the text of two non-empty lists put together is their texts with a
    delimiter in between, for any delimiter and quote. *)
Theorem list_to_str_app (l1 l2 : list string) (delim quote : string) :
  l1 <> [] -> l2 <> [] ->
  list_to_str (l1 ++ l2)%list delim quote
  = list_to_str l1 delim quote ++ delim ++ list_to_str l2 delim quote.
Proof.
  intros H1 H2. unfold list_to_str. rewrite map_app.
  apply join_app_nonempty; by destruct l1, l2.
Qed.

Lemma list_to_str_app_witness :
  list_to_str (["a"; "b"] ++ ["c"])%list "; " "*"
  = list_to_str ["a"; "b"] "; " "*" ++ "; " ++ list_to_str ["c"] "; " "*".
Proof. apply list_to_str_app; discriminate. Defined.

(** X6: the length of the result: the items, two quotes around each, and a
    delimiter in each gap. *)
Theorem list_to_str_length (lst : list string) (delim quote : string) :
  String.length (list_to_str lst delim quote)
  = sum_list (map String.length lst)
    + 2 * length lst * String.length quote
    + (length lst - 1) * String.length delim.
Proof.
  unfold list_to_str. rewrite join_length, length_map.
  assert (sum_list (map String.length (map (fun e => quote ++ e ++ quote) lst))
          = sum_list (map String.length lst) + 2 * length lst * String.length quote) as ->;
    [|lia].
  induction lst as [|x l IH]; [done|].
  cbn [map length]. rewrite !sum_list_cons, IH, !TextFacts.slength_app. lia.
Qed.

Section list_to_str_inj.
Import Text TextFacts SplitFacts.

(** A text without the character [c] that is followed by [c] ends where
    [c] first occurs. *)
Lemma until_char_unique c (e e' R R' : string) :
  contains c e = false -> contains c e' = false ->
  e ++ String c R = e' ++ String c R' -> e = e' /\ R = R'.
Proof.
  revert e'. induction e as [|a e IH]; intros [|a' e'] He He' E.
  - rewrite !sapp_nil_l in E. by injection E.
  - rewrite sapp_nil_l, sapp_cons in E. injection E as <- _.
    rewrite contains_cons, Ascii.eqb_refl in He'. done.
  - rewrite sapp_nil_l, sapp_cons in E. injection E as -> _.
    rewrite contains_cons, Ascii.eqb_refl in He. done.
  - rewrite !sapp_cons in E. injection E as -> E.
    rewrite contains_cons in He, He'.
    apply orb_false_iff in He as [_ He]. apply orb_false_iff in He' as [_ He'].
    destruct (IH e' He He' E) as [-> ->]. done.
Qed.

(** The text of a list: the first item between quotes, then nothing or
    the delimiter and the text of the rest. *)
Definition after_first (lst : list string) (delim quote : string) : string :=
  match lst with
  | [] => ""
  | _ => delim ++ list_to_str lst delim quote
  end.

Lemma list_to_str_first x lst delim quote :
  list_to_str (x :: lst) delim quote
  = quote ++ x ++ quote ++ after_first lst delim quote.
Proof.
  destruct lst as [|y lst].
  - cbn [after_first]. unfold list_to_str. cbn [map join]. by rewrite sapp_nil_r.
  - unfold list_to_str. cbn [map]. rewrite join_cons. cbn [after_first].
    unfold list_to_str. cbn [map]. by rewrite !sapp_assoc.
Qed.

End list_to_str_inj.

(** X7: with the default delimiter and quote, two lists whose items hold
    no quote character and that give the same text are the same list. *)
Theorem list_to_str_injective (l l' : list string) :
  Forall (fun e => Text.contains "'" e = false) l ->
  Forall (fun e => Text.contains "'" e = false) l' ->
  list_to_str l default_delim default_quote = list_to_str l' default_delim default_quote ->
  l = l'.
Proof.
  intros Hl. revert l'. induction Hl as [|x l Hx Hl IH]; intros l' Hl' E.
  - destruct l' as [|x' l']; [done|]. rewrite list_to_str_first in E. discriminate E.
  - destruct l' as [|x' l']; [rewrite list_to_str_first in E; discriminate E|].
    inversion Hl' as [|? ? Hx' Hl'']; subst.
    rewrite !list_to_str_first in E. unfold default_quote in E at 1 2 4 5.
    rewrite !TextFacts.sapp_cons, !TextFacts.sapp_nil_l in E. injection E as E.
    destruct (until_char_unique _ _ _ _ _ Hx Hx' E) as [-> E'].
    f_equal. apply IH; [done|].
    destruct l as [|y l], l' as [|y' l']; try done; cbn [after_first] in E';
      try discriminate E'.
    unfold default_delim in E' at 1 3. rewrite !TextFacts.sapp_cons, !TextFacts.sapp_nil_l in E'.
    by injection E'.
Qed.

Lemma list_to_str_injective_witness : ["a, b"; "c"] = ["a, b"; "c"].
Proof.
  apply (list_to_str_injective ["a, b"; "c"] ["a, b"; "c"]);
    [by repeat constructor|by repeat constructor|reflexivity].
Defined.

(** Without the condition the text does not tell the list: an item with
    quotes inside reads like two items. *)
Example list_to_str_ambiguous :
  list_to_str ["a', 'b"] default_delim default_quote
  = list_to_str ["a"; "b"] default_delim default_quote.
Proof. reflexivity. Qed.

(** ** [build_entity] *)

(** X8: the keys of the result are the four standard keys, [role] and
    [group] when the argument is given and not empty, and the keys of the
    extra fields; there is no other key. *)
Theorem build_entity_dom (start stop : Z) (value entity_type : string)
    (role group : option string) (kwargs : gmap string pyval) :
  dom (build_entity start stop value entity_type role group kwargs)
  = dom kwargs
    ∪ {[ ENTITY_ATTRIBUTE_START; ENTITY_ATTRIBUTE_END;
         ENTITY_ATTRIBUTE_VALUE; ENTITY_ATTRIBUTE_TYPE ]}
    ∪ (if truthy role then {[ ENTITY_ATTRIBUTE_ROLE ]} else ∅)
    ∪ (if truthy group then {[ ENTITY_ATTRIBUTE_GROUP ]} else ∅).
Proof.
  unfold build_entity. rewrite dom_union_L.
  destruct role as [r|], group as [g|]; cbn [truthy];
    repeat (destruct (bool_decide _); cbn [negb]);
    rewrite ?dom_insert_L, ?dom_empty_L;
    apply set_eq; intros k;
    rewrite ?elem_of_union, ?elem_of_singleton, ?elem_of_empty; tauto.
Qed.

(** X9: a standard key holds the argument it was built from, unless an
    extra field of the same name replaces it. *)
Theorem build_entity_standard (start stop : Z) (value entity_type : string)
    (role group : option string) (kwargs : gmap string pyval) :
  let entity := build_entity start stop value entity_type role group kwargs in
  entity !! ENTITY_ATTRIBUTE_START
    = Some (default (VInt start) (kwargs !! ENTITY_ATTRIBUTE_START)) /\
  entity !! ENTITY_ATTRIBUTE_END
    = Some (default (VInt stop) (kwargs !! ENTITY_ATTRIBUTE_END)) /\
  entity !! ENTITY_ATTRIBUTE_VALUE
    = Some (default (VStr value) (kwargs !! ENTITY_ATTRIBUTE_VALUE)) /\
  entity !! ENTITY_ATTRIBUTE_TYPE
    = Some (default (VStr entity_type) (kwargs !! ENTITY_ATTRIBUTE_TYPE)).
Proof.
  intros entity. subst entity. rewrite build_entity_union.
  assert (forall k x,
            build_entity start stop value entity_type role group ∅ !! k = Some x ->
            (kwargs ∪ build_entity start stop value entity_type role group ∅) !! k
            = Some (default x (kwargs !! k))) as Hk.
  { intros k x Hx. rewrite lookup_union. rewrite Hx.
    by destruct (kwargs !! k). }
  repeat split; apply Hk; unfold build_entity; rewrite (left_id_L ∅ (∪));
    destruct role as [r|], group as [g|]; cbn [truthy];
    repeat case_match; by simplify_map_eq.
Qed.

(** ** [os.path.splitext] as [is_model_dir] uses it *)

(** A text made of dots only. *)
Fixpoint all_dots (s : string) : bool :=
  match s with
  | EmptyString => true
  | String c s' => Ascii.eqb c "." && all_dots s'
  end.

Module SplitextFacts.
Import TextFacts SplitFacts.

Lemma take_drop_text n s : Text.take n s ++ Text.drop n s = s.
Proof.
  revert s. induction n as [|n IH]; intros [|c s]; try done.
  cbn [Text.take Text.drop]. by rewrite sapp_cons, IH.
Qed.

Lemma take_app_length a b : Text.take (String.length a) (a ++ b) = a.
Proof. induction a as [|c a IH]; [by destruct b|]. rewrite sapp_cons. cbn. by rewrite IH. Qed.

Lemma drop_app_length a b : Text.drop (String.length a) (a ++ b) = b.
Proof. induction a as [|c a IH]; [done|]. rewrite sapp_cons. cbn. by rewrite IH. Qed.

Lemma startswith_char c x s :
  Text.startswith (String x s) (String c "") = Ascii.eqb c x.
Proof. cbn. by destruct (Ascii.eqb c x). Qed.

(** [rfind] of one character: absent, it is [-1]; otherwise it is the place
    of the occurrence after which there is no other. *)
Lemma rfind_from_none c s i :
  Text.contains c s = false -> Text.rfind_from s (String c "") i = (-1)%Z.
Proof.
  revert i. induction s as [|x s IH]; intros i H; [done|].
  rewrite contains_cons in H. apply orb_false_iff in H as [Hx Hs].
  cbn [Text.rfind_from]. rewrite IH by done. cbn [Z.leb Z.compare].
  rewrite startswith_char, Ascii.eqb_sym, Hx. done.
Qed.

Lemma rfind_from_last c a b i :
  (0 <= i)%Z -> Text.contains c b = false ->
  Text.rfind_from (a ++ String c b) (String c "") i = (i + Z.of_nat (String.length a))%Z.
Proof.
  revert i. induction a as [|x a IH]; intros i Hi Hb.
  - rewrite sapp_nil_l. cbn [Text.rfind_from String.length].
    rewrite rfind_from_none by done. cbn [Z.leb Z.compare].
    rewrite startswith_char, Ascii.eqb_refl. lia.
  - rewrite sapp_cons. cbn [Text.rfind_from String.length].
    rewrite IH by (lia || done).
    destruct (0 <=? i + 1 + Z.of_nat (String.length a))%Z eqn:E; [lia|].
    apply Z.leb_gt in E. lia.
Qed.

Lemma contains_app c a b :
  Text.contains c (a ++ b) = Text.contains c a || Text.contains c b.
Proof.
  induction a as [|x a IH]; [done|].
  rewrite sapp_cons, !contains_cons, IH. by rewrite orb_assoc.
Qed.

Lemma rfind_from_range s sub i :
  (0 <= i)%Z ->
  Text.rfind_from s sub i = (-1)%Z \/ (i <= Text.rfind_from s sub i)%Z.
Proof.
  revert i. induction s as [|x s IH]; intros i Hi; cbn [Text.rfind_from].
  - destruct (Text.startswith "" sub); [right; lia|by left].
  - destruct (IH (i + 1)%Z ltac:(lia)) as [-> | H].
    + cbn [Z.leb Z.compare]. destruct (Text.startswith _ sub); [right; lia|by left].
    + destruct (0 <=? Text.rfind_from s sub (i + 1))%Z eqn:E; [right; lia|].
      apply Z.leb_gt in E. lia.
Qed.

(** A text with the character splits at its last occurrence. *)
Lemma contains_last c s :
  Text.contains c s = true ->
  exists a b, s = a ++ String c b /\ Text.contains c b = false.
Proof.
  induction s as [|x s IH]; [done|]. rewrite contains_cons.
  destruct (Text.contains c s) eqn:Hs.
  - intros _. destruct (IH eq_refl) as (a & b & -> & Hb).
    exists (String x a), b. by rewrite sapp_cons.
  - rewrite orb_false_r. intros ->%Ascii.eqb_eq. by exists "", s.
Qed.

Lemma get_app_length a x b : Text.get (String.length a) (a ++ String x b) = Some x.
Proof. induction a as [|c a IH]; [done|]. rewrite sapp_cons. exact IH. Qed.

(** The loop over the leading characters finds a character that is not a
    dot exactly when the text it runs over is not made of dots. *)
Lemma non_dot_before_stem pre stem rest :
  OsPath.non_dot_before (pre ++ stem ++ rest) (String.length pre) (String.length stem)
  = negb (all_dots stem).
Proof.
  revert pre. induction stem as [|x stem IH]; intros pre; [done|].
  cbn [String.length OsPath.non_dot_before all_dots].
  rewrite sapp_cons, get_app_length.
  destruct (Ascii.eqb x ".") eqn:E.
  - apply Ascii.eqb_eq in E as ->. rewrite bool_decide_eq_true_2 by done.
    cbn [andb]. specialize (IH (pre ++ String "." "")).
    rewrite slength_app in IH. cbn [String.length] in IH.
    replace (String.length pre + 1) with (S (String.length pre)) in IH by lia.
    rewrite <- IH. by rewrite !sapp_assoc.
  - rewrite bool_decide_eq_false_2; [done|].
    intros [= ->]. by rewrite Ascii.eqb_refl in E.
Qed.

(** The text of a slash-free name before and after its last dot. *)
Lemma splitext_last_dot stem e :
  Text.contains "/" stem = false -> Text.contains "/" e = false ->
  Text.contains "." e = false ->
  OsPath.splitext (stem ++ String "." e)
  = if all_dots stem then (stem ++ String "." e, "") else (stem, String "." e).
Proof.
  intros Hs He Hd. unfold OsPath.splitext, Text.rfind, OsPath.sep, OsPath.extsep.
  rewrite rfind_from_none
    by (rewrite contains_app, contains_cons, Hs, He; reflexivity).
  rewrite rfind_from_last by (lia || done).
  replace (-1 <? 0 + Z.of_nat (String.length stem))%Z with true
    by (symmetry; apply Z.ltb_lt; lia).
  replace (Z.to_nat (-1 + 1)) with (String.length "") by reflexivity.
  replace (Z.to_nat (0 + Z.of_nat (String.length stem) - (-1 + 1)))
    with (String.length stem) by lia.
  replace (Z.to_nat (0 + Z.of_nat (String.length stem)))
    with (String.length stem) by lia.
  rewrite <- (sapp_nil_l (stem ++ String "." e)) at 1.
  rewrite non_dot_before_stem. cbn [andb].
  destruct (all_dots stem); cbn [negb]; [done|].
  by rewrite take_app_length, drop_app_length.
Qed.

Lemma splitext_no_dot p :
  Text.contains "." p = false -> OsPath.splitext p = (p, "").
Proof.
  intros H. unfold OsPath.splitext, Text.rfind, OsPath.extsep.
  rewrite (rfind_from_none "." p 0 H).
  destruct (Text.rfind_from p OsPath.sep 0 <? -1)%Z eqn:E; [|done].
  apply Z.ltb_lt in E.
  destruct (rfind_from_range p OsPath.sep 0 ltac:(lia)); lia.
Qed.

End SplitextFacts.

(** X10: [splitext] cuts its argument in two: the root followed by the
    extension is the argument. *)
Theorem splitext_concat (p : string) :
  (OsPath.splitext p).1 ++ (OsPath.splitext p).2 = p.
Proof.
  unfold OsPath.splitext. destruct (_ && _); cbn [fst snd].
  - apply SplitextFacts.take_drop_text.
  - apply TextFacts.sapp_nil_r.
Qed.

(** X11: the extension is empty, or it is a dot followed by a text with
    no dot and no slash. *)
Theorem splitext_extension_shape (p : string) :
  (OsPath.splitext p).2 = "" \/
  exists e, (OsPath.splitext p).2 = String "." e /\
            Text.contains "." e = false /\ Text.contains "/" e = false.
Proof.
  unfold OsPath.splitext, Text.rfind, OsPath.sep, OsPath.extsep.
  destruct (_ && _) eqn:E; [|by left]. right. cbn [snd].
  apply andb_true_iff in E as [E _]. apply Z.ltb_lt in E.
  destruct (Text.contains "." p) eqn:Hdot.
  2:{ rewrite (SplitextFacts.rfind_from_none "." p 0 Hdot) in E.
      destruct (SplitextFacts.rfind_from_range p "/" 0 ltac:(lia)); lia. }
  apply SplitextFacts.contains_last in Hdot as (a & e & -> & He).
  rewrite SplitextFacts.rfind_from_last in E |- * by (lia || done).
  replace (Z.to_nat (0 + Z.of_nat (String.length a))) with (String.length a) by lia.
  rewrite SplitextFacts.drop_app_length. exists e. split; [done|]. split; [done|].
  destruct (Text.contains "/" e) eqn:Hsl; [|done]. exfalso.
  apply SplitextFacts.contains_last in Hsl as (b1 & b2 & -> & Hb2).
  replace (a ++ String "." (b1 ++ String "/" b2))
    with ((a ++ String "." b1) ++ String "/" b2) in E
    by (by rewrite TextFacts.sapp_assoc, TextFacts.sapp_cons).
  rewrite SplitextFacts.rfind_from_last in E by (lia || done).
  rewrite TextFacts.slength_app in E. cbn [String.length] in E. lia.
Qed.

(** X12: which file names [is_model_dir] accepts.  For a name without a
    slash, the extension is an allowed one exactly when the name is an
    allowed extension after a stem that is not made of dots only; so
    [a.json] and [a.b.pkl] pass, and [.json], [..dat] and [json] do not. *)
Theorem allowed_extension_iff (name : string) :
  Text.contains "/" name = false ->
  ((OsPath.splitext name).2 ∈ allowed_extensions <->
   exists stem ext,
     name = stem ++ ext /\ ext ∈ allowed_extensions /\ all_dots stem = false).
Proof.
  intros Hname.
  assert (forall ext, ext ∈ allowed_extensions ->
            exists e, ext = String "." e /\ Text.contains "." e = false /\
                      Text.contains "/" e = false) as Hallowed.
  { intros ext. unfold allowed_extensions.
    rewrite !elem_of_union, !elem_of_singleton.
    intros [[-> | ->] | ->]; eexists; by repeat split. }
  split.
  - intros Hext. destruct (Text.contains "." name) eqn:Hdot.
    2:{ rewrite SplitextFacts.splitext_no_dot in Hext by done.
        by destruct (Hallowed _ Hext) as (e & ? & _). }
    apply SplitextFacts.contains_last in Hdot as (a & e & -> & He).
    rewrite SplitextFacts.contains_app, SplitFacts.contains_cons in Hname.
    apply orb_false_iff in Hname as [Ha [_ Hse]%orb_false_iff].
    rewrite SplitextFacts.splitext_last_dot in Hext by done.
    destruct (all_dots a) eqn:Hall; cbn [snd] in Hext.
    + by destruct (Hallowed _ Hext) as (e' & ? & _).
    + by exists a, (String "." e).
  - intros (stem & ext & -> & Hext & Hstem).
    destruct (Hallowed _ Hext) as (e & -> & He & Hse).
    rewrite SplitextFacts.contains_app in Hname.
    apply orb_false_iff in Hname as [Hs _].
    rewrite SplitextFacts.splitext_last_dot by done. by rewrite Hstem.
Qed.

Lemma allowed_extension_iff_witness :
  (OsPath.splitext "intent.classifier.pkl").2 ∈ allowed_extensions.
Proof.
  apply (allowed_extension_iff "intent.classifier.pkl"); [reflexivity|].
  exists "intent.classifier", ".pkl". split; [reflexivity|]. split; [|reflexivity].
  unfold allowed_extensions. rewrite !elem_of_union, !elem_of_singleton. auto.
Defined.

Example is_model_dir_hidden_file :
  is_model_dir {[ "m" := Dir {[ ".json" := File "" ]} ]} ["m"] = Returns false.
Proof. vm_compute. reflexivity. Qed.

(** ** [is_model_dir] and [remove_model] *)

(** X13: a path that names a regular file is no model directory, and
    [remove_model] refuses it and leaves the file in place. *)
Theorem remove_model_regular_file (st : gmap string node) (p : list string)
    (content : string) :
  lookup_path st p = Some (File content) ->
  is_model_dir st p = Returns false /\
  remove_model p st = (st, Raises (ValueError (remove_model_message p))).
Proof.
  intros H.
  assert (is_model_dir st p = Returns false) as Hfalse.
  { apply is_model_dir_not_dir. intros entries. by rewrite H. }
  split; [done|]. by apply remove_model_false.
Qed.

Lemma remove_model_regular_file_witness :
  remove_model ["notes.json"] sample_fs
  = (sample_fs, Raises (ValueError (remove_model_message ["notes.json"]))).
Proof. apply (remove_model_regular_file sample_fs ["notes.json"] ""). reflexivity. Defined.

(** X14: a model directory is removed once: after [remove_model] returned
    true, the same call on the new state raises [ValueError] and changes
    nothing. *)
Theorem remove_model_twice (d : list string) (st : gmap string node) :
  is_model_dir st d = Returns true ->
  let st' := (remove_model d st).1 in
  (remove_model d st).2 = Returns true /\
  is_model_dir st' d = Returns false /\
  remove_model d st' = (st', Raises (ValueError (remove_model_message d))).
Proof.
  intros H st'. subst st'. rewrite (remove_model_true _ _ H). cbn [fst snd].
  apply is_model_dir_true_dir in H as [entries Hd].
  assert (lookup_path (remove_path d st) d = None) as Hgone.
  { rewrite <- (app_nil_r d) at 2. apply lookup_remove_path_below. by destruct d. }
  assert (is_model_dir (remove_path d st) d = Returns false) as Hfalse.
  { apply is_model_dir_not_dir. intros e. by rewrite Hgone. }
  split; [done|]. split; [done|]. by apply remove_model_false.
Qed.

Lemma remove_model_twice_witness :
  remove_model ["model"] (remove_model ["model"] sample_fs).1
  = ((remove_model ["model"] sample_fs).1,
     Raises (ValueError (remove_model_message ["model"]))).
Proof. apply (remove_model_twice ["model"] sample_fs). reflexivity. Defined.

(** X15: the answer of [is_model_dir] depends on what is at the path only:
    two paths, in the same or in different states, at which the same file
    or directory is found (or nothing) get the same answer. *)
Theorem is_model_dir_same_node (st st' : gmap string node) (d d' : list string) :
  lookup_path st d = lookup_path st' d' ->
  is_model_dir st d = is_model_dir st' d'.
Proof.
  intros E. destruct (lookup_path st d) as [[c|entries|]|] eqn:Hd.
  - rewrite !is_model_dir_not_dir; [done| |]; intros e; congruence.
  - destruct (is_model_dir_dir st d entries Hd) as (b & -> & Hb).
    destruct (is_model_dir_dir st' d' entries (eq_sym E)) as (b' & -> & Hb').
    f_equal. destruct b, b'; try done.
    + symmetry. by apply Hb', Hb.
    + by apply Hb, Hb'.
  - rewrite !is_model_dir_not_dir; [done| |]; intros e; congruence.
  - rewrite !is_model_dir_not_dir; [done| |]; intros e; congruence.
Qed.

Lemma is_model_dir_same_node_witness :
  is_model_dir sample_fs ["model"]
  = is_model_dir {[ "copy" := Dir {[ "a.json" := File "{}"; "b.pkl" := File "" ]} ]} ["copy"].
Proof. apply is_model_dir_same_node. reflexivity. Defined.


(** ** [is_model_dir] on a directory *)

Example os_walk_linked : os_walk linked_fs ["m"] = [(["m"], ["c"], ["a.json"])].
Proof. vm_compute. reflexivity. Qed.

Example scandir_link : scandir linked_fs ["m"; "c"] = Raises (PermissionError "m/c").
Proof. vm_compute. reflexivity. Qed.

Example remove_model_linked :
  remove_model ["m"] linked_fs = (∅, Returns true).
Proof. vm_compute. reflexivity. Qed.






(** ** [relative_normpath] *)

Section relpath_more.
Import PathFacts RelpathFacts.
Local Open Scope list_scope.

Lemma commonprefix_app l rest : OsPath.commonprefix l (l ++ rest) = l.
Proof.
  induction l as [|x l IH]; [by destruct rest|].
  cbn. rewrite bool_decide_eq_true_2 by done. by rewrite IH.
Qed.

Lemma commonprefix_refl l : OsPath.commonprefix l l = l.
Proof.
  induction l as [|x l IH]; [done|].
  cbn. rewrite bool_decide_eq_true_2 by done. by rewrite IH.
Qed.

Lemma commonprefix_same_length l1 l2 :
  length (OsPath.commonprefix l1 l2) = length l1 ->
  length l2 <= length (OsPath.commonprefix l1 l2) ->
  l1 = l2.
Proof.
  intros H1 H2. destruct (commonprefix_take l1 l2) as [E1 E2].
  assert (take (length (OsPath.commonprefix l1 l2)) l1 = l1) as F1
    by (rewrite H1; apply firstn_all).
  assert (take (length (OsPath.commonprefix l1 l2)) l2 = l2) as F2
    by (by apply firstn_all2).
  congruence.
Qed.

End relpath_more.

(** X16: the result is the path [.], with no part, exactly when the file
    and the base are the same place, that is, when their absolute paths
    have the same components. *)
Theorem relative_normpath_curdir (cwd f base : string) :
  OsPath.isabs cwd = true -> f <> "" ->
  (relative_normpath cwd (Some f) base = Returns (Some {| root := ""; parts := [] |})
   <-> OsPath.components (OsPath.abspath cwd base)
       = OsPath.components (OsPath.abspath cwd f)).
Proof.
  intros Hcwd Hf.
  destruct (RelpathFacts.relpath_segments cwd f base Hcwd Hf) as (-> & _ & _).
  set (S := OsPath.components (OsPath.abspath cwd base)).
  set (T := OsPath.components (OsPath.abspath cwd f)).
  pose proof (PathFacts.commonprefix_length_le S T) as Hle.
  split.
  - intros [= E]. apply app_eq_nil in E as [E1 E2].
    assert (length S - length (OsPath.commonprefix S T) = 0) as Hk.
    { destruct (length S - length (OsPath.commonprefix S T)); [done|discriminate E1]. }
    apply commonprefix_same_length; [lia|].
    apply (f_equal length) in E2. rewrite length_drop in E2. cbn in E2. lia.
  - intros E. rewrite <- E, commonprefix_refl.
    by rewrite Nat.sub_diag, drop_all.
Qed.

Lemma relative_normpath_curdir_witness :
  relative_normpath "/home/u" (Some "models/") "./models"
  = Returns (Some {| root := ""; parts := [] |}).
Proof.
  apply (relative_normpath_curdir "/home/u" "models/" "./models");
    [reflexivity|discriminate|reflexivity].
Defined.

(** X17: for a file below the base, the result goes down only: its parts
    are the components of the file after those of the base, with no [..]. *)
Theorem relative_normpath_below (cwd f base : string) (rest : list string) :
  OsPath.isabs cwd = true -> f <> "" ->
  OsPath.components (OsPath.abspath cwd f)
  = (OsPath.components (OsPath.abspath cwd base) ++ rest)%list ->
  relative_normpath cwd (Some f) base = Returns (Some {| root := ""; parts := rest |}).
Proof.
  intros Hcwd Hf E.
  destruct (RelpathFacts.relpath_segments cwd f base Hcwd Hf) as (-> & _ & _).
  rewrite E, commonprefix_app, Nat.sub_diag, drop_app_length. reflexivity.
Qed.

Lemma relative_normpath_below_witness :
  relative_normpath "/home/u" (Some "models/nlu/intent.pkl") "models"
  = Returns (Some {| root := ""; parts := ["nlu"; "intent.pkl"] |}).
Proof.
  apply (relative_normpath_below "/home/u" "models/nlu/intent.pkl" "models");
    [reflexivity|discriminate|reflexivity].
Defined.

(** ** [module_path_from_object] *)

Section module_path_facts.
Import TextFacts SplitextFacts.

Lemma drop_past_char a c b :
  Text.drop (S (String.length a)) (a ++ String c b) = b.
Proof. induction a as [|x a IH]; [done|]. rewrite sapp_cons. exact IH. Qed.

Lemma rpartition_last_char a c b :
  Text.contains c b = false ->
  rpartition (a ++ String c b) c = (a, String c "", b).
Proof.
  intros Hb. unfold rpartition, Text.rfind.
  rewrite rfind_from_last by (lia || done).
  replace (0 + Z.of_nat (String.length a) <? 0)%Z with false
    by (symmetry; apply Z.ltb_ge; lia).
  replace (Z.to_nat (0 + Z.of_nat (String.length a))) with (String.length a) by lia.
  by rewrite take_app_length, drop_past_char.
Qed.

End module_path_facts.

Example module_path_example :
  module_path_from_object
    {| object_class := {| class_module := "rasa.nlu.model"; class_name := "Trainer" |} |}
  = "rasa.nlu.model.Trainer".
Proof. reflexivity. Qed.

(** X18: the path of an object whose class name holds no dot splits at its
    last dot into the module and the name of the class. *)
Theorem module_path_rpartition (o : pyobject) :
  Text.contains "." (class_name (object_class o)) = false ->
  rpartition (module_path_from_object o) "."
  = (class_module (object_class o), ".", class_name (object_class o)).
Proof.
  intros H. unfold module_path_from_object.
  rewrite TextFacts.sapp_cons, TextFacts.sapp_nil_l.
  by apply rpartition_last_char.
Qed.

Lemma module_path_rpartition_witness :
  rpartition "rasa.nlu.model.Trainer" "." = ("rasa.nlu.model", ".", "Trainer").
Proof.
  apply (module_path_rpartition
           {| object_class := {| class_module := "rasa.nlu.model";
                                 class_name := "Trainer" |} |}).
  reflexivity.
Defined.

(** X19: two objects whose class names hold no dot have the same path only
    if they have the same class, by module and by name. *)
Theorem module_path_injective (o1 o2 : pyobject) :
  Text.contains "." (class_name (object_class o1)) = false ->
  Text.contains "." (class_name (object_class o2)) = false ->
  module_path_from_object o1 = module_path_from_object o2 ->
  o1 = o2.
Proof.
  intros H1 H2 E.
  pose proof (rpartition_last_char (class_module (object_class o1)) "."
                (class_name (object_class o1)) H1) as P1.
  pose proof (rpartition_last_char (class_module (object_class o2)) "."
                (class_name (object_class o2)) H2) as P2.
  unfold module_path_from_object in E.
  rewrite !TextFacts.sapp_cons, !TextFacts.sapp_nil_l in E.
  rewrite E, P2 in P1. injection P1 as Hm Hn.
  destruct o1 as [[m1 n1]], o2 as [[m2 n2]]. cbn in *. by subst.
Qed.

Lemma module_path_injective_witness :
  {| object_class := {| class_module := "a.b"; class_name := "C" |} |}
  = {| object_class := {| class_module := "a.b"; class_name := "C" |} |}.
Proof. apply module_path_injective; reflexivity. Defined.

(** A class name with a dot makes two classes share a path. *)
Example module_path_collision :
  module_path_from_object
    {| object_class := {| class_module := "a"; class_name := "b.C" |} |}
  = module_path_from_object
      {| object_class := {| class_module := "a.b"; class_name := "C" |} |}.
Proof. reflexivity. Qed.

(** ** [write_to_file] and [write_json_to_file] *)

Section write_facts.
Local Open Scope list_scope.
Implicit Types (st entries sub : gmap string node) (p q d : list string).

Lemma write_path_cons name rest content st :
  rest <> [] ->
  write_path (name :: rest) content st
  = match st !! name with
    | Some (Dir sub) =>
        match write_path rest content sub with
        | inl e => inl e
        | inr sub' => inr (<[name := Dir sub']> st)
        end
    | Some (File _) => inl ENOTDIR
    | Some Link => inl EACCES
    | None => inl ENOENT
    end.
Proof. by destruct rest. Qed.

Lemma write_path_lookup p content st st' :
  write_path p content st = inr st' -> lookup_path st' p = Some (File content).
Proof.
  revert st st'. induction p as [|name rest IH]; intros st st' H; [done|].
  destruct (decide (rest = [])) as [->|Hrest].
  - cbn in H. destruct (st !! name) as [[c|sub|]|]; try done;
      injection H as <-; cbn; apply lookup_insert_eq.
  - rewrite write_path_cons in H by done. rewrite lookup_path_cons by done.
    destruct (st !! name) as [[c|sub|]|]; try done.
    destruct (write_path rest content sub) as [e|sub'] eqn:E; [done|].
    injection H as <-. rewrite lookup_insert_eq. by apply (IH sub).
Qed.

Lemma write_path_other p q content st st' :
  write_path p content st = inr st' ->
  ~ p `prefix_of` q -> ~ q `prefix_of` p ->
  lookup_path st' q = lookup_path st q.
Proof.
  revert q st st'. induction p as [|name rest IH]; intros q st st' H Hpq Hqp; [done|].
  destruct q as [|x q]; [destruct Hqp; apply prefix_nil|].
  assert (forall m : gmap string node,
            x <> name -> (forall k, k <> name -> m !! k = st !! k) ->
            lookup_path m (x :: q) = lookup_path st (x :: q)) as Hsame.
  { intros m Hx Hm. destruct q; cbn; by rewrite Hm. }
  destruct (decide (rest = [])) as [->|Hrest].
  - assert (x <> name) as Hx.
    { intros ->. apply Hpq. by apply prefix_cons, prefix_nil. }
    cbn in H. destruct (st !! name) as [[c|sub|]|]; try done;
      injection H as <-; apply Hsame; try done;
      intros k Hk; by rewrite lookup_insert_ne.
  - rewrite write_path_cons in H by done.
    destruct (st !! name) as [[c|sub|]|] eqn:Hname; try done.
    destruct (write_path rest content sub) as [e|sub'] eqn:E; [done|].
    injection H as <-.
    destruct (decide (x = name)) as [->|Hx].
    + assert (q <> []) as Hq.
      { intros ->. apply Hqp. by apply prefix_cons, prefix_nil. }
      rewrite !lookup_path_cons by done. rewrite lookup_insert_eq, Hname.
      apply (IH q sub sub' E); intros Hp; [apply Hpq|apply Hqp]; by apply prefix_cons.
    + apply Hsame; [done|]. intros k Hk. by rewrite lookup_insert_ne.
Qed.

Lemma write_path_parent d name content st st' entries :
  write_path (d ++ [name]) content st = inr st' ->
  lookup_path st d = Some (Dir entries) ->
  lookup_path st' d = Some (Dir (<[name := File content]> entries)).
Proof.
  revert st st'. induction d as [|x d IH]; intros st st' H Hd; [done|].
  change ((x :: d) ++ [name]) with (x :: (d ++ [name])) in H.
  rewrite write_path_cons in H by (by destruct d).
  destruct (decide (d = [])) as [->|Hne].
  - cbn in Hd. rewrite Hd in H. cbn in H.
    destruct (entries !! name) as [[c|sub|]|]; try done;
      injection H as <-; cbn; by rewrite lookup_insert_eq.
  - rewrite lookup_path_cons in Hd |- * by done.
    destruct (st !! x) as [[c|sub|]|]; try done.
    destruct (write_path (d ++ [name]) content sub) as [e|sub'] eqn:E; [done|].
    injection H as <-. rewrite lookup_insert_eq. by apply (IH sub).
Qed.

Lemma write_path_twice p c1 c2 st st1 :
  write_path p c1 st = inr st1 -> write_path p c2 st1 = write_path p c2 st.
Proof.
  revert st st1. induction p as [|name rest IH]; intros st st1 H; [done|].
  destruct (decide (rest = [])) as [->|Hrest].
  - cbn in H |- *. destruct (st !! name) as [[c|sub|]|] eqn:Hname; try done;
      injection H as <-; rewrite lookup_insert_eq; by rewrite insert_insert_eq.
  - rewrite write_path_cons in H by done. rewrite !write_path_cons by done.
    destruct (st !! name) as [[c|sub|]|] eqn:Hname; try done.
    destruct (write_path rest c1 sub) as [e|sub1] eqn:E; [done|].
    injection H as <-. rewrite lookup_insert_eq.
    rewrite (IH _ _ E). destruct (write_path rest c2 sub); [done|].
    by rewrite insert_insert_eq.
Qed.

End write_facts.

Example write_to_file_new :
  lookup_path (write_to_file str_of_text ["model"; "c.dat"] (VStr "x") sample_fs).1
    ["model"; "c.dat"]
  = Some (File "x").
Proof. vm_compute. reflexivity. Qed.

Example write_to_file_no_parent :
  write_to_file str_of_text ["missing"; "c.dat"] (VStr "x") sample_fs
  = (sample_fs, OpenFailed ENOENT).
Proof. vm_compute. reflexivity. Qed.

Example write_to_file_on_directory :
  write_to_file str_of_text ["model"] (VStr "x") sample_fs
  = (sample_fs, OpenFailed EISDIR).
Proof. vm_compute. reflexivity. Qed.

(** X20: when [write_to_file] succeeds, the file holds the text of its
    argument and every path that is neither below nor above the file
    resolves as before; when it fails, the file system is unchanged.  It
    never reports a serializer error. *)
Theorem write_to_file_effect (py_str : pyval -> string) (filename : list string)
    (text : pyval) (st : gmap string node) :
  let r := write_to_file py_str filename text st in
  (r.2 = Written ->
     lookup_path r.1 filename = Some (File (py_str text)) /\
     forall q, ~ filename `prefix_of` q -> ~ q `prefix_of` filename ->
               lookup_path r.1 q = lookup_path st q) /\
  (r.2 <> Written -> r.1 = st) /\
  (forall e, r.2 <> SerializerRaised e).
Proof.
  intros r. subst r. unfold write_to_file, write_text_file.
  destruct (write_path filename (py_str text) st) as [e|st'] eqn:E; cbn [fst snd].
  - split; [done|]. split; [done|]. intros e'. discriminate.
  - split; [|split; [done|intros e'; discriminate]].
    intros _. split; [exact (write_path_lookup _ _ _ _ E)|].
    intros q. exact (write_path_other _ _ _ _ _ E).
Qed.

Lemma write_to_file_effect_witness :
  lookup_path (write_to_file str_of_text ["text"; "a.txt"] (VStr "new") sample_fs).1
    ["text"; "a.txt"]
  = Some (File "new").
Proof.
  apply (write_to_file_effect str_of_text ["text"; "a.txt"] (VStr "new") sample_fs).
  reflexivity.
Defined.

(** X21: writing to the same path again replaces the content: after a
    successful write, a second write to the same path gives the state and
    the result that it gives on the state before the first, so only the
    last text remains. *)
Theorem write_to_file_overwrites (py_str : pyval -> string) (filename : list string)
    (t1 t2 : pyval) (st : gmap string node) :
  (write_to_file py_str filename t1 st).2 = Written ->
  write_to_file py_str filename t2 (write_to_file py_str filename t1 st).1
  = write_to_file py_str filename t2 st.
Proof.
  unfold write_to_file, write_text_file.
  destruct (write_path filename (py_str t1) st) as [e|st1] eqn:E1; [done|].
  intros _. cbn [fst]. rewrite (write_path_twice _ _ _ _ _ E1).
  destruct (write_path filename (py_str t2) st) as [e|st2] eqn:E2; [|done].
  exfalso. clear -E1 E2. revert st st1 e E1 E2.
  induction filename as [|name rest IH]; intros st st1 e E1 E2; [done|].
  destruct (decide (rest = [])) as [->|Hrest].
  - cbn in E1, E2. by destruct (st !! name) as [[c|sub|]|].
  - rewrite write_path_cons in E1, E2 by done.
    destruct (st !! name) as [[c|sub|]|]; try done.
    destruct (write_path rest (py_str t1) sub) as [e1|sub1] eqn:F1; [done|].
    destruct (write_path rest (py_str t2) sub) as [e2|sub2] eqn:F2; [|done].
    by apply (IH sub sub1 e2).
Qed.

Lemma write_to_file_overwrites_witness :
  write_to_file str_of_text ["model"; "a.json"] (VStr "2")
    (write_to_file str_of_text ["model"; "a.json"] (VStr "1") sample_fs).1
  = write_to_file str_of_text ["model"; "a.json"] (VStr "2") sample_fs.
Proof. apply write_to_file_overwrites. reflexivity. Defined.

(** X22: a file written into a model directory keeps it one exactly when
    its name has an allowed extension: after a successful write of
    [name] into a directory that [is_model_dir] accepts, [is_model_dir]
    answers whether the extension of [name] is allowed. *)
Theorem write_to_file_model_dir (py_str : pyval -> string) (d : list string)
    (name : string) (text : pyval) (st : gmap string node) :
  is_model_dir st d = Returns true ->
  (write_to_file py_str (d ++ [name])%list text st).2 = Written ->
  is_model_dir (write_to_file py_str (d ++ [name])%list text st).1 d
  = Returns (bool_decide ((OsPath.splitext name).2 ∈ allowed_extensions)).
Proof.
  intros Hmodel. unfold write_to_file, write_text_file.
  destruct (write_path (d ++ [name]) (py_str text) st) as [e|st'] eqn:E; [done|].
  intros _. cbn [fst].
  pose proof (is_model_dir_true_dir _ _ Hmodel) as [entries Hd].
  destruct (is_model_dir_dir _ _ _ Hd) as (b & Hb & Hiff).
  rewrite Hmodel in Hb. injection Hb as <-.
  destruct (proj1 Hiff eq_refl) as [Hflat Hvalid].
  pose proof (write_path_parent _ _ _ _ _ _ E Hd) as Hd'.
  destruct (is_model_dir_dir _ _ _ Hd') as (b' & -> & Hiff'). f_equal.
  destruct (bool_decide_reflect ((OsPath.splitext name).2 ∈ allowed_extensions))
    as [Hext|Hext].
  - apply Hiff'. split.
    + by apply map_Forall_insert_2.
    + intros k c Hk. destruct (decide (k = name)) as [->|Hne]; [done|].
      rewrite lookup_insert_ne in Hk by done. by apply (Hvalid k c).
  - destruct b'; [|done]. destruct (proj1 Hiff' eq_refl) as [_ Hvalid'].
    destruct Hext. apply (Hvalid' name (py_str text)). apply lookup_insert_eq.
Qed.

Lemma write_to_file_model_dir_witness :
  is_model_dir (write_to_file str_of_text (["model"] ++ ["notes.txt"])%list
                  (VStr "x") sample_fs).1 ["model"]
  = Returns (bool_decide ((OsPath.splitext "notes.txt").2 ∈ allowed_extensions)).
Proof. apply write_to_file_model_dir; reflexivity. Defined.

(** ** [json_to_string] and [write_json_to_file] *)

Section json_more.
Variable json_dumps : pyval -> pyval -> pyval -> gmap string pyval -> outcome string.

Lemma json_to_string_default_encode (indent : nat) (x : pyval) :
  json_dumps x (VInt (Z.of_nat indent)) (VBool false) ∅ = Returns (Json.encode indent x) ->
  json_to_string json_dumps x {[ "indent" := VInt (Z.of_nat indent) ]}
  = Returns (Json.encode indent x).
Proof.
  intros H. unfold json_to_string, dict_pop.
  rewrite lookup_singleton_eq, delete_singleton_eq, lookup_empty, delete_empty.
  exact H.
Qed.

Lemma json_to_string_no_options (x : pyval) :
  json_to_string json_dumps x ∅ = json_dumps x (VInt 2) (VBool false) ∅.
Proof.
  unfold json_to_string, dict_pop. by rewrite !lookup_empty, !delete_empty.
Qed.

End json_more.

(** X23: with a serializer that is CPython's encoder on the default
    configuration, [json_to_string] tells well-formed values apart: two of
    them with the same text are equal. *)
Theorem json_to_string_injective
    (json_dumps : pyval -> pyval -> pyval -> gmap string pyval -> outcome string)
    (x y : pyval) :
  (forall obj, json_dumps obj (VInt 2) (VBool false) ∅ = Returns (Json.encode 2 obj)) ->
  well_formed x -> well_formed y ->
  json_to_string json_dumps x ∅ = json_to_string json_dumps y ∅ ->
  x = y.
Proof.
  intros Hdumps Hx Hy. rewrite !json_to_string_no_options, !Hdumps.
  intros [= E].
  pose proof (RoundtripFacts.loads_encode 2 x Hx) as Lx.
  pose proof (RoundtripFacts.loads_encode 2 y Hy) as Ly.
  rewrite E, Ly in Lx. by injection Lx.
Qed.

Lemma json_to_string_injective_witness : VList [VInt 1] = VList [VInt 1].
Proof.
  apply (json_to_string_injective json_dumps_default);
    [intros obj; reflexivity|by cbn|by cbn|reflexivity].
Defined.

(** X24: the round trip does not depend on the indentation: with a
    serializer that is CPython's encoder for an indentation of [indent]
    spaces, the text that [json_to_string] returns when the caller asks for
    that indentation is read back by [json.loads] as the value. *)
Theorem json_to_string_indent_roundtrip
    (json_dumps : pyval -> pyval -> pyval -> gmap string pyval -> outcome string)
    (indent : nat) (x : pyval) :
  json_dumps x (VInt (Z.of_nat indent)) (VBool false) ∅ = Returns (Json.encode indent x) ->
  well_formed x ->
  exists text,
    json_to_string json_dumps x {[ "indent" := VInt (Z.of_nat indent) ]} = Returns text /\
    Json.loads text = Returns x.
Proof.
  intros Hdumps Hwf. exists (Json.encode indent x). split.
  - by apply json_to_string_default_encode.
  - by apply RoundtripFacts.loads_encode.
Qed.

Lemma json_to_string_indent_roundtrip_witness :
  exists text,
    json_to_string (fun obj _ _ _ => Returns (Json.encode 0 obj)) sample_obj
      {[ "indent" := VInt (Z.of_nat 0) ]} = Returns text /\
    Json.loads text = Returns sample_obj.
Proof.
  apply (json_to_string_indent_roundtrip (fun obj _ _ _ => Returns (Json.encode 0 obj)) 0).
  - reflexivity.
  - cbn. repeat split;
      first [exact I | apply (bool_decide_unpack (NoDup _)); vm_compute; exact I].
Defined.

(** X25: [write_json_to_file] with no options, a serializer that is
    CPython's encoder on the default configuration and [str] the identity
    on strings: the serializer does not fail on a well-formed value, and
    when the write succeeds the file holds a text that [json.loads] reads
    back as the value. *)
Theorem write_json_to_file_roundtrip (py_str : pyval -> string)
    (json_dumps : pyval -> pyval -> pyval -> gmap string pyval -> outcome string)
    (filename : list string) (x : pyval) (st : gmap string node) :
  (forall s, py_str (VStr s) = s) ->
  (forall obj, json_dumps obj (VInt 2) (VBool false) ∅ = Returns (Json.encode 2 obj)) ->
  well_formed x ->
  let r := write_json_to_file py_str json_dumps filename x ∅ st in
  (forall e, r.2 <> SerializerRaised e) /\
  (r.2 = Written ->
     exists text, lookup_path r.1 filename = Some (File text) /\
                  Json.loads text = Returns x).
Proof.
  intros Hstr Hdumps Hwf r. subst r. unfold write_json_to_file.
  rewrite json_to_string_no_options, Hdumps.
  unfold write_to_file, write_text_file. rewrite Hstr.
  destruct (write_path filename (Json.encode 2 x) st) as [e|st'] eqn:E; cbn [fst snd].
  - split; [intros e'; discriminate|done].
  - split; [intros e'; discriminate|]. intros _.
    exists (Json.encode 2 x). split.
    + exact (write_path_lookup _ _ _ _ E).
    + by apply RoundtripFacts.loads_encode.
Qed.

Lemma write_json_to_file_roundtrip_witness :
  exists text,
    lookup_path (write_json_to_file str_of_text json_dumps_default
                   ["model"; "meta.json"] sample_obj ∅ sample_fs).1
      ["model"; "meta.json"] = Some (File text) /\
    Json.loads text = Returns sample_obj.
Proof.
  apply (write_json_to_file_roundtrip str_of_text json_dumps_default
           ["model"; "meta.json"] sample_obj sample_fs).
  - intros s. reflexivity.
  - intros obj. reflexivity.
  - cbn. repeat split;
      first [exact I | apply (bool_decide_unpack (NoDup _)); vm_compute; exact I].
  - vm_compute. reflexivity.
Defined.

